(** * Expired waiver deletion: a shallow embedding of [expiredWaiverDeletion.py]

    The script reads a table of policy waivers, marks the rows whose
    expiration date lies before the current UTC time, asks the operator to
    type DELETE and then issues one HTTP DELETE per marked row.

    Modelled here, in the order of the script:
    - the Python values a table cell can hold ([pyval]);
    - [SCOPE_TYPE_MAP] (a dict, as a [gmap]);
    - [make_api_request] with the exception handlers of the [try] block;
    - [parse_waiver_datetime], over a model of [datetime.strptime];
    - the loop that marks rows and the deletion section of [__main__],
      writing every print, prompt and request to a trace;
    - the start of [__main__]: the search for the file, the reading of it
      and the check of its columns. *)

From Stdlib Require Import ZArith Lia Bool Ascii String List.
From stdpp Require Import base option gmap strings list.

Set Warnings "-register-all".
#[local] Arguments String.append !s1 s2 : simpl nomatch.
Local Open Scope string_scope.
Local Open Scope list_scope.

(** ** Python values

    A cell of the data frame holds a string, a missing marker (NaN; [None]
    is listed too, [pd.isna] treats both alike) or another scalar
    (an integer, a float, a boolean). Of such a scalar the script only
    observes [str(x)] and its truth value, so it is kept as these two. *)
Inductive pyval :=
| PNone
| PNaN
| PStr (s : string)
| PScalar (text : string) (truth : bool).

(** [pd.isna(x)] on a scalar. *)
Definition pd_isna (v : pyval) : bool :=
  match v with
  | PNone | PNaN => true
  | _ => false
  end.

(** [isinstance(x, str)]. *)
Definition is_str (v : pyval) : bool :=
  match v with
  | PStr _ => true
  | _ => false
  end.

(** [bool(x)]: NaN is a non-zero float, the empty string is false. *)
Definition truthy (v : pyval) : bool :=
  match v with
  | PNone => false
  | PNaN => true
  | PStr s => negb (String.eqb s "")
  | PScalar _ b => b
  end.

(** [str(x)], also what an f-string writes for [{x}]. *)
Definition py_str (v : pyval) : string :=
  match v with
  | PNone => "None"
  | PNaN => "nan"
  | PStr s => s
  | PScalar t _ => t
  end.

(** ** Scope type mapping (lines 22-29) *)
Definition SCOPE_TYPE_MAP : gmap string string :=
  <["root_organization" := "organization"]>
  (<["organization" := "organization"]>
  (<["application" := "application"]>
  (<["repository" := "repository"]>
  (<["repository_container" := "repository_container"]> ∅)))).

(** [SCOPE_TYPE_MAP.get(x)]: the keys are strings, and no other value of
    [pyval] compares equal to a string. *)
Definition SCOPE_TYPE_MAP_get (v : pyval) : option string :=
  match v with
  | PStr s => SCOPE_TYPE_MAP !! s
  | _ => None
  end.

(** The keys of the dict, in the order of the source. *)
Definition scope_keys : list string :=
  ["root_organization"; "organization"; "application"; "repository";
   "repository_container"].

(** The scope kinds as the specification names them. *)
Definition spec_scope_kinds : list string :=
  ["root-organization"; "organization"; "application"; "repository";
   "repository-group"].

(** ** Results of Python code: a value or a raised exception *)
Inductive exn := ValueError | TypeError | IndexError.

Inductive res (A : Type) :=
| Ret (a : A)
| Raise (e : exn).
Arguments Ret {A} a.
Arguments Raise {A} e.

Definition res_bind {A B} (m : res A) (f : A -> res B) : res B :=
  match m with
  | Ret a => f a
  | Raise e => Raise e
  end.

Notation "'do!' x <- m ; k" := (res_bind m (fun x => k))
  (at level 10, x name, m at level 100, k at level 200).

(** ** Strings

    A Python [str] is modelled as a [string] of 8-bit characters read as
    the code points 0..255. In this range the decimal digits are 0-9 only
    and no character other than t and T matches a T under IGNORECASE. A
    text with a character above 255 has no counterpart here; among them
    are the decimal digits of other scripts, which [\d] and [int] read as
    digits. *)
Module Str.

Definition code (a : ascii) : nat := nat_of_ascii a.

Definition in_range (lo hi a : ascii) : bool :=
  (code lo <=? code a)%nat && (code a <=? code hi)%nat.

Definition is_digit (a : ascii) : bool := in_range "0" "9" a.

(** [str.isspace] on one character of the range 0..255. *)
Definition is_space (a : ascii) : bool :=
  let n := code a in
  ((9 <=? n) && (n <=? 13) || (28 <=? n) && (n <=? 32)
   || (n =? 133) || (n =? 160))%nat.

Definition is_lower (a : ascii) : bool := in_range "a" "z" a.

(** [str.upper] on one character: the letters a-z. A code point above
    127 is left as it is: Python maps it to a letter that is not ASCII
    (U+00DF to SS), so a comparison with a word of the letters D, E, L and
    T comes out the same. *)
Definition upper_char (a : ascii) : ascii :=
  if is_lower a then ascii_of_nat (code a - 32) else a.

Fixpoint upper (s : string) : string :=
  match s with
  | "" => ""
  | String a s' => String (upper_char a) (upper s')
  end.

(** White space for [int]: it keeps the ASCII separators 28-31. *)
Definition is_int_space (a : ascii) : bool :=
  let n := code a in
  ((9 <=? n) && (n <=? 13) || (n =? 32) || (n =? 133) || (n =? 160))%nat.

Fixpoint lstrip (p : ascii -> bool) (s : string) : string :=
  match s with
  | "" => ""
  | String a s' => if p a then lstrip p s' else s
  end.

Fixpoint rstrip (p : ascii -> bool) (s : string) : string :=
  match s with
  | "" => ""
  | String a s' =>
      match rstrip p s' with
      | "" => if p a then "" else String a ""
      | t => String a t
      end
  end.

(** [s.strip()]. *)
Definition strip (s : string) : string := rstrip is_space (lstrip is_space s).

Fixpoint last (s : string) : option ascii :=
  match s with
  | "" => None
  | String a "" => Some a
  | String _ s' => last s'
  end.

(** [s.endswith(c)] for a one-character [c]. *)
Definition endswith (s : string) (c : ascii) : bool :=
  match last s with
  | Some a => Ascii.eqb a c
  | None => false
  end.

(** [s.startswith(c)] for a one-character [c]. *)
Definition startswith (s : string) (c : ascii) : bool :=
  match s with
  | String a _ => Ascii.eqb a c
  | "" => false
  end.

(** [s[:-1]]. *)
Fixpoint init (s : string) : string :=
  match s with
  | "" => ""
  | String a "" => ""
  | String a s' => String a (init s')
  end.

Fixpoint drop (n : nat) (s : string) : string :=
  match n, s with
  | O, _ => s
  | S n', String _ s' => drop n' s'
  | S _, "" => ""
  end.

Fixpoint take (n : nat) (s : string) : string :=
  match n, s with
  | S n', String a s' => String a (take n' s')
  | _, _ => ""
  end.

(** [s[i:j]] for [0 <= i <= j]. *)
Definition slice (i j : nat) (s : string) : string := take (j - i) (drop i s).

(** [s[i]], when in range. *)
Definition nth (i : nat) (s : string) : option ascii :=
  match drop i s with
  | String a _ => Some a
  | "" => None
  end.

Fixpoint all (p : ascii -> bool) (s : string) : bool :=
  match s with
  | "" => true
  | String a s' => p a && all p s'
  end.

Fixpoint repeat (a : ascii) (n : nat) : string :=
  match n with
  | O => ""
  | S n' => String a (repeat a n')
  end.

Definition digit_val (a : ascii) : Z := Z.of_nat (code a - 48).

Fixpoint digits_val (acc : Z) (s : string) : Z :=
  match s with
  | "" => acc
  | String a s' => digits_val (10 * acc + digit_val a)%Z s'
  end.

(** [int(s)] on the slices that reach it here: surrounding white space is
    dropped, a non-empty run of digits converts, anything else (an empty
    string, a colon) raises ValueError. Signs and underscores, which
    [int] also reads, never occur in these slices. *)
Definition int (s : string) : res Z :=
  let t := rstrip is_int_space (lstrip is_int_space s) in
  if negb (String.eqb t "") && all is_digit t
  then Ret (digits_val 0 t) else Raise ValueError.

End Str.

(** ** Regular expressions, as [re.match] runs them

    [datetime.strptime] turns its format into a regular expression and
    calls [match] on it. The matcher below is the backtracking one: an
    alternation tries its branches from left to right, an optional part is
    taken when it can be (greedy), and the first way to reach the end of
    the expression wins, whether or not the whole subject is consumed. *)
Module Re.

Inductive re :=
| Eps                        (* the empty expression *)
| Lit (a : ascii)            (* one character, case as written *)
| LitI (a : ascii)           (* one letter, under IGNORECASE *)
| Rng (lo hi : ascii)        (* [lo-hi] *)
| Dig                        (* \d *)
| Seq (r1 r2 : re)
| Alt (r1 r2 : re)           (* r1|r2 *)
| Opt (r : re)               (* (r)? *)
| Grp (name : string) (r : re). (* (?P<name>r) *)

(** The group dictionary of a match. *)
Definition groups := list (string * string).

Fixpoint group (g : groups) (name : string) : option string :=
  match g with
  | [] => None
  | (n, v) :: g' => if String.eqb n name then Some v else group g' name
  end.

Definition char_i (a b : ascii) : bool :=
  Ascii.eqb (Str.upper_char a) (Str.upper_char b).

Definition orelse {R} (x y : option R) : option R :=
  match x with
  | Some v => Some v
  | None => y
  end.

Definition one {R} (p : ascii -> bool) (s acc : string) (g : groups)
    (k : string -> string -> groups -> option R) : option R :=
  match s with
  | String a s' => if p a then k s' (acc +:+ String a "") g else None
  | "" => None
  end.

(** [run r s acc g k]: match [r] at the head of [s]; [acc] is the text
    consumed so far inside the enclosing group, [g] the groups closed so
    far, [k] what remains to be matched after [r]. *)
Fixpoint run {R} (r : re) (s acc : string) (g : groups)
    (k : string -> string -> groups -> option R) : option R :=
  match r with
  | Eps => k s acc g
  | Lit a => one (Ascii.eqb a) s acc g k
  | LitI a => one (char_i a) s acc g k
  | Rng lo hi => one (Str.in_range lo hi) s acc g k
  | Dig => one Str.is_digit s acc g k
  | Seq r1 r2 => run r1 s acc g (fun s' acc' g' => run r2 s' acc' g' k)
  | Alt r1 r2 => orelse (run r1 s acc g k) (run r2 s acc g k)
  | Opt r1 => orelse (run r1 s acc g k) (k s acc g)
  | Grp name r1 =>
      run r1 s "" g (fun s' acc' g' => k s' (acc +:+ acc') ((name, acc') :: g'))
  end.

(** [re.match(r, s)]: the unconsumed rest of [s] and the groups. *)
Definition rmatch (r : re) (s : string) : option (string * groups) :=
  run r s "" [] (fun s' _ g => Some (s', g)).

(** [r{1,n+1}], greedy. *)
Fixpoint upto (n : nat) (r : re) : re :=
  match n with
  | O => r
  | S n' => Seq r (Opt (upto n' r))
  end.

(** The language of an expression: the texts it can match in full,
    whichever branch is taken. *)
Fixpoint lang (r : re) (t : string) : Prop :=
  match r with
  | Eps => t = ""
  | Lit a => t = String a ""
  | LitI a => exists b, char_i a b = true /\ t = String b ""
  | Rng lo hi => exists b, Str.in_range lo hi b = true /\ t = String b ""
  | Dig => exists b, Str.is_digit b = true /\ t = String b ""
  | Seq r1 r2 => exists t1 t2, t = t1 +:+ t2 /\ lang r1 t1 /\ lang r2 t2
  | Alt r1 r2 => lang r1 t \/ lang r2 t
  | Opt r1 => lang r1 t \/ t = ""
  | Grp _ r1 => lang r1 t
  end.

(** The texts a group named [n] of [r] can hold. *)
Fixpoint group_lang (r : re) (n v : string) : Prop :=
  match r with
  | Seq r1 r2 | Alt r1 r2 => group_lang r1 n v \/ group_lang r2 n v
  | Opt r1 => group_lang r1 n v
  | Grp m r1 => (m = n /\ lang r1 v) \/ group_lang r1 n v
  | _ => False
  end.

(** The groups that every match of [r] sets. *)
Fixpoint must (r : re) : list string :=
  match r with
  | Seq r1 r2 => must r1 ++ must r2
  | Grp m r1 => m :: must r1
  | _ => []
  end.

(** The groups [new] that a match of [r] has added. *)
Definition groups_ok (r : re) (new : groups) : Prop :=
  Forall (fun p => group_lang r p.1 p.2) new
  /\ (forall n, In n (must r) -> In n (map fst new)).

End Re.

(** ** The [datetime] module *)
Module Datetime.

Local Open Scope Z_scope.

(** A [datetime] object. [tzinfo] is [None] for a naive object and
    otherwise the UTC offset of its fixed-offset [timezone], in
    microseconds. *)
Record datetime := mk_datetime {
  year : Z; month : Z; day : Z;
  hour : Z; minute : Z; second : Z; microsecond : Z;
  tzinfo : option Z
}.

Definition is_leap (y : Z) : bool :=
  (y mod 4 =? 0) && (negb (y mod 100 =? 0) || (y mod 400 =? 0)).

Definition DAYS_IN_MONTH : list Z :=
  [31; 28; 31; 30; 31; 30; 31; 31; 30; 31; 30; 31].

Definition DAYS_BEFORE_MONTH : list Z :=
  [0; 31; 59; 90; 120; 151; 181; 212; 243; 273; 304; 334].

(** The tables are indexed by the month, from 1. *)
Definition table (t : list Z) (m : Z) : Z :=
  nth (Z.to_nat (m - 1)) t 0.

Definition days_in_month (y m : Z) : Z :=
  if (m =? 2) && is_leap y then 29 else table DAYS_IN_MONTH m.

Definition days_before_year (y : Z) : Z :=
  let p := y - 1 in p * 365 + p / 4 - p / 100 + p / 400.

Definition days_before_month (y m : Z) : Z :=
  table DAYS_BEFORE_MONTH m + (if (2 <? m) && is_leap y then 1 else 0).

(** The proleptic Gregorian ordinal of a date; 1 is 0001-01-01. *)
Definition ymd2ord (y m d : Z) : Z :=
  days_before_year y + days_before_month y m + d.

Definition check_date_fields (y m d : Z) : bool :=
  (1 <=? y) && (y <=? 9999) && (1 <=? m) && (m <=? 12)
  && (1 <=? d) && (d <=? days_in_month y m).

Definition check_time_fields (h mi s us : Z) : bool :=
  (0 <=? h) && (h <=? 23) && (0 <=? mi) && (mi <=? 59)
  && (0 <=? s) && (s <=? 59) && (0 <=? us) && (us <=? 999999).

Definition day_us : Z := 86400 * 1000000.

(** [timezone(timedelta(microseconds=off))]: the offset must lie strictly
    between minus and plus 24 hours. *)
Definition timezone (off : Z) : res Z :=
  if (- day_us <? off) && (off <? day_us) then Ret off else Raise ValueError.

(** [timezone.utc]. *)
Definition utc : Z := 0.

(** [datetime(y, m, d, h, mi, s, us, tz)]. *)
Definition new (y m d h mi s us : Z) (tz : option Z) : res datetime :=
  if check_date_fields y m d && check_time_fields h mi s us
  then Ret (mk_datetime y m d h mi s us tz) else Raise ValueError.

(** [dt.replace(tzinfo=tz)]. *)
Definition replace_tzinfo (dt : datetime) (tz : Z) : datetime :=
  mk_datetime (year dt) (month dt) (day dt) (hour dt) (minute dt) (second dt)
    (microsecond dt) (Some tz).

(** Microseconds from 0001-01-01T00:00:00 to the wall-clock reading. *)
Definition local_us (dt : datetime) : Z :=
  ((ymd2ord (year dt) (month dt) (day dt) - 1) * 86400
   + hour dt * 3600 + minute dt * 60 + second dt) * 1000000
  + microsecond dt.

(** The instant of an aware object: wall clock minus UTC offset. *)
Definition instant (dt : datetime) : Z :=
  local_us dt - default 0 (tzinfo dt).

(** [a < b]: two aware objects compare by their instants, two naive ones
    by their wall clocks; mixing them raises TypeError. *)
Definition lt (a b : datetime) : res bool :=
  match tzinfo a, tzinfo b with
  | Some _, Some _ => Ret (instant a <? instant b)
  | None, None => Ret (local_us a <? local_us b)
  | _, _ => Raise TypeError
  end.

End Datetime.

(** ** [datetime.strptime], after CPython's [_strptime] module *)
Module Strptime.

Import Re.
Local Open Scope Z_scope.

(** The expression of the directive z:
    [+-]\d\d:?[0-5]\d(:?[0-5]\d(\.\d{1,6})?)?|(?-i:Z) *)
Definition re_z : re :=
  Alt (Seq (Alt (Lit "+") (Lit "-")) (Seq Dig (Seq Dig
        (Seq (Opt (Lit ":")) (Seq (Rng "0" "5") (Seq Dig
        (Opt (Seq (Opt (Lit ":")) (Seq (Rng "0" "5") (Seq Dig
             (Opt (Seq (Lit ".") (upto 5 Dig)))))))))))))
      (Lit "Z").

(** The regular expression of a directive ([TimeRE.__init__]). *)
Definition directive (c : ascii) : option re :=
  if Ascii.eqb c "Y" then
    (* (?P<Y>\d\d\d\d) *)
    Some (Grp "Y" (Seq Dig (Seq Dig (Seq Dig Dig))))
  else if Ascii.eqb c "m" then
    (* (?P<m>1[0-2]|0[1-9]|[1-9]) *)
    Some (Grp "m" (Alt (Seq (Lit "1") (Rng "0" "2"))
                  (Alt (Seq (Lit "0") (Rng "1" "9")) (Rng "1" "9"))))
  else if Ascii.eqb c "d" then
    (* (?P<d>3[0-1]|[1-2]\d|0[1-9]|[1-9]| [1-9]) *)
    Some (Grp "d" (Alt (Seq (Lit "3") (Rng "0" "1"))
                  (Alt (Seq (Rng "1" "2") Dig)
                  (Alt (Seq (Lit "0") (Rng "1" "9"))
                  (Alt (Rng "1" "9") (Seq (Lit " ") (Rng "1" "9")))))))
  else if Ascii.eqb c "H" then
    (* (?P<H>2[0-3]|[0-1]\d|\d) *)
    Some (Grp "H" (Alt (Seq (Lit "2") (Rng "0" "3"))
                  (Alt (Seq (Rng "0" "1") Dig) Dig)))
  else if Ascii.eqb c "M" then
    (* (?P<M>[0-5]\d|\d) *)
    Some (Grp "M" (Alt (Seq (Rng "0" "5") Dig) Dig))
  else if Ascii.eqb c "S" then
    (* (?P<S>6[0-1]|[0-5]\d|\d) *)
    Some (Grp "S" (Alt (Seq (Lit "6") (Rng "0" "1"))
                  (Alt (Seq (Rng "0" "5") Dig) Dig)))
  else if Ascii.eqb c "f" then
    (* (?P<f>[0-9]{1,6}) *)
    Some (Grp "f" (upto 5 (Rng "0" "9")))
  else if Ascii.eqb c "z" then
    (* (?P<z>...) *)
    Some (Grp "z" re_z)
  else None.

(** [TimeRE.pattern]: a directive is replaced by its expression, any
    other character stands for itself (under IGNORECASE). The formats of
    the script hold no white space and, escaping done, no character that
    is special in a regular expression. *)
Fixpoint pattern (fmt : string) : option re :=
  match fmt with
  | "" => Some Eps
  | String "%" "" => None
  | String "%" (String c fmt') =>
      match directive c, pattern fmt' with
      | Some r, Some p => Some (Seq r p)
      | _, _ => None
      end
  | String a fmt' =>
      match pattern fmt' with
      | Some p => Some (Seq (LitI a) p)
      | None => None
      end
  end.

(** [int(found_dict[name])] when the format has the directive. *)
Definition field (g : groups) (name : string) (dflt : Z) : res Z :=
  match group g name with
  | Some t => Str.int t
  | None => Ret dflt
  end.

(** The fraction of [%f]: the digits, padded with zeros to six. *)
Definition fraction (g : groups) : res Z :=
  match group g "f" with
  | Some t => Str.int (t +:+ Str.repeat "0" (6 - String.length t))
  | None => Ret 0
  end.

Definition index (s : string) (i : nat) : res ascii :=
  match Str.nth i s with
  | Some a => Ret a
  | None => Raise IndexError
  end.

(** The branch of [_strptime] for the group z, first part: the colons are
    taken out of the text. *)
Definition without_colons (z : string) : res string :=
  do! c3 <- index z 3;
  if Ascii.eqb c3 ":" then
    let z' := Str.take 3 z +:+ Str.drop 4 z in
    if (5 <? String.length z')%nat then
      do! c5 <- index z' 5;
      if negb (Ascii.eqb c5 ":") then Raise ValueError
      else Ret (Str.take 5 z' +:+ Str.drop 6 z')
    else Ret z'
  else Ret z.

(** Second part: the offset in seconds and its fraction in microseconds. *)
Definition offset_fields (z : string) : res (Z * Z) :=
  do! hours <- Str.int (Str.slice 1 3 z);
  do! minutes <- Str.int (Str.slice 3 5 z);
  do! seconds <-
    (let t := Str.slice 5 7 z in
     if String.eqb t "" then Ret 0 else Str.int t);
  let gmtoff := hours * 60 * 60 + minutes * 60 + seconds in
  let remainder := Str.drop 8 z in
  let padding := Str.repeat "0" (6 - String.length remainder) in
  do! gmtoff_fraction <- Str.int (remainder +:+ padding);
  if Str.startswith z "-" then Ret (- gmtoff, - gmtoff_fraction)
  else Ret (gmtoff, gmtoff_fraction).

Definition gmtoff_of (z : string) : res (Z * Z) :=
  if String.eqb z "Z" then Ret (0, 0)
  else
    do! z1 <- without_colons z;
    offset_fields z1.

(** The offset read in the loop over the groups: [None] when the format
    has no directive z. *)
Definition gmtoff_part (g : groups) : res (option (Z * Z)) :=
  match group g "z" with
  | None => Ret None
  | Some z => do! off <- gmtoff_of z; Ret (Some off)
  end.

(** [_strptime_datetime]: the time zone made of the offset. *)
Definition tzinfo_of (gmtoff : option (Z * Z)) : res (option Z) :=
  match gmtoff with
  | None => Ret None
  | Some off =>
      do! tz <- Datetime.timezone (fst off * 1000000 + snd off);
      Ret (Some tz)
  end.

(** [datetime.strptime(data_string, format)]: the match, the loop over
    the groups, the date checked by [datetime_date(year, month, day)], and
    the object built by [_strptime_datetime]. *)
Definition strptime (data_string format : string) : res Datetime.datetime :=
  match pattern format with
  | None => Raise ValueError
  | Some format_regex =>
      match rmatch format_regex data_string with
      | None => Raise ValueError
      | Some (rest, found_dict) =>
          if negb (String.eqb rest "") then Raise ValueError
          else
            do! year <- field found_dict "Y" 1900;
            do! month <- field found_dict "m" 1;
            do! day <- field found_dict "d" 1;
            do! hour <- field found_dict "H" 0;
            do! minute <- field found_dict "M" 0;
            do! second <- field found_dict "S" 0;
            do! fraction <- fraction found_dict;
            do! gmtoff <- gmtoff_part found_dict;
            if negb (Datetime.check_date_fields year month day)
            then Raise ValueError
            else
              do! tz <- tzinfo_of gmtoff;
              Datetime.new year month day hour minute second fraction tz
      end
  end.

(** The expressions of the three formats of the script. *)
Definition re_S : re :=
  Eval vm_compute in default Eps (pattern "%Y-%m-%dT%H:%M:%S").
Definition re_Sz : re :=
  Eval vm_compute in default Eps (pattern "%Y-%m-%dT%H:%M:%S%z").
Definition re_Sf : re :=
  Eval vm_compute in default Eps (pattern "%Y-%m-%dT%H:%M:%S.%f").

End Strptime.

(** ** [parse_waiver_datetime] (lines 58-74) *)

(** [try: body except ValueError: handler]. *)
Definition try_except_ValueError {A} (body : res A) (handler : res A) : res A :=
  match body with
  | Raise ValueError => handler
  | r => r
  end.

(** Lines 62-67, the body of the outer [try]. *)
Definition first_attempt (s : string) : res (option Datetime.datetime) :=
  if Str.endswith s "Z" then
    do! dt_naive <- Strptime.strptime (Str.init s) "%Y-%m-%dT%H:%M:%S";
    Ret (Some (Datetime.replace_tzinfo dt_naive Datetime.utc))
  else
    do! dt_with_offset <- Strptime.strptime s "%Y-%m-%dT%H:%M:%S%z";
    Ret (Some dt_with_offset).

(** Lines 70-73, the body of the inner [try]. *)
Definition second_attempt (s : string) : res (option Datetime.datetime) :=
  if Str.endswith s "Z" then
    do! dt_naive <- Strptime.strptime (Str.init s) "%Y-%m-%dT%H:%M:%S.%f";
    Ret (Some (Datetime.replace_tzinfo dt_naive Datetime.utc))
  else Ret None.

Definition parse_waiver_datetime (datetime_str : pyval)
    : res (option Datetime.datetime) :=
  if pd_isna datetime_str || negb (is_str datetime_str) then Ret None
  else
    match datetime_str with
    | PStr s =>
        try_except_ValueError (first_attempt s)
          (try_except_ValueError (second_attempt s) (Ret None))
    | _ => Ret None
    end.

(** *** The function on a list *)

(** The script hands the function a string (line 143). Handed a list, the
    function gets no further than line 60: [pd.isna] answers a list with
    an array, one truth value for each item, and [or] asks the array for
    its truth value. An array of one item has the truth value of the item;
    an array of more raises ValueError (the truth value of an array with
    more than one element is ambiguous). *)
Definition array_truth (first : bool) (others : list bool) : res bool :=
  match others with
  | [] => Ret first
  | _ :: _ => Raise ValueError
  end.

(** Line 60 on the list of [item] and [items]. The test stands before the
    [try] of line 61, so nothing catches what it raises; and a list is no
    string, so the test holds whenever the array has a truth value. *)
Definition parse_waiver_datetime_list (item : pyval) (items : list pyval)
    : res (option Datetime.datetime) :=
  do! na <- array_truth (pd_isna item) (map pd_isna items);
  if na || negb false then Ret None else Ret None.

(** ** [make_api_request] (lines 32-55) *)

(** A decoded JSON document, as [response.json()] returns it. A number
    with a fraction or an exponent decodes to a float, whose truth value is
    again "not zero"; [JInt] stands for both. *)
Inductive jval :=
| JNull
| JBool (b : bool)
| JInt (z : Z)
| JStr (s : string)
| JList (l : list jval)
| JDict (l : list (string * jval)).

(** The classes of [requests.exceptions] that the call, [raise_for_status]
    and [json] raise ([json] raises the JSONDecodeError of requests, as
    it does from version 2.27 on). *)
Inductive req_exn :=
| ReadTimeout
| ConnectTimeout
| ConnectionError
| HTTPError
| JSONDecodeError
| TooManyRedirects.

(** Exceptions that [response.json()] raises and that are no
    RequestException. [json] hands the body to the decoder of the standard
    library and turns only the decoder's JSONDecodeError into the one of
    requests; the decoder also raises RecursionError, on a document nested
    too deep, and a plain ValueError, on an integer of more than 4300
    digits. *)
Inductive decoder_exn :=
| RecursionError
| DecoderValueError.

(** What can leave the [try] block of [make_api_request]. *)
Inductive raised :=
| ByRequests (e : req_exn)
| ByDecoder (e : decoder_exn).

(** [isinstance(e, requests.exceptions.Timeout)] and so on: ConnectTimeout
    derives from both ConnectionError and Timeout, JSONDecodeError from
    InvalidJSONError, and every class of requests from RequestException.
    The exceptions of the decoder are instances of none of them. *)
Definition is_Timeout (e : raised) : bool :=
  match e with
  | ByRequests (ReadTimeout | ConnectTimeout) => true
  | _ => false
  end.
Definition is_ConnectionError (e : raised) : bool :=
  match e with
  | ByRequests (ConnectionError | ConnectTimeout) => true
  | _ => false
  end.
Definition is_HTTPError (e : raised) : bool :=
  match e with ByRequests HTTPError => true | _ => false end.
Definition is_RequestException (e : raised) : bool :=
  match e with ByRequests _ => true | ByDecoder _ => false end.
Definition is_JSONDecodeError (e : raised) : bool :=
  match e with ByRequests JSONDecodeError => true | _ => false end.

(** An HTTP response: the status, the body as text, and what
    [response.json()] makes of the body ([None]: it raises
    JSONDecodeError). *)
Record response := mk_response {
  status_code : Z;
  text : string;
  json : option jval
}.

(** What becomes of a request: [requests.request] returns a response or
    raises; and a response may carry a body on which [response.json()]
    raises an exception of the decoder ([Undecodable]; its [json] field is
    then not looked at). *)
Inductive reply :=
| Responded (r : response)
| Failed (e : req_exn)
| Undecodable (r : response) (e : decoder_exn).

(** What [make_api_request] returns: [True], a decoded document (the
    literal [[]] of line 39 is [JList []]) or [None]. *)
Inductive api_result :=
| ATrue
| AJson (v : jval)
| ANone.

Definition jval_truthy (v : jval) : bool :=
  match v with
  | JNull => false
  | JBool b => b
  | JInt z => negb (z =? 0)%Z
  | JStr s => negb (String.eqb s "")
  | JList l => match l with [] => false | _ => true end
  | JDict l => match l with [] => false | _ => true end
  end.

(** [bool(result)], the test of line 204. *)
Definition api_truthy (r : api_result) : bool :=
  match r with
  | ATrue => true
  | AJson v => jval_truthy v
  | ANone => false
  end.

(** ** The trace of the run: prints, the prompt and the requests *)
Record waiver := mk_waiver {
  w_id : pyval;
  w_scope_type : pyval;
  w_scope_id : pyval;
  w_expiration : pyval;
  w_component : pyval
}.

Inductive event :=
| EWarnUnparseable (raw id : pyval)        (* line 145, stderr *)
| EMarked (id raw : pyval)                 (* line 148 *)
| ENoExpired                               (* line 163 *)
| EFound (n : nat)                         (* line 165 *)
| EListed (w : waiver)                     (* lines 168-172 *)
| EPrompt                                  (* line 178, input() *)
| EProceeding                              (* line 181 *)
| EUnknownScope (scope id : pyval)         (* line 192, stderr *)
| EMissingScopeId (id : pyval)             (* line 196, stderr *)
| EAttempt (endpoint : string)             (* line 201 *)
| ERequest (method url : string)           (* line 36, the HTTP call *)
| EErrTimeout (url : string)               (* line 42, stderr *)
| EErrConnect (url : string)               (* line 45, stderr *)
| EErrHTTP (status : Z) (method url : string) (* line 48, stderr *)
| EErrUnexpected (url : string)            (* line 51, stderr *)
| EErrJSON (method url : string)           (* line 54, stderr *)
| EDeleted (id : pyval)                    (* line 205 *)
| EFailed (id : pyval)                     (* line 208 *)
| EComplete (deleted failed : nat)         (* line 212 *)
| ECancelled.                              (* line 214 *)

Definition IQ_SERVER_URL : string := "http://localhost:8070".
Definition API_BASE : string := IQ_SERVER_URL +:+ "/api/v2".

(** [response.json()], line 40: the document, or the exception raised. *)
Definition response_json (rp : reply) : jval + raised :=
  match rp with
  | Responded response =>
      match json response with
      | Some v => inl v
      | None => inr (ByRequests JSONDecodeError)
      end
  | Undecodable _ e => inr (ByDecoder e)
  | Failed e => inr (ByRequests e)
  end.

(** The body of the [try] block, lines 36-40: the value returned or the
    exception raised. [raise_for_status] raises HTTPError on a status from
    400 to 599. *)
Definition try_body (method : string) (rp : reply) : api_result + raised :=
  match rp with
  | Failed e => inr (ByRequests e)
  | Responded response | Undecodable response _ =>
      if (400 <=? status_code response)%Z && (status_code response <? 600)%Z
      then inr (ByRequests HTTPError)
      else if (status_code response =? 204)%Z && String.eqb method "DELETE"
      then inl ATrue
      else if (status_code response =? 200)%Z && String.eqb (text response) ""
      then inl (AJson (JList []))
      else match response_json rp with
           | inl v => inl (AJson v)
           | inr e => inr e
           end
  end.

(** The [except] clauses, lines 41-55, tried in the order written. The
    clause for RequestException comes before the one for JSONDecodeError.
    An exception that is an instance of none of the five classes is not
    caught ([None]). *)
Definition handlers (method url : string) (rp : reply) (e : raised)
    : option event :=
  if is_Timeout e then Some (EErrTimeout url)
  else if is_ConnectionError e then Some (EErrConnect url)
  else if is_HTTPError e then
    Some (EErrHTTP (match rp with
                    | Responded r | Undecodable r _ => status_code r
                    | Failed _ => 0%Z
                    end)
            method url)
  else if is_RequestException e then Some (EErrUnexpected url)
  else if is_JSONDecodeError e then Some (EErrJSON method url)
  else None.

(** [make_api_request(method, endpoint, auth)], given what becomes of the
    request: the value returned and the events, or the events and the
    exception that no clause caught and that leaves the function. *)
Definition make_api_request (method endpoint : string) (rp : reply)
    : (api_result * list event) + (list event * raised) :=
  let url := API_BASE +:+ "/" +:+ endpoint in
  match try_body method rp with
  | inl v => inl (v, [ERequest method url])
  | inr e =>
      match handlers method url rp e with
      | Some ev => inl (ANone, [ERequest method url; ev])
      | None => inr ([ERequest method url], e)
      end
  end.

(** ** [__main__], from the loaded data frame on (lines 129-216)

    Finding and reading the CSV file and checking its columns come before;
    they are modelled further down ([start_of]). The inputs of the run are
    the rows of the data frame, the clock, what [input] gives at the prompt
    (the line typed, or nothing when the input is at its end), and the
    server: what becomes of the [n]-th request of the run, sent to a given
    URL.

    The trace holds the lines of output that depend on the data, the prompt
    and the requests. The lines that are the same in every run are left
    out: the banners and rules and the closing line 216. *)
Record row := mk_row {
  waiver_id : pyval;         (* row['Waiver Id'] *)
  expiration_date : pyval;   (* row['Expiration Date'] *)
  scope_type : pyval;        (* row['Scope Type'] *)
  scope_id : pyval;          (* row['Scope Id'] *)
  component_name : option pyval (* 'Component Name', an optional column *)
}.

(** An exception that nothing catches ends the script: one of the first
    loop, one that leaves [make_api_request] at line 202, or the EOFError
    of [input] at line 178. *)
Inductive crash :=
| CrashPy (e : exn)
| CrashReq (e : raised)
| CrashInput.

Definition server := nat -> string -> reply.

(** [datetime.now(timezone.utc)]: the clock reading, made aware. *)
Definition now_utc (clock : Datetime.datetime) : Datetime.datetime :=
  Datetime.replace_tzinfo clock Datetime.utc.

(** The state of the first loop: the list being built and the trace. *)
Record scan := mk_scan {
  expired_waivers_to_delete : list waiver;
  scan_trace : list event
}.

(** One turn of the loop of lines 139-155. *)
Definition scan_row (current_utc_time : Datetime.datetime) (st : scan) (r : row)
    : res scan :=
  let expiry_date_str := expiration_date r in
  let waiver_id := waiver_id r in
  if pd_isna expiry_date_str then Ret st
  else
    do! expiry_time <- parse_waiver_datetime (PStr (py_str expiry_date_str));
    match expiry_time with
    | None =>
        Ret (mk_scan (expired_waivers_to_delete st)
               (scan_trace st ++ [EWarnUnparseable expiry_date_str waiver_id]))
    | Some expiry_time =>
        do! before <- Datetime.lt expiry_time current_utc_time;
        if before : bool then
          Ret (mk_scan
                 (expired_waivers_to_delete st ++
                    [mk_waiver waiver_id (scope_type r) (scope_id r)
                       expiry_date_str
                       (default (PStr "N/A") (component_name r))])
                 (scan_trace st ++ [EMarked waiver_id expiry_date_str]))
        else Ret st
    end.

(** The loop: the rows in order, stopping at an exception. *)
Fixpoint scan_rows (current_utc_time : Datetime.datetime) (st : scan)
    (rows : list row) : res scan :=
  match rows with
  | [] => Ret st
  | r :: rows' =>
      do! st' <- scan_row current_utc_time st r;
      scan_rows current_utc_time st' rows'
  end.

(** The state of the deletion loop: the two counters and the trace. *)
Record tally := mk_tally {
  deleted_count : nat;
  failed_count : nat;
  del_trace : list event
}.

Definition is_request (e : event) : bool :=
  match e with ERequest _ _ => true | _ => false end.

(** The requests sent so far. *)
Definition requests (t : list event) : list event := filter is_request t.

(** One turn of the loop of lines 185-209: the state after the turn, or
    the state at the exception that ends the run. [sent] is the number of
    requests the run has made before this turn. *)
Definition delete_waiver (srv : server) (st : tally) (w : waiver)
    : tally + tally * crash :=
  let waiver_id := w_id w in
  let original_scope_type := w_scope_type w in
  let owner_id := w_scope_id w in
  let delete_scope_type := SCOPE_TYPE_MAP_get original_scope_type in
  match delete_scope_type with
  | None =>
      inl (mk_tally (deleted_count st) (failed_count st + 1)
             (del_trace st ++ [EUnknownScope original_scope_type waiver_id]))
  | Some delete_scope_type =>
      if negb (truthy (PStr delete_scope_type)) then
        inl (mk_tally (deleted_count st) (failed_count st + 1)
               (del_trace st ++ [EUnknownScope original_scope_type waiver_id]))
      else if pd_isna owner_id || negb (truthy owner_id) then
        inl (mk_tally (deleted_count st) (failed_count st + 1)
               (del_trace st ++ [EMissingScopeId waiver_id]))
      else
        let endpoint :=
          "policyWaivers/" +:+ delete_scope_type +:+ "/" +:+ py_str owner_id
          +:+ "/" +:+ py_str waiver_id in
        let sent := length (requests (del_trace st)) in
        match make_api_request "DELETE" endpoint
                (srv sent (API_BASE +:+ "/" +:+ endpoint)) with
        | inr (evs, e) =>
            inr (mk_tally (deleted_count st) (failed_count st)
                   (del_trace st ++ [EAttempt endpoint] ++ evs),
                 CrashReq e)
        | inl (success, evs) =>
            if api_truthy success then
              inl (mk_tally (deleted_count st + 1) (failed_count st)
                     (del_trace st ++ [EAttempt endpoint] ++ evs
                        ++ [EDeleted waiver_id]))
            else
              inl (mk_tally (deleted_count st) (failed_count st + 1)
                     (del_trace st ++ [EAttempt endpoint] ++ evs
                        ++ [EFailed waiver_id]))
        end
  end.

Fixpoint delete_waivers (srv : server) (st : tally) (ws : list waiver)
    : tally + tally * crash :=
  match ws with
  | [] => inl st
  | w :: ws' =>
      match delete_waiver srv st w with
      | inl st' => delete_waivers srv st' ws'
      | inr c => inr c
      end
  end.

(** How a run ends: the trace up to its end, the counters when the
    deletion loop ran to its end (the summary of line 212 is printed then
    and only then), the exception that stopped it. *)
Record outcome := mk_outcome {
  trace : list event;
  counts : option (nat * nat);
  crashed : option crash
}.

(** The test of line 180. *)
Definition confirmed (confirm : string) : bool :=
  String.eqb (Str.upper (Str.strip confirm)) "DELETE".

(** The deletion section, lines 162-214. [typed] is what [input] does at
    line 178: it returns the line typed, or raises EOFError when the input
    is at its end ([None]). *)
Definition deletion_section (srv : server) (typed : option string)
    (expired : list waiver) (t : list event) : outcome :=
  match expired with
  | [] => mk_outcome (t ++ [ENoExpired]) None None
  | _ =>
      let t1 := t ++ [EFound (length expired)] ++ map EListed expired
                  ++ [EPrompt] in
      match typed with
      | None => mk_outcome t1 None (Some CrashInput)
      | Some confirm =>
          if confirmed confirm then
            match delete_waivers srv (mk_tally 0 0 (t1 ++ [EProceeding]))
                    expired with
            | inl st =>
                mk_outcome
                  (del_trace st
                     ++ [EComplete (deleted_count st) (failed_count st)])
                  (Some (deleted_count st, failed_count st)) None
            | inr (st, c) => mk_outcome (del_trace st) None (Some c)
            end
          else mk_outcome (t1 ++ [ECancelled]) None None
      end
  end.

(** The script from line 129 on. *)
Definition main (rows : list row) (clock : Datetime.datetime)
    (typed : option string) (srv : server) : outcome :=
  match scan_rows (now_utc clock) (mk_scan [] []) rows with
  | Raise e => mk_outcome [] None (Some (CrashPy e))
  | Ret st =>
      deletion_section srv typed (expired_waivers_to_delete st) (scan_trace st)
  end.

(** ** Readings of a trace *)

(** The entry an event settles: every turn of the deletion loop that is
    not ended by an exception prints exactly one of these four lines. *)
Definition outcome_of (e : event) : option pyval :=
  match e with
  | EUnknownScope _ id | EMissingScopeId id | EDeleted id | EFailed id => Some id
  | _ => None
  end.

Definition outcomes (t : list event) : list pyval := omap outcome_of t.

Definition is_prompt (e : event) : bool :=
  match e with EPrompt => true | _ => false end.

Definition prompts (t : list event) : list event := filter is_prompt t.

(** * Definitions that the statements use *)
Import Re Strptime.

(** ** The deletion loop *)

(** What one turn of the loop adds to the state. *)
Definition turn_of (w : waiver) (st st' : tally) : Prop :=
  exists new,
    del_trace st' = del_trace st ++ new
    /\ outcomes new = [w_id w]
    /\ prompts new = []
    /\ length (requests new) <= 1
    /\ ((deleted_count st' = deleted_count st + 1
         /\ failed_count st' = failed_count st)
        \/ (deleted_count st' = deleted_count st
            /\ failed_count st' = failed_count st + 1)).

(** What a turn that an exception ends leaves behind: the attempt and the
    request, no outcome line, the counters as they were. *)
Definition aborted_turn (st st' : tally) : Prop :=
  exists new,
    del_trace st' = del_trace st ++ new
    /\ outcomes new = []
    /\ prompts new = []
    /\ length (requests new) = 1
    /\ deleted_count st' = deleted_count st
    /\ failed_count st' = failed_count st.

(** [make_api_request] gets as far as [response.json()] on a response:
    the status is no error (line 37) and lines 38 and 39 do not return. *)
Definition reads_body (method : string) (r : response) : bool :=
  negb ((400 <=? status_code r)%Z && (status_code r <? 600)%Z)
  && negb ((status_code r =? 204)%Z && String.eqb method "DELETE")
  && negb ((status_code r =? 200)%Z && String.eqb (text r) "").

(** The exception of the decoder that leaves the [try] block, if any. *)
Definition decoder_raises (method : string) (rp : reply)
    : option decoder_exn :=
  match try_body method rp with
  | inr (ByDecoder e) => Some e
  | _ => None
  end.

(** The endpoint of line 200. *)
Definition endpoint_of (tok : string) (w : waiver) : string :=
  "policyWaivers/" +:+ tok +:+ "/" +:+ py_str (w_scope_id w) +:+ "/"
  +:+ py_str (w_id w).

(** The URL that the request of a turn goes to. *)
Definition url_of (tok : string) (w : waiver) : string :=
  API_BASE +:+ "/" +:+ endpoint_of tok w.

(** The state after a turn that sends no request. *)
Definition skipped (st : tally) (e : event) : tally :=
  mk_tally (deleted_count st) (failed_count st + 1) (del_trace st ++ [e]).

(** The diagnostic that [make_api_request] prints for an exception. *)
Definition diagnostic (url : string) (e : req_exn) : event :=
  match e with
  | ReadTimeout | ConnectTimeout => EErrTimeout url
  | ConnectionError => EErrConnect url
  | HTTPError => EErrHTTP 0 "DELETE" url
  | JSONDecodeError | TooManyRedirects => EErrUnexpected url
  end.

(** ** The confirmation word *)



(** ** Profiles of time stamps *)

(** The strings that [strptime] can read under the three formats: before a
    final Z a text of the first or of the third format, and without a
    final Z a text of the second. In these languages a month, day, hour,
    minute or second has one or two digits, the T may be lower case, the
    fraction has one to six digits, and the offset is [+-]HH[:]MM with
    optional seconds and fraction. *)
Definition readable (s : string) : Prop :=
  (exists t, s = t +:+ "Z" /\ (Re.lang re_S t \/ Re.lang re_Sf t))
  \/ (Str.endswith s "Z" = false /\ Re.lang re_Sz s).

(** A call returns. *)
Definition returns {A} (r : res A) : bool :=
  match r with
  | Ret _ => true
  | Raise _ => false
  end.

(** [strptime] reads [s] under a format that the function tries for it:
    the text before a final Z under the first or under the third format
    (lines 63 and 71), a string without a final Z under the second (line
    66). Not every readable string is read: the fields must also make a
    date and a time of day. *)
Definition can_read (s : string) : bool :=
  if Str.endswith s "Z" then
    returns (Strptime.strptime (Str.init s) "%Y-%m-%dT%H:%M:%S")
    || returns (Strptime.strptime (Str.init s) "%Y-%m-%dT%H:%M:%S.%f")
  else returns (Strptime.strptime s "%Y-%m-%dT%H:%M:%S%z").

(** The three profiles as the specification writes them, each a mask: a d
    stands for a digit, an s for a sign, any other character for itself.
    The fraction may have from one to six digits. *)
Fixpoint fits (mask s : string) : bool :=
  match mask, s with
  | "", "" => true
  | String m mask', String a s' =>
      (if Ascii.eqb m "d" then Str.is_digit a
       else if Ascii.eqb m "s" then Ascii.eqb a "+" || Ascii.eqb a "-"
       else Ascii.eqb m a)
      && fits mask' s'
  | _, _ => false
  end.

(** The masks of the three profiles. *)
Definition spec_profiles : list string :=
  ["dddd-dd-ddTdd:dd:ddZ";
   "dddd-dd-ddTdd:dd:dd.dZ"; "dddd-dd-ddTdd:dd:dd.ddZ";
   "dddd-dd-ddTdd:dd:dd.dddZ"; "dddd-dd-ddTdd:dd:dd.ddddZ";
   "dddd-dd-ddTdd:dd:dd.dddddZ"; "dddd-dd-ddTdd:dd:dd.ddddddZ";
   "dddd-dd-ddTdd:dd:ddsdd:dd"].

(** A string fits one of the profiles of the specification. *)
Definition in_spec_profile (s : string) : bool :=
  existsb (fun mask => fits mask s) spec_profiles.

(** ** Kinds of rows *)

(** The entry appended for a marked row (lines 149-155). *)
Definition entry_of (r : row) : waiver :=
  mk_waiver (waiver_id r) (scope_type r) (scope_id r) (expiration_date r)
    (default (PStr "N/A") (component_name r)).

(** Where a row ends up. *)
Inductive verdict := Expired | Unparseable | Excluded.

#[global] Instance verdict_eq_dec : EqDecision verdict.
Proof. solve_decision. Defined.

(** The kind of a row, by the tests of lines 142, 144 and 147. *)
Definition verdict_of (now : Datetime.datetime) (r : row) : verdict :=
  if pd_isna (expiration_date r) then Excluded
  else
    match parse_waiver_datetime (PStr (py_str (expiration_date r))) with
    | Ret (Some t) =>
        if (Datetime.instant t <? Datetime.instant now)%Z then Expired
        else Excluded
    | _ => Unparseable
    end.

(** What the loop prints for a row. *)
Definition row_event (now : Datetime.datetime) (r : row) : option event :=
  match verdict_of now r with
  | Expired => Some (EMarked (waiver_id r) (expiration_date r))
  | Unparseable => Some (EWarnUnparseable (expiration_date r) (waiver_id r))
  | Excluded => None
  end.

(** The rows reported as skipped: id and raw string, from the warnings. *)
Definition skipped_unparseable (t : list event) : list (pyval * pyval) :=
  omap (fun e => match e with
                 | EWarnUnparseable raw id => Some (id, raw)
                 | _ => None
                 end) t.

(** The state after a row was marked. *)
Definition marked (st : scan) (r : row) : scan :=
  mk_scan (expired_waivers_to_delete st ++ [entry_of r])
    (scan_trace st ++ [EMarked (waiver_id r) (expiration_date r)]).

(** The state after the warning for an unreadable date. *)
Definition warned (st : scan) (r : row) : scan :=
  mk_scan (expired_waivers_to_delete st)
    (scan_trace st ++ [EWarnUnparseable (expiration_date r) (waiver_id r)]).

(** The rows of one kind, in the order of the input. *)
Definition rows_of (now : Datetime.datetime) (v : verdict) (rows : list row)
    : list row :=
  filter (fun r => verdict_of now r = v) rows.

(** ** The reference encoder of the three profiles *)

(** The character of a decimal digit. *)
Definition digit (d : Z) : ascii := ascii_of_nat (48 + Z.to_nat d).

(** A number in two, four and six digits, with leading zeros. *)
Definition pad2 (n : Z) : string :=
  String (digit (n / 10)) (String (digit (n mod 10)) "").

Definition pad4 (n : Z) : string :=
  String (digit (n / 1000)) (String (digit (n / 100 mod 10))
    (String (digit (n / 10 mod 10)) (String (digit (n mod 10)) ""))).

Definition pad6 (n : Z) : string :=
  String (digit (n / 100000)) (String (digit (n / 10000 mod 10))
    (String (digit (n / 1000 mod 10)) (String (digit (n / 100 mod 10))
      (String (digit (n / 10 mod 10)) (String (digit (n mod 10)) ""))))).

(** YYYY-MM-DDTHH:MM:SS *)
Definition iso (y m d h mi s : Z) : string :=
  pad4 y +:+ "-" +:+ pad2 m +:+ "-" +:+ pad2 d +:+ "T" +:+ pad2 h +:+ ":"
  +:+ pad2 mi +:+ ":" +:+ pad2 s.

(** +HH:MM or -HH:MM *)
Definition iso_offset (negative : bool) (oh om : Z) : string :=
  String (if negative then "-" else "+")%char (pad2 oh +:+ ":" +:+ pad2 om).

(** ** The expressions of the directives, for the proofs *)

Definition re_Y := Eval vm_compute in default Eps (directive "Y").

Definition re_m := Eval vm_compute in default Eps (directive "m").

Definition re_d := Eval vm_compute in default Eps (directive "d").

Definition re_H := Eval vm_compute in default Eps (directive "H").

Definition re_M := Eval vm_compute in default Eps (directive "M").

Definition re_S2 := Eval vm_compute in default Eps (directive "S").

(** A directive of two digits takes both digits of a padded number at the
    first try, whatever follows. *)
Definition takes_pad2 (name : string) (r : re) (n : Z) : Prop :=
  forall (R : Type) (rest acc : string) (g : groups)
         (k : string -> string -> groups -> option R) (x : R),
    k rest (acc +:+ pad2 n) ((name, pad2 n) :: g) = Some x ->
    run r (pad2 n +:+ rest) acc g k = Some x.

(** The part that the three formats share, followed by [tail]. *)
Definition chain (tail : re) : re :=
  Seq re_Y (Seq (LitI "-") (Seq re_m (Seq (LitI "-") (Seq re_d (Seq (LitI "T")
    (Seq re_H (Seq (LitI ":") (Seq re_M (Seq (LitI ":") (Seq re_S2 tail)))))))))).

(** The groups of a match of the shared part. *)
Definition date_groups (y m d h mi s : Z) : groups :=
  [("S", pad2 s); ("M", pad2 mi); ("H", pad2 h); ("d", pad2 d); ("m", pad2 m);
   ("Y", pad4 y)].

(** The ranges that the expressions of the directives allow. *)
Definition in_ranges (y m d h mi s : Z) : Prop :=
  (0 <= y <= 9999 /\ 1 <= m <= 12 /\ 1 <= d <= 31 /\ 0 <= h <= 23
   /\ 0 <= mi <= 59 /\ 0 <= s <= 59)%Z.

(** ** Examples of inputs *)

(** The entry of the first scenario of the specification. *)
Definition W1 : waiver :=
  mk_waiver (PStr "W1") (PStr "application") (PStr "app-42")
    (PStr "2020-01-01T00:00:00Z") (PStr "N/A").

(** A second entry. *)
Definition W2 : waiver :=
  mk_waiver (PStr "W2") (PStr "application") (PStr "app-42")
    (PStr "2021-01-01T00:00:00Z") (PStr "N/A").

(** A server that answers the first request with status 200 and a JSON
    document nested 2000 deep, on which the decoder of CPython raises
    RecursionError, and every other request with 204. *)
Definition nested_first : server :=
  fun n _ =>
    match n with
    | O => Undecodable
             (mk_response 200 (Str.repeat "[" 2000 +:+ Str.repeat "]" 2000)
                None)
             RecursionError
    | S _ => Responded (mk_response 204 "" None)
    end.

(** A server that answers every request with 204 and no body. *)
Definition no_content : server :=
  fun _ _ => Responded (mk_response 204 "" None).

(** A server that answers 200 with the JSON document [[1]]. *)
Definition ok_with_body : server :=
  fun _ _ => Responded (mk_response 200 "[1]" (Some (JList [JInt 1]))).

(** A row that expired in 2020. *)
Definition R1 : row :=
  mk_row (PStr "W1") (PStr "2020-01-01T00:00:00Z") (PStr "application")
    (PStr "app-42") None.

(** The reading of the clock at the start of 2024. *)
Definition clock_2024 : Datetime.datetime :=
  Datetime.mk_datetime 2024 1 1 0 0 0 0 None.

(** * Definitions for the further properties *)

(** ** The requests and the lines of the deletion loop *)

(** The request that a turn of the loop sends for an entry, if any. *)
Definition request_of (w : waiver) : option event :=
  match SCOPE_TYPE_MAP_get (w_scope_type w) with
  | None => None
  | Some tok =>
      if pd_isna (w_scope_id w) || negb (truthy (w_scope_id w)) then None
      else Some (ERequest "DELETE" (url_of tok w))
  end.

Definition is_deleted_line (e : event) : bool :=
  match e with EDeleted _ => true | _ => false end.

Definition is_failure_line (e : event) : bool :=
  match e with
  | EFailed _ | EUnknownScope _ _ | EMissingScopeId _ => true
  | _ => false
  end.

Definition is_complete_line (e : event) : bool :=
  match e with EComplete _ _ => true | _ => false end.

(** The requests that a run is to send, fixed when the prompt is answered:
    those of the marked entries when the operator confirms, none
    otherwise. *)
Definition planned (typed : option string) (expired : list waiver)
    : list event :=
  match typed with
  | Some confirm =>
      if confirmed confirm then omap request_of expired else []
  | None => []
  end.

(** The entries listed before the prompt (lines 167-172). *)
Definition listed (t : list event) : list waiver :=
  omap (fun e => match e with EListed w => Some w | _ => None end) t.

(** The entries that the first loop marks, in the order of the rows. *)
Definition expired_entries (clock : Datetime.datetime) (rows : list row)
    : list waiver :=
  map entry_of (rows_of (now_utc clock) Expired rows).

(** ** The start of the script (lines 78-127)

    What comes before the first loop: the search for the CSV file, the
    reading of it and the check of its columns. *)

(** A data frame as [pd.read_csv] returns it: the labels of the columns
    and, for each line of the file, the cells in the order of the columns
    (a line that is short of cells is filled with NaN). The labels are
    taken to be distinct once stripped: with a label twice, [row[label]]
    would be a Series and not a cell. *)
Record frame := mk_frame {
  columns : list string;
  cells : list (list pyval)
}.

(** Line 115: [df.columns = df.columns.str.strip()]. *)
Definition clean_columns (df : frame) : frame :=
  mk_frame (map Str.strip (columns df)) (cells df).

(** [row[label]]: the cell under the label; [None] stands for the KeyError
    of a label that the frame does not have. Under a label that occurs
    twice the code has a Series and no cell, and the first loop raises at
    line 142; [cell] gives the first of the cells there, and what is
    proved of the start of the script is proved for distinct labels. *)
Fixpoint cell (labels : list string) (vals : list pyval) (label : string)
    : option pyval :=
  match labels with
  | [] => None
  | l :: labels' =>
      if String.eqb l label then Some (hd PNaN vals)
      else cell labels' (tl vals) label
  end.

(** Lines 116-123. *)
Definition col_waiver_id : string := "Waiver Id".
Definition col_expiry : string := "Expiration Date".
Definition col_owner_type : string := "Scope Type".
Definition col_owner_id : string := "Scope Id".
Definition col_component : string := "Component Name".

Definition required_cols_list : list string :=
  [col_waiver_id; col_expiry; col_owner_type; col_owner_id].

(** Line 124: the required columns that the frame lacks. *)
Definition missing_cols (df : frame) : list string :=
  filter (fun col => col ∉ columns df) required_cols_list.

(** The cells that the loops read from one line of the frame: the four
    required ones by [row[...]], the component by [row.get(..., 'N/A')]. *)
Definition row_of (labels : list string) (vals : list pyval) : option row :=
  match cell labels vals col_waiver_id, cell labels vals col_expiry,
        cell labels vals col_owner_type, cell labels vals col_owner_id with
  | Some id, Some expiry, Some owner_type, Some owner_id =>
      Some (mk_row id expiry owner_type owner_id
              (cell labels vals col_component))
  | _, _, _, _ => None
  end.

(** How the start ends: [sys.exit(1)] for one of four reasons, a KeyError
    at a lookup, or the rows that the loops will read. *)
Inductive start :=
| NoCsvFound                                      (* lines 88-91 *)
| SeveralCsvFound (files : list string)           (* lines 92-97 *)
| CsvUnreadable (file : string)                   (* lines 110-112 *)
| ColumnsMissing (file : string) (missing : list string) (* lines 125-127 *)
| LookupFailed (file : string)
| Started (file : string) (total : nat) (rows : list row).

(** Lines 86-127. [matching_files] is what [glob.glob(CSV_PATTERN)]
    returns, [read_csv] what [pd.read_csv] does with a file: a frame, or
    [None] when it raises. *)
Definition start_of (matching_files : list string)
    (read_csv : string -> option frame) : start :=
  match matching_files with
  | [] => NoCsvFound
  | [csv_file_to_process] =>
      match read_csv csv_file_to_process with
      | None => CsvUnreadable csv_file_to_process
      | Some df_waivers =>
          let df := clean_columns df_waivers in
          match missing_cols df with
          | [] =>
              match mapM (row_of (columns df)) (cells df) with
              | Some rows =>
                  Started csv_file_to_process (length (cells df_waivers)) rows
              | None => LookupFailed csv_file_to_process
              end
          | missing => ColumnsMissing csv_file_to_process missing
          end
      end
  | _ => SeveralCsvFound matching_files
  end.

(** The script: the start, then the loops when the start got through. *)
Definition script (matching_files : list string)
    (read_csv : string -> option frame) (clock : Datetime.datetime)
    (typed : option string) (srv : server) : start * option outcome :=
  let st := start_of matching_files read_csv in
  (st, match st with
       | Started _ _ rows => Some (main rows clock typed srv)
       | _ => None
       end).

(** ** Valid [datetime] objects *)

(** What the constructors of [datetime] and [timezone] check. *)
Definition valid_datetime (dt : Datetime.datetime) : Prop :=
  Datetime.check_date_fields (Datetime.year dt) (Datetime.month dt)
    (Datetime.day dt) = true
  /\ Datetime.check_time_fields (Datetime.hour dt) (Datetime.minute dt)
       (Datetime.second dt) (Datetime.microsecond dt) = true
  /\ match Datetime.tzinfo dt with
     | Some off => (- Datetime.day_us < off < Datetime.day_us)%Z
     | None => True
     end.

(** ** What the expressions of the directives take *)

(** A continuation that fails on every subject that begins with a digit:
    such is whatever follows a directive inside the formats of the script
    (a literal character or the directive z). *)
Definition rejects_digits {R} (k : string -> string -> groups -> option R)
    : Prop :=
  forall a s acc g, Str.is_digit a = true -> k (String a s) acc g = None.

(** The two-digit numbers that the expressions of m, d, H, M and S take
    in full. *)
Definition ok_m (n : Z) : bool := ((1 <=? n) && (n <=? 12))%Z.
Definition ok_d (n : Z) : bool := ((1 <=? n) && (n <=? 31))%Z.
Definition ok_H (n : Z) : bool := (n <=? 23)%Z.
Definition ok_M (n : Z) : bool := (n <=? 59)%Z.
Definition ok_S (n : Z) : bool := (n <=? 61)%Z.

(** Before a continuation that rejects digits, a directive of two digits
    either takes both digits of a padded number or fails. *)
Definition exact_pad2 (name : string) (r : re) (ok : Z -> bool) (n : Z)
    : Prop :=
  forall (R : Type) (rest acc : string) (g : groups)
         (k : string -> string -> groups -> option R),
    rejects_digits k ->
    run r (pad2 n +:+ rest) acc g k
    = if ok n then k rest (acc +:+ pad2 n) ((name, pad2 n) :: g) else None.

(** Fields as they can be written: four digits for the year, two for each
    of the others. *)
Definition digit_fields (y m d h mi s : Z) : Prop :=
  (0 <= y <= 9999 /\ 0 <= m <= 99 /\ 0 <= d <= 99 /\ 0 <= h <= 99
   /\ 0 <= mi <= 99 /\ 0 <= s <= 99)%Z.

(** The fields that [datetime] accepts. *)
Definition valid_fields (y m d h mi s us : Z) : bool :=
  Datetime.check_date_fields y m d && Datetime.check_time_fields h mi s us.

(** The groups of the shared part up to the minutes. *)
Definition minute_groups (y m d h mi : Z) : groups :=
  [("M", pad2 mi); ("H", pad2 h); ("d", pad2 d); ("m", pad2 m); ("Y", pad4 y)].

(** An offset written with or without the colon: +HH:MM or +HHMM. *)
Definition offset_text (colon negative : bool) (oh om : Z) : string :=
  String (if negative then "-" else "+")%char
    (pad2 oh +:+ (if colon then ":" else "") +:+ pad2 om).

(** The offset in microseconds. *)
Definition offset_us (negative : bool) (oh om : Z) : Z :=
  ((if negative then -1 else 1) * (oh * 3600 + om * 60) * 1000000)%Z.

(** The ways a time stamp can go on after the seconds so that one of the
    three formats can still apply: a final Z alone, a point with a final
    Z somewhere after it, or a sign with no final Z. *)
Definition continues (rest : string) : bool :=
  if Str.endswith rest "Z"
  then String.eqb rest "Z" || Str.startswith rest "."
  else Str.startswith rest "+" || Str.startswith rest "-".

(** The diagnostic of line 54. *)
Definition is_json_line (e : event) : bool :=
  match e with EErrJSON _ _ => true | _ => false end.

(** ** An example of a file *)

(** A table of one line, the row [R1], under labels with blanks around
    them and the columns in another order than the script names them. *)
Definition F1 : frame :=
  mk_frame [" Scope Id"; "Waiver Id "; "Expiration Date"; " Scope Type "]
    [[PStr "app-42"; PStr "W1"; PStr "2020-01-01T00:00:00Z";
      PStr "application"]].

(** A directory with one file that [pd.read_csv] reads as [F1]. *)
Definition read_F1 : string -> option frame := fun _ => Some F1.

(** ** The order of the calendar *)

(** The order of two tuples of numbers, as Python compares them. *)
Fixpoint lex_lt (a b : list Z) : bool :=
  match a, b with
  | x :: a', y :: b' => (x <? y)%Z || ((x =? y)%Z && lex_lt a' b')
  | _, _ => false
  end.

(** The fields of an object, from the year to the microsecond. *)
Definition fields_of (dt : Datetime.datetime) : list Z :=
  [Datetime.year dt; Datetime.month dt; Datetime.day dt; Datetime.hour dt;
   Datetime.minute dt; Datetime.second dt; Datetime.microsecond dt].

(** * Properties *)

(** ** Scope resolver *)
Lemma SCOPE_TYPE_MAP_lookup (s : string) :
  SCOPE_TYPE_MAP !! s =
    if decide (s = "root_organization") then Some "organization"
    else if decide (s = "organization") then Some "organization"
    else if decide (s = "application") then Some "application"
    else if decide (s = "repository") then Some "repository"
    else if decide (s = "repository_container") then Some "repository_container"
    else None.
Proof.
  unfold SCOPE_TYPE_MAP.
  repeat (case_decide; [subst; by simplify_map_eq|]).
  by simplify_map_eq.
Qed.

Lemma SCOPE_TYPE_MAP_get_Some (v : pyval) (tok : string) :
  SCOPE_TYPE_MAP_get v = Some tok ->
  exists k, v = PStr k /\ In k scope_keys /\ tok <> "".
Proof.
  destruct v as [| |s|]; simpl; try discriminate.
  rewrite SCOPE_TYPE_MAP_lookup. intros H. exists s. split; [done|].
  unfold scope_keys.
  repeat (case_decide; [subst; simplify_eq; split; [simpl; tauto|done]|]).
  discriminate.
Qed.

(** C3, as the code has it: the keys of the mapping are root_organization,
    organization, application, repository and repository_container. Each
    of them resolves to a non-empty path token, root_organization to the
    token of organization; every other value resolves to nothing. *)
Theorem scope_resolver_keys :
  (forall v : pyval,
     (exists tok, SCOPE_TYPE_MAP_get v = Some tok) <->
     (exists k, v = PStr k /\ In k scope_keys))
  /\ SCOPE_TYPE_MAP_get (PStr "root_organization") = Some "organization"
  /\ SCOPE_TYPE_MAP_get (PStr "organization") = Some "organization"
  /\ SCOPE_TYPE_MAP_get (PStr "application") = Some "application"
  /\ SCOPE_TYPE_MAP_get (PStr "repository") = Some "repository"
  /\ SCOPE_TYPE_MAP_get (PStr "repository_container") = Some "repository_container".
Proof.
  split; [|by repeat split].
  intros v. split.
  - intros [tok H]. apply SCOPE_TYPE_MAP_get_Some in H as (k & -> & Hk & _). eauto.
  - intros (k & -> & Hk). simpl in Hk.
    destruct Hk as [<-|[<-|[<-|[<-|[<-|[]]]]]]; eexists; reflexivity.
Qed.

(** C3, as the specification words it, fails: repository-group and
    root-organization are in its vocabulary and resolve to nothing, while
    repository_container is outside of it and resolves. *)
Lemma scope_resolver_spec_vocabulary_fails :
  In "repository-group" spec_scope_kinds
  /\ SCOPE_TYPE_MAP_get (PStr "repository-group") = None
  /\ In "root-organization" spec_scope_kinds
  /\ SCOPE_TYPE_MAP_get (PStr "root-organization") = None
  /\ ~ In "repository_container" spec_scope_kinds
  /\ SCOPE_TYPE_MAP_get (PStr "repository_container") = Some "repository_container".
Proof.
  repeat split; try (simpl; tauto); try reflexivity.
  simpl. intros H. repeat (destruct H as [H|H]; [discriminate|]). exact H.
Qed.

(** ** The API client *)

Lemma handlers_catch (method url : string) (rp : reply) (e : req_exn) :
  exists ev, handlers method url rp (ByRequests e) = Some ev
             /\ outcome_of ev = None /\ is_request ev = false
             /\ is_prompt ev = false.
Proof.
  unfold handlers. destruct e; simpl; eexists; repeat split.
Qed.

(** No clause catches an exception of the decoder. *)
Lemma handlers_miss (method url : string) (rp : reply) (e : decoder_exn) :
  handlers method url rp (ByDecoder e) = None.
Proof. reflexivity. Qed.

(** The replies on which the decoder raises: a response that is no error,
    for which lines 38 and 39 do not return, and whose body the decoder
    gives up on. *)
Lemma decoder_raises_iff (method : string) (rp : reply) (e : decoder_exn) :
  decoder_raises method rp = Some e
  <-> exists r, rp = Undecodable r e /\ reads_body method r = true.
Proof.
  unfold decoder_raises, try_body, reads_body. split.
  - destruct rp as [r|e'|r e'].
    + destruct ((400 <=? status_code r)%Z && (status_code r <? 600)%Z);
        [done|].
      destruct ((status_code r =? 204)%Z && String.eqb method "DELETE");
        [done|].
      destruct ((status_code r =? 200)%Z && String.eqb (text r) ""); [done|].
      simpl. by destruct (json r).
    + done.
    + destruct ((400 <=? status_code r)%Z && (status_code r <? 600)%Z)
        eqn:E1; [done|].
      destruct ((status_code r =? 204)%Z && String.eqb method "DELETE")
        eqn:E2; [done|].
      destruct ((status_code r =? 200)%Z && String.eqb (text r) "")
        eqn:E3; [done|].
      simpl. intros [= ->]. exists r. by rewrite E1, E2, E3.
  - intros (r & -> & H).
    apply andb_true_iff in H as [[H1 H2]%andb_true_iff H3].
    apply negb_true_iff in H1, H2, H3. by rewrite H1, H2, H3.
Qed.

(** [make_api_request] sends one request. It returns, whatever the
    request comes to, unless the decoder raises: then that exception
    leaves the function. *)
Lemma make_api_request_returns (method endpoint : string) (rp : reply) :
  match decoder_raises method rp with
  | None =>
      exists v evs,
        make_api_request method endpoint rp = inl (v, evs)
        /\ requests evs = [ERequest method (API_BASE +:+ "/" +:+ endpoint)]
        /\ outcomes evs = [] /\ prompts evs = []
  | Some e =>
      make_api_request method endpoint rp
      = inr ([ERequest method (API_BASE +:+ "/" +:+ endpoint)], ByDecoder e)
  end.
Proof.
  unfold decoder_raises, make_api_request.
  destruct (try_body method rp) as [v|[e|e]].
  - exists v. eexists. repeat split.
  - destruct (handlers_catch method (API_BASE +:+ "/" +:+ endpoint) rp e)
      as (ev & -> & Ho & Hr & Hp).
    exists ANone. eexists. split; [reflexivity|].
    unfold requests, outcomes, prompts. simpl.
    rewrite !filter_cons. simpl. rewrite Ho.
    destruct ev; simpl in *; try discriminate; repeat split.
  - reflexivity.
Qed.

(** ** The deletion loop *)

Lemma outcomes_app (t1 t2 : list event) :
  outcomes (t1 ++ t2) = outcomes t1 ++ outcomes t2.
Proof. apply omap_app. Qed.

Lemma requests_app (t1 t2 : list event) :
  requests (t1 ++ t2) = requests t1 ++ requests t2.
Proof. apply filter_app. Qed.

Lemma prompts_app (t1 t2 : list event) :
  prompts (t1 ++ t2) = prompts t1 ++ prompts t2.
Proof. apply filter_app. Qed.

(** A turn of the loop ends in one of two ways: with its outcome line and
    one more in a counter, or, when the decoder raises on the reply, with
    the exception. *)
Lemma delete_waiver_turn (srv : server) (st : tally) (w : waiver) :
  (exists st', delete_waiver srv st w = inl st' /\ turn_of w st st')
  \/ (exists st' e tok,
        delete_waiver srv st w = inr (st', CrashReq (ByDecoder e))
        /\ aborted_turn st st'
        /\ SCOPE_TYPE_MAP_get (w_scope_type w) = Some tok
        /\ decoder_raises "DELETE"
             (srv (length (requests (del_trace st))) (url_of tok w))
           = Some e).
Proof.
  assert (Hskip : forall e d f,
            outcome_of e = Some (w_id w) -> is_request e = false ->
            is_prompt e = false ->
            (d = deleted_count st /\ f = failed_count st + 1) ->
            turn_of w st (mk_tally d f (del_trace st ++ [e]))).
  { intros e d f Ho Hr Hp [-> ->]. exists [e]. simpl.
    unfold outcomes, prompts, requests. simpl. rewrite !filter_cons, Ho.
    simpl. rewrite Hr, Hp. simpl.
    repeat split; try reflexivity; [lia|right; split; reflexivity]. }
  unfold delete_waiver.
  destruct (SCOPE_TYPE_MAP_get (w_scope_type w)) as [tok|] eqn:Hs;
    [|left; eexists; split; [reflexivity|]; by apply Hskip].
  destruct (negb (truthy (PStr tok)));
    [left; eexists; split; [reflexivity|]; by apply Hskip|].
  destruct (pd_isna (w_scope_id w) || negb (truthy (w_scope_id w)));
    [left; eexists; split; [reflexivity|]; by apply Hskip|].
  fold (endpoint_of tok w). fold (url_of tok w).
  pose proof (make_api_request_returns "DELETE" (endpoint_of tok w)
                (srv (length (requests (del_trace st))) (url_of tok w)))
    as Hm.
  fold (url_of tok w) in Hm.
  destruct (decoder_raises _ _) as [e|] eqn:Hd.
  - right. rewrite Hm. eexists. exists e, tok. split; [reflexivity|].
    split; [|done].
    exists [EAttempt (endpoint_of tok w); ERequest "DELETE" (url_of tok w)].
    cbn [del_trace deleted_count failed_count]. by repeat split.
  - left. destruct Hm as (v & evs & -> & Hr & Ho & Hp).
    destruct (api_truthy v).
    + eexists. split; [reflexivity|]. eexists.
      cbn [del_trace deleted_count failed_count].
      split; [reflexivity|].
      rewrite !outcomes_app, !prompts_app, !requests_app, Ho, Hp, Hr. simpl.
      repeat split; try reflexivity; lia.
    + eexists. split; [reflexivity|]. eexists.
      cbn [del_trace deleted_count failed_count].
      split; [reflexivity|].
      rewrite !outcomes_app, !prompts_app, !requests_app, Ho, Hp, Hr. simpl.
      repeat split; try reflexivity; lia.
Qed.

(** The loop runs over the list until the decoder raises, and to its end
    when it never does: every entry it gets through has its outcome line
    and one count. *)
Lemma delete_waivers_total (srv : server) (ws : list waiver) (st : tally) :
  (exists st' new,
     delete_waivers srv st ws = inl st'
     /\ del_trace st' = del_trace st ++ new
     /\ outcomes new = map w_id ws
     /\ prompts new = []
     /\ length (requests new) <= length ws
     /\ deleted_count st' + failed_count st'
        = deleted_count st + failed_count st + length ws)
  \/ (exists st' e new settled w rest,
        delete_waivers srv st ws = inr (st', CrashReq (ByDecoder e))
        /\ ws = settled ++ w :: rest
        /\ del_trace st' = del_trace st ++ new
        /\ outcomes new = map w_id settled
        /\ prompts new = []
        /\ deleted_count st' + failed_count st'
           = deleted_count st + failed_count st + length settled
        /\ exists n url, decoder_raises "DELETE" (srv n url) = Some e).
Proof.
  revert st. induction ws as [|w ws IH]; intros st.
  - left. exists st, []. simpl. rewrite app_nil_r. repeat split; lia.
  - cbn [delete_waivers].
    destruct (delete_waiver_turn srv st w)
      as [(st1 & -> & new1 & Ht1 & Ho1 & Hp1 & Hr1 & Hc1)
         |(st1 & e & tok & -> & (new1 & Ht1 & Ho1 & Hp1 & Hr1 & Hd1 & Hf1)
           & Hs & Hd)].
    + destruct (IH st1)
        as [(st2 & new2 & -> & Ht2 & Ho2 & Hp2 & Hr2 & Hc2)
           |(st2 & e & new2 & settled & w' & rest & -> & -> & Ht2 & Ho2 & Hp2
             & Hc2 & Hn)].
      * left. exists st2, (new1 ++ new2). split; [reflexivity|].
        rewrite Ht2, Ht1, <- app_assoc.
        rewrite outcomes_app, prompts_app, requests_app, Ho1, Ho2, Hp1, Hp2.
        rewrite length_app. cbn [map length].
        repeat split; [lia|lia].
      * right. exists st2, e, (new1 ++ new2), (w :: settled), w', rest.
        split; [reflexivity|]. split; [reflexivity|].
        rewrite Ht2, Ht1, <- app_assoc.
        rewrite outcomes_app, prompts_app, Ho1, Ho2, Hp1, Hp2.
        cbn [map length]. repeat split; [lia|done].
    + right. exists st1, e, new1, [], w, ws.
      split; [reflexivity|]. split; [reflexivity|].
      rewrite Ht1, Ho1, Hp1. cbn [map length].
      repeat split; [lia|]. by eexists _, _.
Qed.

Lemma listing_silent (ws : list waiver) :
  outcomes (map EListed ws) = [] /\ requests (map EListed ws) = []
  /\ prompts (map EListed ws) = [].
Proof.
  induction ws as [|w ws (Ho & Hr & Hp)]; [done|].
  simpl. unfold requests, prompts in *. rewrite !filter_cons. simpl. done.
Qed.



(** C1 fails on the code. The first of two entries is answered with status
    200 and a body nested 2000 deep, on which the decoder raises
    RecursionError. No clause of lines 41-55 catches it: the run ends at
    line 202, the first entry has no outcome line and is in neither
    counter, the second entry is never attempted, and no summary is
    printed. *)
Theorem deletion_loop_aborts :
  let o := deletion_section nested_first (Some "DELETE") [W1; W2] [] in
  nested_first 0 (url_of "application" W1)
  = Undecodable
      (mk_response 200 (Str.repeat "[" 2000 +:+ Str.repeat "]" 2000) None)
      RecursionError
  /\ crashed o = Some (CrashReq (ByDecoder RecursionError))
  /\ counts o = None
  /\ outcomes (trace o) = []
  /\ requests (trace o) = [ERequest "DELETE" (url_of "application" W1)]
  /\ ~ In (EAttempt (endpoint_of "application" W2)) (trace o).
Proof.
  cbv zeta. split; [reflexivity|].
  assert (H : deletion_section nested_first (Some "DELETE") [W1; W2] []
              = mk_outcome
                  [EFound 2; EListed W1; EListed W2; EPrompt; EProceeding;
                   EAttempt (endpoint_of "application" W1);
                   ERequest "DELETE" (url_of "application" W1)]
                  None (Some (CrashReq (ByDecoder RecursionError))))
    by reflexivity.
  rewrite H. cbn [crashed counts trace].
  repeat split; try reflexivity.
  intros Hin. repeat (destruct Hin as [Hin|Hin]; [discriminate Hin|]).
  destruct Hin.
Qed.

(** C7. With nothing expired the deletion section prints its result and
    ends: no prompt, no request, no entry counted. With something expired
    the prompt is shown exactly once; when the operator does not confirm,
    the section ends on the cancellation line with no request sent and no
    entry counted. *)
Theorem deletion_gate (srv : server) (typed : option string)
    (expired : list waiver) (t : list event) :
  let o := deletion_section srv typed expired t in
  (expired = [] ->
     exists new, trace o = t ++ new /\ prompts new = [] /\ requests new = []
                 /\ outcomes new = [] /\ counts o = None /\ crashed o = None)
  /\ (expired <> [] ->
        exists new, trace o = t ++ new /\ length (prompts new) = 1)
  /\ (expired <> [] ->
      forall confirm, typed = Some confirm -> confirmed confirm = false ->
        exists new, trace o = t ++ new /\ requests new = []
                    /\ outcomes new = [] /\ counts o = None
                    /\ crashed o = None /\ last new = Some ECancelled).
Proof.
  cbv zeta. split; [|split].
  - intros ->. exists [ENoExpired]. by repeat split.
  - intros Hne. unfold deletion_section.
    destruct expired as [|w ws]; [done|].
    set (ex := w :: ws) in *.
    destruct (listing_silent ex) as (Ho & Hr & Hp).
    destruct typed as [confirm|].
    2:{ cbn [trace].
        exists ([EFound (length ex)] ++ map EListed ex ++ [EPrompt]).
        split; [reflexivity|]. rewrite !prompts_app, Hp. reflexivity. }
    destruct (confirmed confirm).
    + set (t1 := t ++ _).
      destruct (delete_waivers_total srv ex (mk_tally 0 0 (t1 ++ [EProceeding])))
        as [(st' & new & -> & Ht & Ho' & Hp' & Hr' & Hc')
           |(st' & e & new & settled & w' & rest & -> & _ & Ht & Ho' & Hp'
             & _)].
      * cbn [trace].
        exists ([EFound (length ex)] ++ map EListed ex ++ [EPrompt]
                  ++ [EProceeding] ++ new
                  ++ [EComplete (deleted_count st') (failed_count st')]).
        split.
        -- rewrite Ht. cbn [del_trace]. unfold t1. by rewrite <- !app_assoc.
        -- rewrite !prompts_app, Hp, Hp'. reflexivity.
      * cbn [trace].
        exists ([EFound (length ex)] ++ map EListed ex ++ [EPrompt]
                  ++ [EProceeding] ++ new).
        split.
        -- rewrite Ht. cbn [del_trace]. unfold t1. by rewrite <- !app_assoc.
        -- rewrite !prompts_app, Hp, Hp'. reflexivity.
    + cbn [trace].
      exists ([EFound (length ex)] ++ map EListed ex ++ [EPrompt] ++ [ECancelled]).
      split; [by rewrite <- !app_assoc|].
      rewrite !prompts_app, Hp. reflexivity.
  - intros Hne confirm -> Hc. unfold deletion_section. rewrite Hc.
    destruct expired as [|w ws]; [done|].
    set (ex := w :: ws) in *.
    destruct (listing_silent ex) as (Ho & Hr & Hp).
    cbn [trace counts crashed].
    exists ([EFound (length ex)] ++ map EListed ex ++ [EPrompt] ++ [ECancelled]).
    split; [by rewrite <- !app_assoc|].
    rewrite !requests_app, !outcomes_app, Ho, Hr.
    repeat split.
    rewrite !app_assoc. apply last_snoc.
Qed.

(** The three ways a turn of the loop goes, by the tests of lines 191 and
    195. In the third the request is sent whether the turn then ends with
    its outcome line or with an exception of the decoder. *)
Lemma delete_waiver_cases (srv : server) (st : tally) (w : waiver) :
  match SCOPE_TYPE_MAP_get (w_scope_type w) with
  | None =>
      delete_waiver srv st w
      = inl (skipped st (EUnknownScope (w_scope_type w) (w_id w)))
  | Some tok =>
      if pd_isna (w_scope_id w) || negb (truthy (w_scope_id w)) then
        delete_waiver srv st w = inl (skipped st (EMissingScopeId (w_id w)))
      else
        exists st' new,
          (delete_waiver srv st w = inl st'
           \/ exists e, delete_waiver srv st w = inr (st', CrashReq e))
          /\ del_trace st' = del_trace st ++ new
          /\ requests new = [ERequest "DELETE" (url_of tok w)]
  end.
Proof.
  unfold delete_waiver.
  destruct (SCOPE_TYPE_MAP_get (w_scope_type w)) as [tok|] eqn:Hs; [|done].
  apply SCOPE_TYPE_MAP_get_Some in Hs as (k & _ & _ & Hne).
  assert (Ht : negb (truthy (PStr tok)) = false).
  { simpl. destruct (String.eqb_spec tok ""); done. }
  rewrite Ht.
  destruct (pd_isna (w_scope_id w) || negb (truthy (w_scope_id w))); [done|].
  fold (endpoint_of tok w). fold (url_of tok w).
  pose proof (make_api_request_returns "DELETE" (endpoint_of tok w)
                (srv (length (requests (del_trace st))) (url_of tok w)))
    as Hm.
  fold (url_of tok w) in Hm.
  destruct (decoder_raises _ _) as [e|].
  - rewrite Hm. eexists. eexists. split; [right; by eexists|].
    cbn [del_trace]. split; [reflexivity|]. reflexivity.
  - destruct Hm as (v & evs & -> & Hr & _ & _).
    destruct (api_truthy v); eexists; eexists;
      (split; [left; reflexivity|]); cbn [del_trace];
      (split; [reflexivity|]);
      rewrite !requests_app, Hr; reflexivity.
Qed.

(** C6. A scope type that the mapping does not know ends the turn with the
    unknown-scope line, one more failure and no request. Otherwise a scope
    id that is missing or the empty string ends it with the missing-scope-id
    line, one more failure and no request. Otherwise exactly one request is
    sent: DELETE policyWaivers/{token}/{scope id}/{waiver id}. (A cell that
    holds a number counts by its truth value, as [not owner_id] has it.) *)
Theorem delete_waiver_guards (srv : server) (st : tally) (w : waiver) :
  match SCOPE_TYPE_MAP_get (w_scope_type w) with
  | None =>
      delete_waiver srv st w
      = inl (skipped st (EUnknownScope (w_scope_type w) (w_id w)))
  | Some tok =>
      match w_scope_id w with
      | PNone | PNaN | PStr "" | PScalar _ false =>
          delete_waiver srv st w = inl (skipped st (EMissingScopeId (w_id w)))
      | PStr _ | PScalar _ true =>
          exists st' new,
            (delete_waiver srv st w = inl st'
             \/ exists e, delete_waiver srv st w = inr (st', CrashReq e))
            /\ del_trace st' = del_trace st ++ new
            /\ requests new = [ERequest "DELETE" (url_of tok w)]
      end
  end.
Proof.
  pose proof (delete_waiver_cases srv st w) as H.
  destruct (SCOPE_TYPE_MAP_get (w_scope_type w)) as [tok|]; [|done].
  destruct (w_scope_id w) as [| |s|tx b]; try done.
  - destruct s; done.
  - destruct b; done.
Qed.

Example url_of_example :
  url_of "application" (mk_waiver (PStr "W1") (PStr "application")
                          (PStr "app-42") (PStr "2020-01-01T00:00:00Z")
                          (PStr "N/A"))
  = "http://localhost:8070/api/v2/policyWaivers/application/app-42/W1".
Proof. reflexivity. Qed.

(** C2, as the code has it. For an entry that reaches the API client the
    turn counts a deletion exactly when the client returns a true value:
    on a 204, and also on any other status below 400 whose body decodes to
    a JSON document that is true (non-empty, non-zero). It counts a failure
    on a status from 400 to 599 (HTTP error line), on a time-out or a
    failed connection (their lines), on a body that is not JSON, on a
    200 with an empty body and on a document that is false. The loop
    itself prints the same failure line for every kind of failure. (When
    the decoder raises an exception of its own on the body, the turn
    counts nothing: the exception ends the run.) *)
Theorem delete_outcome_by_reply (srv : server) (st : tally) (w : waiver)
    (tok : string) :
  SCOPE_TYPE_MAP_get (w_scope_type w) = Some tok ->
  pd_isna (w_scope_id w) || negb (truthy (w_scope_id w)) = false ->
  let url := url_of tok w in
  let sent t :=
    del_trace st ++ [EAttempt (endpoint_of tok w)]
      ++ (ERequest "DELETE" url :: t) in
  let deleted :=
    mk_tally (deleted_count st + 1) (failed_count st)
      (sent [EDeleted (w_id w)]) in
  let failed diag :=
    mk_tally (deleted_count st) (failed_count st + 1)
      (sent (diag ++ [EFailed (w_id w)])) in
  let raised e :=
    (mk_tally (deleted_count st) (failed_count st) (sent []),
     CrashReq (ByDecoder e)) in
  delete_waiver srv st w =
  match srv (length (requests (del_trace st))) url with
  | Failed e => inl (failed [diagnostic url e])
  | Responded r =>
      inl (if (400 <=? status_code r)%Z && (status_code r <? 600)%Z
           then failed [EErrHTTP (status_code r) "DELETE" url]
           else if (status_code r =? 204)%Z then deleted
           else if (status_code r =? 200)%Z && String.eqb (text r) ""
           then failed []
           else match json r with
                | None => failed [EErrUnexpected url]
                | Some v => if jval_truthy v then deleted else failed []
                end)
  | Undecodable r e =>
      if (400 <=? status_code r)%Z && (status_code r <? 600)%Z
      then inl (failed [EErrHTTP (status_code r) "DELETE" url])
      else if (status_code r =? 204)%Z then inl deleted
      else if (status_code r =? 200)%Z && String.eqb (text r) ""
      then inl (failed [])
      else inr (raised e)
  end.
Proof.
  intros Hs Ho. cbv zeta. unfold delete_waiver. rewrite Hs.
  apply SCOPE_TYPE_MAP_get_Some in Hs as (k & _ & _ & Hne).
  assert (Ht : negb (truthy (PStr tok)) = false).
  { simpl. destruct (String.eqb_spec tok ""); done. }
  rewrite Ht, Ho.
  fold (endpoint_of tok w). fold (url_of tok w).
  unfold make_api_request. fold (url_of tok w).
  destruct (srv (length (requests (del_trace st))) (url_of tok w)) as [r|e|r e].
  - unfold try_body.
    destruct ((400 <=? status_code r)%Z && (status_code r <? 600)%Z); [done|].
    destruct (status_code r =? 204)%Z; [done|]. simpl.
    destruct ((status_code r =? 200)%Z && String.eqb (text r) ""); [done|].
    destruct (json r) as [v|]; [|done]. simpl.
    destruct (jval_truthy v); done.
  - destruct e; done.
  - unfold try_body.
    destruct ((400 <=? status_code r)%Z && (status_code r <? 600)%Z); [done|].
    destruct (status_code r =? 204)%Z; [done|]. simpl.
    destruct ((status_code r =? 200)%Z && String.eqb (text r) ""); done.
Qed.

(** C2 at the first scenario: the reply is 204 and the entry is deleted. *)
Lemma delete_outcome_by_reply_witness :
  delete_waiver no_content (mk_tally 0 0 []) W1 =
  inl (mk_tally 1 0
         [EAttempt "policyWaivers/application/app-42/W1";
          ERequest "DELETE"
            "http://localhost:8070/api/v2/policyWaivers/application/app-42/W1";
          EDeleted (PStr "W1")]).
Proof.
  exact (delete_outcome_by_reply no_content (mk_tally 0 0 []) W1 "application"
           eq_refl eq_refl).
Defined.

(** C2, as the specification words it, fails: a reply with status 200 and
    a JSON body is not a no-content reply, and the turn counts a deletion. *)
Lemma deleted_without_no_content :
  ok_with_body 0 (url_of "application" W1)
    = Responded (mk_response 200 "[1]" (Some (JList [JInt 1])))
  /\ delete_waiver ok_with_body (mk_tally 0 0 []) W1 =
     inl (mk_tally 1 0
            [EAttempt "policyWaivers/application/app-42/W1";
             ERequest "DELETE"
               "http://localhost:8070/api/v2/policyWaivers/application/app-42/W1";
             EDeleted (PStr "W1")]).
Proof. split; reflexivity. Qed.

(** ** The confirmation gate *)

Lemma append_nil_r (s : string) : s +:+ "" = s.
Proof. induction s as [|a s IH]; simpl; [done|by rewrite IH]. Qed.

Lemma append_assoc (s t u : string) : (s +:+ t) +:+ u = s +:+ (t +:+ u).
Proof. induction s as [|a s IH]; simpl; [done|by rewrite IH]. Qed.



Lemma rstrip_id (p : ascii -> bool) (x : string) (c : ascii) :
  Str.last x = Some c -> p c = false -> Str.rstrip p x = x.
Proof.
  induction x as [|a x IH]; [done|].
  intros Hl Hc. simpl in *. destruct x as [|b x].
  - simplify_eq. simpl. by rewrite Hc.
  - rewrite (IH Hl Hc). done.
Qed.















(** ** The matcher against the language of an expression *)
Module ReFacts.
Import Re.

Lemma groups_ok_weaken (r r' : re) (new : groups) :
  (forall n v, group_lang r n v -> group_lang r' n v) ->
  (forall n, In n (must r') -> In n (must r)) ->
  groups_ok r new -> groups_ok r' new.
Proof.
  intros Hg Hm [Hf Hin]. split.
  - eapply Forall_impl; [exact Hf|]. intros [n v]. apply Hg.
  - intros n Hn. apply Hin, Hm, Hn.
Qed.

Lemma one_sound {R} (p : ascii -> bool) (s acc : string) (g : groups)
    (k : string -> string -> groups -> option R) (x : R) :
  one p s acc g k = Some x ->
  exists b s', s = String b s' /\ p b = true
               /\ k s' (acc +:+ String b "") g = Some x.
Proof.
  unfold one. destruct s as [|b s']; [discriminate|].
  destruct (p b) eqn:Hp; [|discriminate]. eauto.
Qed.

(** Whatever the matcher returns, it got by splitting off a text of the
    language and handing the rest to its continuation. *)
Lemma run_sound {R} (r : re) :
  forall (s acc : string) (g : groups)
         (k : string -> string -> groups -> option R) (x : R),
    run r s acc g k = Some x ->
    exists t s' new,
      s = t +:+ s' /\ lang r t /\ groups_ok r new
      /\ k s' (acc +:+ t) (new ++ g) = Some x.
Proof.
  induction r as [|a|a|lo hi| |r1 IH1 r2 IH2|r1 IH1 r2 IH2|r1 IH1|name r1 IH1];
    intros s acc g k x H; simpl in H.
  - exists "", s, []. rewrite append_nil_r. by repeat split.
  - apply one_sound in H as (b & s' & -> & Hb & Hk).
    apply Ascii.eqb_eq in Hb as <-.
    exists (String a ""), s', []. by repeat split.
  - apply one_sound in H as (b & s' & -> & Hb & Hk).
    exists (String b ""), s', []. simpl. repeat split; eauto.
  - apply one_sound in H as (b & s' & -> & Hb & Hk).
    exists (String b ""), s', []. simpl. repeat split; eauto.
  - apply one_sound in H as (b & s' & -> & Hb & Hk).
    exists (String b ""), s', []. simpl. repeat split; eauto.
  - apply IH1 in H as (t1 & s1 & new1 & -> & Hl1 & Hg1 & H).
    apply IH2 in H as (t2 & s2 & new2 & -> & Hl2 & Hg2 & H).
    exists (t1 +:+ t2), s2, (new2 ++ new1).
    rewrite !append_assoc, <- app_assoc in *.
    split; [done|]. split; [simpl; eauto|]. split; [|done].
    destruct Hg1 as [Hf1 Hm1], Hg2 as [Hf2 Hm2]. split.
    + apply Forall_app. split.
      * eapply Forall_impl; [exact Hf2|]. intros [n v]. simpl. tauto.
      * eapply Forall_impl; [exact Hf1|]. intros [n v]. simpl. tauto.
    + intros n. simpl. rewrite in_app_iff, map_app, in_app_iff.
      intros [Hn|Hn]; [right; by apply Hm1|left; by apply Hm2].
  - unfold orelse in H.
    destruct (run r1 s acc g k) as [y|] eqn:H1.
    + simplify_eq. apply IH1 in H1 as (t & s' & new & -> & Hl & Hg & H).
      exists t, s', new. split; [done|]. split; [by left|]. split; [|done].
      eapply groups_ok_weaken; [| |exact Hg]; simpl; [tauto|intros n []].
    + apply IH2 in H as (t & s' & new & -> & Hl & Hg & H).
      exists t, s', new. split; [done|]. split; [by right|]. split; [|done].
      eapply groups_ok_weaken; [| |exact Hg]; simpl; [tauto|intros n []].
  - unfold orelse in H.
    destruct (run r1 s acc g k) as [y|] eqn:H1.
    + simplify_eq. apply IH1 in H1 as (t & s' & new & -> & Hl & Hg & H).
      exists t, s', new. split; [done|]. split; [by left|]. split; [|done].
      eapply groups_ok_weaken; [| |exact Hg]; simpl; [tauto|intros n []].
    + exists "", s, []. rewrite append_nil_r.
      split; [done|]. split; [by right|]. split; [|done].
      split; [constructor|intros n []].
  - apply IH1 in H as (t & s' & new & -> & Hl & Hg & H). simpl in H.
    exists t, s', ((name, t) :: new).
    split; [done|]. split; [done|]. split; [|done].
    destruct Hg as [Hf Hm]. split.
    + constructor; simpl; [tauto|].
      eapply Forall_impl; [exact Hf|]. intros [n v]. simpl. tauto.
    + intros n [<-|Hn]; [by left|right; by apply Hm].
Qed.

End ReFacts.

(** ** [strptime]: what it raises and what it returns *)
Module StrptimeFacts.
Import Re ReFacts Strptime.

Lemma group_In (g : groups) (n v : string) :
  group g n = Some v -> In (n, v) g.
Proof.
  induction g as [|[m w] g IH]; simpl; [discriminate|].
  destruct (String.eqb_spec m n) as [->|_].
  - intros [= ->]. by left.
  - intros H. right. by apply IH.
Qed.

Lemma group_set (g : groups) (n : string) :
  In n (map fst g) -> exists v, group g n = Some v.
Proof.
  induction g as [|[m w] g IH]; simpl; [done|].
  destruct (String.eqb_spec m n) as [->|Hne]; [eauto|].
  intros [H|H]; [done|by apply IH].
Qed.

Lemma rmatch_sound (r : re) (s rest : string) (g : groups) :
  rmatch r s = Some (rest, g) ->
  exists t, s = t +:+ rest /\ lang r t /\ groups_ok r g.
Proof.
  unfold rmatch. intros H.
  apply run_sound in H as (t & s' & new & -> & Hl & Hg & [= <- <-]).
  rewrite app_nil_r. eauto.
Qed.

Lemma int_raises (s : string) (e : exn) :
  Str.int s = Raise e -> e = ValueError.
Proof.
  unfold Str.int. destruct (_ && _); [discriminate|]. by intros [= <-].
Qed.

Lemma nth_in_range (i : nat) (s : string) :
  i < String.length s -> exists a, Str.nth i s = Some a.
Proof.
  unfold Str.nth. revert s. induction i as [|i IH]; intros [|a s] Hl;
    simpl in *; try lia; [eauto|].
  apply IH. lia.
Qed.

(** A text of the directive z is Z or has four characters at least. *)
Lemma re_z_shape (z : string) :
  lang re_z z -> z = "Z" \/ 3 < String.length z.
Proof.
  intros [H|H]; [right|by left].
  destruct H as (t0 & t & -> & H0 & H).
  destruct H as (t1 & tt & -> & H1 & H).
  destruct H as (t2 & tt2 & -> & H2 & H).
  destruct H as (t3 & tt3 & -> & H3 & H).
  destruct H as (t4 & tt4 & -> & H4 & H).
  simpl in H0, H1, H2, H3, H4.
  assert (exists c, t0 = String c "") as [c0 ->] by (destruct H0; eauto).
  destruct H1 as (c1 & _ & ->), H2 as (c2 & _ & ->), H4 as (c4 & _ & ->).
  destruct H3 as [->| ->]; simpl; lia.
Qed.

Lemma without_colons_raises (z : string) (e : exn) :
  3 < String.length z -> without_colons z = Raise e -> e = ValueError.
Proof.
  intros Hlen. unfold without_colons, index at 1.
  destruct (nth_in_range 3 z Hlen) as [c3 ->]. cbn [res_bind].
  destruct (Ascii.eqb c3 ":"); [|discriminate]. cbv zeta.
  destruct (Nat.ltb_spec 5 (String.length (Str.take 3 z +:+ Str.drop 4 z)))
    as [Hl|_]; [|discriminate].
  unfold index. destruct (nth_in_range 5 _ Hl) as [c5 ->]. cbn [res_bind].
  destruct (negb _); [by intros [= <-]|discriminate].
Qed.

Lemma offset_fields_raises (z : string) (e : exn) :
  offset_fields z = Raise e -> e = ValueError.
Proof.
  unfold offset_fields. cbv zeta.
  destruct (Str.int (Str.slice 1 3 z)) as [h|e1] eqn:E1; cbn [res_bind];
    [|intros [= <-]; by eapply int_raises].
  destruct (Str.int (Str.slice 3 5 z)) as [m|e2] eqn:E2; cbn [res_bind];
    [|intros [= <-]; by eapply int_raises].
  destruct (if String.eqb (Str.slice 5 7 z) "" then Ret 0%Z
            else Str.int (Str.slice 5 7 z)) as [sec|e3] eqn:E3;
    cbn [res_bind].
  2: { intros [= <-]. destruct (String.eqb _ _); [discriminate|].
       by eapply int_raises. }
  destruct (Str.int (Str.drop 8 z +:+
              Str.repeat "0" (6 - String.length (Str.drop 8 z))))
    as [f|e4] eqn:E4; cbn [res_bind].
  - destruct (Str.startswith z "-"); discriminate.
  - intros [= <-]. by eapply int_raises.
Qed.

Lemma gmtoff_of_raises (z : string) (e : exn) :
  lang re_z z -> gmtoff_of z = Raise e -> e = ValueError.
Proof.
  intros Hz. unfold gmtoff_of.
  destruct (String.eqb z "Z") eqn:HZ; [done|].
  apply re_z_shape in Hz as [->|Hlen]; [vm_compute in HZ; discriminate|].
  destruct (without_colons z) as [z1|e1] eqn:Hm; cbn [res_bind].
  - apply offset_fields_raises.
  - intros [= <-]. by eapply without_colons_raises.
Qed.

Lemma field_raises (g : groups) (n : string) (d : Z) (e : exn) :
  field g n d = Raise e -> e = ValueError.
Proof.
  unfold field. destruct (group g n); [apply int_raises|discriminate].
Qed.

Lemma fraction_raises (g : groups) (e : exn) :
  fraction g = Raise e -> e = ValueError.
Proof.
  unfold fraction. destruct (group g "f"); [apply int_raises|discriminate].
Qed.

Lemma timezone_raises (off : Z) (e : exn) :
  Datetime.timezone off = Raise e -> e = ValueError.
Proof.
  unfold Datetime.timezone. destruct (_ && _); [discriminate|by intros [= <-]].
Qed.

Lemma new_raises (y m d h mi s us : Z) (tz : option Z) (e : exn) :
  Datetime.new y m d h mi s us tz = Raise e -> e = ValueError.
Proof.
  unfold Datetime.new. destruct (_ && _); [discriminate|by intros [= <-]].
Qed.

Lemma new_tzinfo (y m d h mi s us : Z) (tz : option Z) (dt : Datetime.datetime) :
  Datetime.new y m d h mi s us tz = Ret dt -> Datetime.tzinfo dt = tz.
Proof.
  unfold Datetime.new. destruct (_ && _); [by intros [= <-]|discriminate].
Qed.

Lemma gmtoff_part_raises (r : re) (g : groups) (e : exn) :
  (forall z, group_lang r "z" z -> lang re_z z) ->
  groups_ok r g ->
  gmtoff_part g = Raise e -> e = ValueError.
Proof.
  intros Hz [Hf _]. unfold gmtoff_part.
  destruct (group g "z") as [z|] eqn:Hg; [|discriminate].
  apply group_In, list_elem_of_In in Hg. rewrite Forall_forall in Hf.
  apply Hf in Hg. simpl in Hg. apply Hz in Hg.
  destruct (gmtoff_of z) as [off|e1] eqn:E1; cbn [res_bind]; [discriminate|].
  intros [= <-]. by eapply gmtoff_of_raises.
Qed.

Lemma gmtoff_part_set (g : groups) (gm : option (Z * Z)) :
  In "z" (map fst g) -> gmtoff_part g = Ret gm -> exists off, gm = Some off.
Proof.
  intros Hin. unfold gmtoff_part. destruct (group_set g "z" Hin) as [z ->].
  destruct (gmtoff_of z); cbn [res_bind]; [|discriminate].
  intros [= <-]. eauto.
Qed.

Lemma tzinfo_of_raises (gm : option (Z * Z)) (e : exn) :
  tzinfo_of gm = Raise e -> e = ValueError.
Proof.
  unfold tzinfo_of. destruct gm as [off|]; [|discriminate].
  destruct (Datetime.timezone _) as [tz|e2] eqn:E2; cbn [res_bind];
    [discriminate|]. intros [= <-]. by eapply timezone_raises.
Qed.

Lemma tzinfo_of_set (off : Z * Z) (tz : option Z) :
  tzinfo_of (Some off) = Ret tz -> exists o, tz = Some o.
Proof.
  unfold tzinfo_of. destruct (Datetime.timezone _); cbn [res_bind];
    [|discriminate]. intros [= <-]. eauto.
Qed.

(** [strptime] raises nothing but ValueError. *)
Lemma strptime_raises (s fmt : string) (r : re) (e : exn) :
  pattern fmt = Some r ->
  (forall z, group_lang r "z" z -> lang re_z z) ->
  strptime s fmt = Raise e -> e = ValueError.
Proof.
  intros Hp Hz. unfold strptime. rewrite Hp.
  destruct (rmatch r s) as [[rest g]|] eqn:Hm; [|by intros [= <-]].
  apply rmatch_sound in Hm as (t & -> & Hl & Hg).
  destruct (negb _); [by intros [= <-]|].
  repeat match goal with
         | |- context [res_bind (field ?g ?n ?d) _] =>
             let E := fresh "E" in
             destruct (field g n d) eqn:E; cbn [res_bind];
             [|intros [= <-]; by eapply field_raises]
         end.
  destruct (fraction g) eqn:Ef; cbn [res_bind];
    [|intros [= <-]; by eapply fraction_raises].
  destruct (gmtoff_part g) as [gm|] eqn:Et; cbn [res_bind];
    [|intros [= <-]; by eapply gmtoff_part_raises].
  destruct (negb _); [by intros [= <-]|].
  destruct (tzinfo_of gm) eqn:Etz; cbn [res_bind];
    [|intros [= <-]; by eapply tzinfo_of_raises].
  apply new_raises.
Qed.

(** What [strptime] returns was read from a text of the format's
    language, and it is aware when the format has the directive z. *)
Lemma strptime_returns (s fmt : string) (r : re) (dt : Datetime.datetime) :
  pattern fmt = Some r ->
  strptime s fmt = Ret dt ->
  lang r s
  /\ (In "z" (must r) -> exists off, Datetime.tzinfo dt = Some off).
Proof.
  intros Hp. unfold strptime. rewrite Hp.
  destruct (rmatch r s) as [[rest g]|] eqn:Hm; [|discriminate].
  apply rmatch_sound in Hm as (t & -> & Hl & Hg).
  destruct (String.eqb_spec rest "") as [->|]; [|discriminate].
  cbn [negb]. rewrite append_nil_r.
  repeat match goal with
         | |- context [res_bind (field ?g ?n ?d) _] =>
             destruct (field g n d); cbn [res_bind]; [|discriminate]
         end.
  destruct (fraction g); cbn [res_bind]; [|discriminate].
  destruct (gmtoff_part g) as [gm|] eqn:Et; cbn [res_bind]; [|discriminate].
  destruct (negb _); [discriminate|].
  destruct (tzinfo_of gm) as [tz|] eqn:Etz; cbn [res_bind]; [|discriminate].
  intros Hn. apply new_tzinfo in Hn. split; [done|].
  intros Hz. rewrite Hn.
  destruct (gmtoff_part_set g gm) as [off ->]; [by apply Hg|done|].
  by eapply tzinfo_of_set.
Qed.

Lemma pattern_S : pattern "%Y-%m-%dT%H:%M:%S" = Some re_S.
Proof. reflexivity. Qed.
Lemma pattern_Sz : pattern "%Y-%m-%dT%H:%M:%S%z" = Some re_Sz.
Proof. reflexivity. Qed.
Lemma pattern_Sf : pattern "%Y-%m-%dT%H:%M:%S.%f" = Some re_Sf.
Proof. reflexivity. Qed.

Lemma re_S_no_z (z : string) : group_lang re_S "z" z -> lang re_z z.
Proof. simpl. intuition discriminate. Qed.

Lemma re_Sf_no_z (z : string) : group_lang re_Sf "z" z -> lang re_z z.
Proof. simpl. intuition discriminate. Qed.

Lemma re_Sz_z (z : string) : group_lang re_Sz "z" z -> lang re_z z.
Proof.
  unfold re_Sz. cbn [group_lang].
  intros H. repeat (destruct H as [H|H]; try done);
    try (by destruct H as [E _]; discriminate E).
  destruct H as [_ H]. exact H.
Qed.

Lemma re_Sz_must : In "z" (must re_Sz).
Proof. simpl. tauto. Qed.

End StrptimeFacts.

(** ** [parse_waiver_datetime]: what it accepts *)
Import Re ReFacts Strptime StrptimeFacts.

Lemma endswith_init (s : string) (c : ascii) :
  Str.endswith s c = true -> s = Str.init s +:+ String c "".
Proof.
  unfold Str.endswith. induction s as [|a s IH]; [done|].
  simpl. destruct s as [|b s].
  - destruct (Ascii.eqb_spec a c) as [->|]; done.
  - intros H. simpl. f_equal. by apply IH.
Qed.

Lemma parse_waiver_datetime_str (s : string) :
  parse_waiver_datetime (PStr s)
  = try_except_ValueError (first_attempt s)
      (try_except_ValueError (second_attempt s) (Ret None)).
Proof. reflexivity. Qed.

Lemma first_attempt_raises (s : string) (e : exn) :
  first_attempt s = Raise e -> e = ValueError.
Proof.
  unfold first_attempt. destruct (Str.endswith s "Z").
  - destruct (Strptime.strptime _ _) eqn:E; cbn [res_bind]; [discriminate|].
    intros [= <-]. eapply strptime_raises; [exact pattern_S|exact re_S_no_z|exact E].
  - destruct (Strptime.strptime _ _) eqn:E; cbn [res_bind]; [discriminate|].
    intros [= <-]. eapply strptime_raises; [exact pattern_Sz|exact re_Sz_z|exact E].
Qed.

Lemma second_attempt_raises (s : string) (e : exn) :
  second_attempt s = Raise e -> e = ValueError.
Proof.
  unfold second_attempt. destruct (Str.endswith s "Z"); [|discriminate].
  destruct (Strptime.strptime _ _) eqn:E; cbn [res_bind]; [discriminate|].
  intros [= <-]. eapply strptime_raises; [exact pattern_Sf|exact re_Sf_no_z|exact E].
Qed.

(** The function returns on every input. *)
Lemma parse_waiver_datetime_returns (v : pyval) :
  exists r, parse_waiver_datetime v = Ret r.
Proof.
  destruct v as [| |s|tx b]; try (by eexists).
  rewrite parse_waiver_datetime_str.
  destruct (first_attempt s) as [r|e] eqn:E1; [by eexists|].
  apply first_attempt_raises in E1 as ->. simpl.
  destruct (second_attempt s) as [r|e] eqn:E2; [by eexists|].
  apply second_attempt_raises in E2 as ->. by eexists.
Qed.

(** What it returns is aware. *)
Lemma parse_waiver_datetime_aware (v : pyval) (dt : Datetime.datetime) :
  parse_waiver_datetime v = Ret (Some dt) ->
  exists off, Datetime.tzinfo dt = Some off.
Proof.
  destruct v as [| |s|tx b]; try discriminate.
  rewrite parse_waiver_datetime_str.
  assert (H1 : first_attempt s = Ret (Some dt) ->
               exists off, Datetime.tzinfo dt = Some off).
  { unfold first_attempt. destruct (Str.endswith s "Z").
    - destruct (Strptime.strptime _ _); cbn [res_bind]; [|discriminate].
      intros [= <-]. by eexists.
    - destruct (Strptime.strptime _ _) eqn:E; cbn [res_bind]; [|discriminate].
      intros [= ->].
      apply (strptime_returns _ _ _ _ pattern_Sz) in E as [_ E].
      apply E, re_Sz_must. }
  assert (H2 : second_attempt s = Ret (Some dt) ->
               exists off, Datetime.tzinfo dt = Some off).
  { unfold second_attempt. destruct (Str.endswith s "Z"); [|discriminate].
    destruct (Strptime.strptime _ _); cbn [res_bind]; [|discriminate].
    intros [= <-]. by eexists. }
  destruct (first_attempt s) as [r|[]] eqn:E1; simpl; try discriminate.
  - intros [= ->]. by apply H1.
  - destruct (second_attempt s) as [r|[]] eqn:E2; simpl; try discriminate.
    intros [= ->]. by apply H2.
Qed.

Lemma parse_waiver_datetime_readable (s : string) (dt : Datetime.datetime) :
  parse_waiver_datetime (PStr s) = Ret (Some dt) -> readable s.
Proof.
  rewrite parse_waiver_datetime_str. unfold readable.
  assert (H1 : first_attempt s = Ret (Some dt) -> readable s).
  { unfold first_attempt, readable. destruct (Str.endswith s "Z") eqn:Hz.
    - destruct (Strptime.strptime _ _) eqn:E; cbn [res_bind]; [|discriminate].
      intros _. left. exists (Str.init s). split; [by apply endswith_init|].
      left. by apply (strptime_returns _ _ _ _ pattern_S) in E as [E _].
    - destruct (Strptime.strptime _ _) eqn:E; cbn [res_bind]; [|discriminate].
      intros _. right. split; [done|].
      by apply (strptime_returns _ _ _ _ pattern_Sz) in E as [E _]. }
  assert (H2 : second_attempt s = Ret (Some dt) -> readable s).
  { unfold second_attempt, readable. destruct (Str.endswith s "Z") eqn:Hz;
      [|discriminate].
    destruct (Strptime.strptime _ _) eqn:E; cbn [res_bind]; [|discriminate].
    intros _. left. exists (Str.init s). split; [by apply endswith_init|].
    right. by apply (strptime_returns _ _ _ _ pattern_Sf) in E as [E _]. }
  destruct (first_attempt s) as [r|[]] eqn:E1; simpl; try discriminate.
  - intros [= ->]. by apply H1.
  - destruct (second_attempt s) as [r|[]] eqn:E2; simpl; try discriminate.
    intros [= ->]. by apply H2.
Qed.

(** The function returns [None] for a string exactly when [strptime] can
    read it under none of the formats tried for it. *)
Lemma parse_waiver_datetime_None (s : string) :
  parse_waiver_datetime (PStr s) = Ret None <-> can_read s = false.
Proof.
  rewrite parse_waiver_datetime_str. unfold can_read.
  unfold first_attempt at 1. unfold second_attempt.
  destruct (Str.endswith s "Z").
  - destruct (Strptime.strptime (Str.init s) "%Y-%m-%dT%H:%M:%S")
      as [dt|e] eqn:E1; cbn [res_bind try_except_ValueError returns orb].
    { split; discriminate. }
    apply (strptime_raises _ _ _ _ pattern_S re_S_no_z) in E1 as ->.
    cbn [try_except_ValueError].
    destruct (Strptime.strptime (Str.init s) "%Y-%m-%dT%H:%M:%S.%f")
      as [dt|e] eqn:E2; cbn [res_bind try_except_ValueError returns].
    { split; discriminate. }
    by apply (strptime_raises _ _ _ _ pattern_Sf re_Sf_no_z) in E2 as ->.
  - destruct (Strptime.strptime s "%Y-%m-%dT%H:%M:%S%z")
      as [dt|e] eqn:E1; cbn [res_bind try_except_ValueError returns].
    { split; discriminate. }
    by apply (strptime_raises _ _ _ _ pattern_Sz re_Sz_z) in E1 as ->.
Qed.

(** A string that fits the expression of a format and is no date. *)
Lemma readable_no_date : readable "2023-02-31T23:59:61Z".
Proof.
  left. exists "2023-02-31T23:59:61". split; [done|]. left.
  destruct (rmatch re_S "2023-02-31T23:59:61") as [[rest g]|] eqn:E;
    [|by vm_compute in E].
  pose proof E as E'. vm_compute in E'. injection E' as <- _.
  apply rmatch_sound in E as (t & Ht & Hl & _).
  rewrite append_nil_r in Ht. by subst t.
Qed.

(** C9, as the code has it. Handed a missing value, a scalar that is no
    string, or a string, the function returns and raises nothing. It
    returns [None] for a missing value and for a scalar that is no string;
    for a string it returns [None] exactly when [strptime] can read it
    under none of the formats tried for it, which is so for every string
    outside the expressions of the formats, and also for strings that fit
    an expression and are no date, such as 2023-02-31T23:59:61Z. The three
    malformed strings of the specification are among the rejected. The
    strings that are read are more than the three profiles as written: see
    [readable]. Handed a list, the function returns [None] for a list of
    one item and raises ValueError at line 60 for a longer one. *)
Theorem parse_waiver_datetime_rejects (v : pyval) :
  (exists r, parse_waiver_datetime v = Ret r)
  /\ (is_str v = false -> parse_waiver_datetime v = Ret None)
  /\ (forall s, v = PStr s ->
        (can_read s = false <-> parse_waiver_datetime v = Ret None)
        /\ (can_read s = true ->
            exists dt, parse_waiver_datetime v = Ret (Some dt))
        /\ (~ readable s -> can_read s = false))
  /\ parse_waiver_datetime (PStr "not-a-date") = Ret None
  /\ parse_waiver_datetime (PStr "") = Ret None
  /\ parse_waiver_datetime (PStr "2024-13-40Z") = Ret None
  /\ (readable "2023-02-31T23:59:61Z"
      /\ parse_waiver_datetime (PStr "2023-02-31T23:59:61Z") = Ret None)
  /\ (forall item items,
        parse_waiver_datetime_list item items
        = match items with
          | [] => Ret None
          | _ :: _ => Raise ValueError
          end).
Proof.
  split; [apply parse_waiver_datetime_returns|].
  split; [by destruct v|].
  split.
  { intros s ->.
    pose proof (parse_waiver_datetime_None s) as Hn.
    split; [by symmetry|]. split.
    - intros Hc.
      destruct (parse_waiver_datetime_returns (PStr s)) as [[dt|] H];
        [by exists dt|].
      apply Hn in H. congruence.
    - intros Hr. apply Hn.
      destruct (parse_waiver_datetime_returns (PStr s)) as [[dt|] H]; [|done].
      destruct Hr. by eapply parse_waiver_datetime_readable. }
  do 3 (split; [by vm_compute|]).
  split; [split; [exact readable_no_date|by vm_compute]|].
  intros item [|item' items]; unfold parse_waiver_datetime_list; cbn.
  - by destruct (pd_isna item).
  - done.
Qed.

(** C9, as the specification words it, fails: an offset written without a
    colon fits none of the three profiles, and the function returns an
    instant for it; so it does for fields of one digit and a lower-case t.
    And a list of two items, which is no string, makes the function raise
    at line 60. *)
Lemma parse_waiver_datetime_outside_profiles :
  in_spec_profile "2020-01-01T00:00:00+0530" = false
  /\ parse_waiver_datetime (PStr "2020-01-01T00:00:00+0530")
     = Ret (Some (Datetime.mk_datetime 2020 1 1 0 0 0 0 (Some 19800000000%Z)))
  /\ in_spec_profile "2020-1-1t0:0:0Z" = false
  /\ parse_waiver_datetime (PStr "2020-1-1t0:0:0Z")
     = Ret (Some (Datetime.mk_datetime 2020 1 1 0 0 0 0 (Some 0%Z)))
  /\ parse_waiver_datetime_list (PStr "2020-01-01T00:00:00Z") [PNone]
     = Raise ValueError.
Proof. by repeat split; vm_compute. Qed.

(** ** The loop that marks the expired rows *)

Lemma lt_aware (t now : Datetime.datetime) (o1 o2 : Z) :
  Datetime.tzinfo t = Some o1 -> Datetime.tzinfo now = Some o2 ->
  Datetime.lt t now = Ret (Datetime.instant t <? Datetime.instant now)%Z.
Proof. unfold Datetime.lt. by intros -> ->. Qed.

Lemma scan_row_verdict (clock : Datetime.datetime) (st : scan) (r : row) :
  scan_row (now_utc clock) st r
  = Ret match verdict_of (now_utc clock) r with
        | Expired => marked st r
        | Unparseable => warned st r
        | Excluded => st
        end.
Proof.
  unfold scan_row, verdict_of.
  destruct (pd_isna (expiration_date r)); [done|].
  destruct (parse_waiver_datetime_returns (PStr (py_str (expiration_date r))))
    as [[t|] H]; rewrite H; cbn [res_bind]; [|done].
  apply parse_waiver_datetime_aware in H as [off H].
  rewrite (lt_aware t (now_utc clock) off Datetime.utc H eq_refl).
  cbn [res_bind]. by destruct (_ <? _)%Z.
Qed.

Lemma scan_rows_from (clock : Datetime.datetime) (rows : list row) (st : scan) :
  scan_rows (now_utc clock) st rows
  = Ret (mk_scan
           (expired_waivers_to_delete st ++
              map entry_of
                (filter (fun r => verdict_of (now_utc clock) r = Expired) rows))
           (scan_trace st ++ omap (row_event (now_utc clock)) rows)).
Proof.
  revert st. induction rows as [|r rows IH]; intros st.
  - simpl. rewrite !app_nil_r. by destruct st.
  - cbn [scan_rows]. rewrite scan_row_verdict. cbn [res_bind]. rewrite IH.
    rewrite filter_cons. cbn [omap list_omap]. unfold row_event at 2.
    destruct (verdict_of (now_utc clock) r) eqn:Hv; simpl;
      rewrite <- ?app_assoc; try done.
Qed.

(** C5. The loop never stops on a row. The list it builds holds the
    entries of the expired rows in the order of the input; the warnings
    name the rows whose date is present and unreadable, in that order too;
    every row is of exactly one kind (expired, unparseable, excluded); a
    row with no expiration date is excluded and prints nothing. *)
Theorem scan_rows_stable_partition (clock : Datetime.datetime)
    (rows : list row) :
  let now := now_utc clock in
  exists st,
    scan_rows now (mk_scan [] []) rows = Ret st
    /\ expired_waivers_to_delete st = map entry_of (rows_of now Expired rows)
    /\ skipped_unparseable (scan_trace st)
       = map (fun r => (waiver_id r, expiration_date r))
           (rows_of now Unparseable rows)
    /\ sublist (rows_of now Expired rows) rows
    /\ length (rows_of now Expired rows)
       + length (rows_of now Unparseable rows)
       + length (rows_of now Excluded rows) = length rows
    /\ (forall r st', pd_isna (expiration_date r) = true ->
          verdict_of now r = Excluded /\ scan_row now st' r = Ret st').
Proof.
  cbv zeta. unfold rows_of. eexists. split; [apply scan_rows_from|].
  cbn [expired_waivers_to_delete scan_trace].
  split; [done|]. split; [|split; [apply sublist_filter|split]].
  - induction rows as [|r rows IH]; [done|].
    rewrite filter_cons. cbn [omap list_omap app]. unfold row_event at 1.
    destruct (verdict_of (now_utc clock) r) eqn:Hv; simpl;
      cbn [omap list_omap app] in IH; rewrite IH; done.
  - induction rows as [|r rows IH]; [done|].
    rewrite !filter_cons.
    destruct (verdict_of (now_utc clock) r) eqn:Hv; simpl; lia.
  - intros r st' Hna. rewrite scan_row_verdict.
    unfold verdict_of. by rewrite Hna.
Qed.

(** C4. A row whose expiration date is read as [t] is marked exactly when
    the instant of [t] lies strictly before the current time; when the two
    instants are equal the row is not marked. *)
Theorem expired_iff_strictly_before (clock : Datetime.datetime) (st : scan)
    (r : row) (t : Datetime.datetime) :
  parse_waiver_datetime (PStr (py_str (expiration_date r))) = Ret (Some t) ->
  let now := now_utc clock in
  (verdict_of now r = Expired <-> (Datetime.instant t < Datetime.instant now)%Z)
  /\ scan_row now st r
     = Ret (if (Datetime.instant t <? Datetime.instant now)%Z
            then marked st r else st)
  /\ (Datetime.instant t = Datetime.instant now -> scan_row now st r = Ret st).
Proof.
  intros Hp. cbv zeta.
  assert (Hna : pd_isna (expiration_date r) = false).
  { destruct (expiration_date r); try done; vm_compute in Hp; discriminate. }
  assert (Hv : verdict_of (now_utc clock) r
               = if (Datetime.instant t <? Datetime.instant (now_utc clock))%Z
                 then Expired else Excluded).
  { unfold verdict_of. by rewrite Hna, Hp. }
  rewrite scan_row_verdict, Hv.
  destruct (Z.ltb_spec (Datetime.instant t) (Datetime.instant (now_utc clock)));
    repeat split; try done; try lia.
Qed.

(** C4 at a row that expired in 2020, read at the start of 2024. *)
Lemma expired_iff_strictly_before_witness :
  scan_row (now_utc clock_2024) (mk_scan [] []) R1
  = Ret (mk_scan [W1] [EMarked (PStr "W1") (PStr "2020-01-01T00:00:00Z")]).
Proof.
  refine (proj1 (proj2 (expired_iff_strictly_before clock_2024 (mk_scan [] []) R1
            (Datetime.mk_datetime 2020 1 1 0 0 0 0 (Some 0%Z)) _))).
  vm_compute. reflexivity.
Defined.

(** ** Reading back what the encoder wrote *)

Example iso_example : iso 2024 1 31 23 59 7 = "2024-01-31T23:59:07".
Proof. reflexivity. Qed.

Lemma digit_cases (d : Z) (P : Z -> Prop) :
  (0 <= d < 10)%Z ->
  P 0%Z -> P 1%Z -> P 2%Z -> P 3%Z -> P 4%Z -> P 5%Z -> P 6%Z -> P 7%Z ->
  P 8%Z -> P 9%Z -> P d.
Proof.
  intros Hd. intros.
  assert (d = 0 \/ d = 1 \/ d = 2 \/ d = 3 \/ d = 4 \/ d = 5 \/ d = 6 \/ d = 7
          \/ d = 8 \/ d = 9)%Z as H' by lia.
  repeat (destruct H' as [->|H']; [assumption|]). by subst.
Qed.

Lemma digit_is_digit (d : Z) : (0 <= d < 10)%Z -> Str.is_digit (digit d) = true.
Proof. intros Hd. by apply (digit_cases d (fun d => Str.is_digit (digit d) = true)). Qed.

Lemma digit_val_digit (d : Z) : (0 <= d < 10)%Z -> Str.digit_val (digit d) = d.
Proof. intros Hd. by apply (digit_cases d (fun d => Str.digit_val (digit d) = d)). Qed.

Lemma one_hit {R} (p : ascii -> bool) (a : ascii) (s acc : string) (g : groups)
    (k : string -> string -> groups -> option R) :
  p a = true -> one p (String a s) acc g k = k s (acc +:+ String a "") g.
Proof. intros H. simpl. by rewrite H. Qed.

Ltac div_lia := Z.div_mod_to_equations; lia.

Lemma run_Y {R} (y : Z) (rest acc : string) (g : groups)
    (k : string -> string -> groups -> option R) :
  (0 <= y <= 9999)%Z ->
  run re_Y (pad4 y +:+ rest) acc g k = k rest (acc +:+ pad4 y) (("Y", pad4 y) :: g).
Proof.
  intros Hy. unfold re_Y, pad4. cbn [run String.append].
  rewrite !one_hit by (apply digit_is_digit; div_lia). reflexivity.
Qed.

(** Over a range of small numbers, one case per number. *)
Lemma upto_cases (n : nat) (P : Z -> Prop) :
  (forall k : nat, k < n -> P (Z.of_nat k)) ->
  forall z, (0 <= z < Z.of_nat n)%Z -> P z.
Proof. intros H z Hz. rewrite <- (Z2Nat.id z) by lia. apply H. lia. Qed.

Lemma run_m (m : Z) : (1 <= m <= 12)%Z -> takes_pad2 "m" re_m m.
Proof.
  intros Hm. cut ((1 <= m)%Z -> takes_pad2 "m" re_m m); [intros H; apply H; lia|].
  apply (upto_cases 13 (fun z => (1 <= z)%Z -> takes_pad2 "m" re_m z)); [|lia].
  intros n Hn.
  do 13 (destruct n as [|n];
         [first [intros _ R rest acc g k x; vm_compute; intros ->; reflexivity
                |intros ?; lia]|]).
  lia.
Qed.

Lemma run_d (d : Z) : (1 <= d <= 31)%Z -> takes_pad2 "d" re_d d.
Proof.
  intros Hm. cut ((1 <= d)%Z -> takes_pad2 "d" re_d d); [intros H; apply H; lia|].
  apply (upto_cases 32 (fun z => (1 <= z)%Z -> takes_pad2 "d" re_d z)); [|lia].
  intros n Hn.
  do 32 (destruct n as [|n];
         [first [intros _ R rest acc g k x; vm_compute; intros ->; reflexivity
                |intros ?; lia]|]).
  lia.
Qed.

Lemma run_H (h : Z) : (0 <= h <= 23)%Z -> takes_pad2 "H" re_H h.
Proof.
  intros Hm.
  apply (upto_cases 24 (takes_pad2 "H" re_H)); [|lia].
  intros n Hn.
  do 24 (destruct n as [|n];
         [intros R rest acc g k x; vm_compute; intros ->; reflexivity|]).
  lia.
Qed.

Lemma run_M (m : Z) : (0 <= m <= 59)%Z -> takes_pad2 "M" re_M m.
Proof.
  intros Hm.
  apply (upto_cases 60 (takes_pad2 "M" re_M)); [|lia].
  intros n Hn.
  do 60 (destruct n as [|n];
         [intros R rest acc g k x; vm_compute; intros ->; reflexivity|]).
  lia.
Qed.

Lemma run_S (s : Z) : (0 <= s <= 59)%Z -> takes_pad2 "S" re_S2 s.
Proof.
  intros Hm.
  apply (upto_cases 60 (takes_pad2 "S" re_S2)); [|lia].
  intros n Hn.
  do 60 (destruct n as [|n];
         [intros R rest acc g k x; vm_compute; intros ->; reflexivity|]).
  lia.
Qed.

Lemma is_digit_not_space (a : ascii) :
  Str.is_digit a = true -> Str.is_int_space a = false.
Proof. by destruct a as [[] [] [] [] [] [] [] []]. Qed.

Lemma all_digits_last (t : string) :
  Str.all Str.is_digit t = true -> t <> "" ->
  exists c, Str.last t = Some c /\ Str.is_digit c = true.
Proof.
  induction t as [|a t IH]; [done|]. intros [Ha Ht]%andb_true_iff _.
  destruct t as [|b t]; [by exists a|].
  destruct IH as (c & Hc & Hd); [done|done|]. exists c. by split.
Qed.

(** [int] of a run of digits. *)
Lemma int_digits (t : string) :
  Str.all Str.is_digit t = true -> t <> "" ->
  Str.int t = Ret (Str.digits_val 0 t).
Proof.
  intros Ht Hne. unfold Str.int.
  assert (Hs : Str.rstrip Str.is_int_space (Str.lstrip Str.is_int_space t) = t).
  { destruct (all_digits_last t Ht Hne) as (c & Hl & Hc).
    destruct t as [|a t]; [done|].
    apply andb_true_iff in Ht as [Ha _].
    simpl. rewrite (is_digit_not_space a Ha).
    apply (rstrip_id _ _ c Hl). by apply is_digit_not_space. }
  rewrite Hs, Ht. destruct t; [done|reflexivity].
Qed.

Lemma int_pad2 (n : Z) : (0 <= n <= 99)%Z -> Str.int (pad2 n) = Ret n.
Proof.
  intros Hn. rewrite int_digits; [|unfold pad2; cbn [Str.all];
    rewrite !digit_is_digit by div_lia; done|done].
  unfold pad2. cbn [Str.digits_val]. rewrite !digit_val_digit by div_lia.
  f_equal. pose proof (Z.div_mod n 10). lia.
Qed.

Lemma int_pad4 (n : Z) : (0 <= n <= 9999)%Z -> Str.int (pad4 n) = Ret n.
Proof.
  intros Hn. rewrite int_digits; [|unfold pad4; cbn [Str.all];
    rewrite !digit_is_digit by div_lia; done|done].
  unfold pad4. cbn [Str.digits_val]. rewrite !digit_val_digit by div_lia.
  f_equal. div_lia.
Qed.

Lemma int_pad6 (n : Z) : (0 <= n <= 999999)%Z -> Str.int (pad6 n) = Ret n.
Proof.
  intros Hn. rewrite int_digits; [|unfold pad6; cbn [Str.all];
    rewrite !digit_is_digit by div_lia; done|done].
  unfold pad6. cbn [Str.digits_val]. rewrite !digit_val_digit by div_lia.
  f_equal. div_lia.
Qed.

#[local] Arguments pad2 : simpl never.
#[local] Arguments pad4 : simpl never.
#[local] Arguments pad6 : simpl never.

Lemma re_S_chain : re_S = chain Eps. Proof. reflexivity. Qed.

Lemma run_chain {R} (y m d h mi s : Z) (tail : re) (rest : string)
    (k : string -> string -> groups -> option R) (x : R) :
  in_ranges y m d h mi s ->
  (forall acc, run tail rest acc (date_groups y m d h mi s) k = Some x) ->
  run (chain tail) (iso y m d h mi s +:+ rest) "" [] k = Some x.
Proof.
  intros (Hy & Hm & Hd & Hh & Hmi & Hs) Hk.
  unfold chain, iso. rewrite !append_assoc. cbn [run].
  rewrite run_Y by done. cbn [String.append].
  rewrite one_hit by reflexivity. apply run_m; [done|]. cbn [String.append].
  rewrite one_hit by reflexivity. apply run_d; [done|]. cbn [String.append].
  rewrite one_hit by reflexivity. apply run_H; [done|]. cbn [String.append].
  rewrite one_hit by reflexivity. apply run_M; [done|]. cbn [String.append].
  rewrite one_hit by reflexivity. apply run_S; [done|].
  apply Hk.
Qed.

Lemma days_in_month_le (y m : Z) :
  (1 <= m <= 12)%Z -> (Datetime.days_in_month y m <= 31)%Z.
Proof.
  intros Hm. unfold Datetime.days_in_month.
  destruct ((m =? 2)%Z && Datetime.is_leap y); [lia|].
  assert (m = 1 \/ m = 2 \/ m = 3 \/ m = 4 \/ m = 5 \/ m = 6 \/ m = 7 \/ m = 8
          \/ m = 9 \/ m = 10 \/ m = 11 \/ m = 12)%Z as H by lia.
  repeat (destruct H as [->|H]; [vm_compute; discriminate|]).
  subst. vm_compute. discriminate.
Qed.

Lemma check_ranges (y m d h mi s us : Z) :
  Datetime.check_date_fields y m d = true ->
  Datetime.check_time_fields h mi s us = true ->
  in_ranges y m d h mi s /\ (0 <= us <= 999999)%Z.
Proof.
  unfold Datetime.check_date_fields, Datetime.check_time_fields, in_ranges.
  rewrite !andb_true_iff, !Z.leb_le. intros Hd Ht.
  pose proof (days_in_month_le y m). lia.
Qed.

Lemma rmatch_S (y m d h mi s : Z) (rest : string) :
  in_ranges y m d h mi s ->
  rmatch re_S (iso y m d h mi s +:+ rest)
  = Some (rest, date_groups y m d h mi s).
Proof.
  intros Hr. unfold rmatch. rewrite re_S_chain.
  apply run_chain; [done|]. reflexivity.
Qed.

(** The fields that [strptime] reads from the groups of a date. *)
Lemma date_fields (y m d h mi s : Z) (extra : groups) :
  in_ranges y m d h mi s ->
  (forall n, In n ["Y"; "m"; "d"; "H"; "M"; "S"] -> group extra n = None) ->
  let g := extra ++ date_groups y m d h mi s in
  field g "Y" 1900 = Ret y /\ field g "m" 1 = Ret m /\ field g "d" 1 = Ret d
  /\ field g "H" 0 = Ret h /\ field g "M" 0 = Ret mi /\ field g "S" 0 = Ret s.
Proof.
  intros (Hy & Hm & Hd & Hh & Hmi & Hs) He. cbv zeta.
  assert (Hg : forall n, In n ["Y"; "m"; "d"; "H"; "M"; "S"] ->
            group (extra ++ date_groups y m d h mi s) n
            = group (date_groups y m d h mi s) n).
  { intros n Hn. specialize (He n Hn). clear Hn.
    induction extra as [|[a b] extra IH]; [done|]. simpl in *.
    destruct (String.eqb a n); [done|]. by apply IH. }
  unfold field. rewrite !Hg by (simpl; tauto). cbn.
  rewrite int_pad4, !int_pad2 by lia. done.
Qed.

Lemma strptime_S (y m d h mi s : Z) :
  Datetime.check_date_fields y m d = true ->
  Datetime.check_time_fields h mi s 0 = true ->
  strptime (iso y m d h mi s) "%Y-%m-%dT%H:%M:%S"
  = Ret (Datetime.mk_datetime y m d h mi s 0 None).
Proof.
  intros Hd Ht. destruct (check_ranges _ _ _ _ _ _ _ Hd Ht) as [Hr _].
  unfold strptime. rewrite pattern_S.
  rewrite <- (append_nil_r (iso y m d h mi s)), rmatch_S by done.
  cbn [negb String.eqb].
  pose proof (date_fields y m d h mi s [] Hr) as Hf.
  cbv zeta in Hf. cbn [app] in Hf.
  destruct Hf as (-> & -> & -> & -> & -> & ->); [done|].
  cbn [res_bind]. unfold fraction. cbn.
  unfold Datetime.new. rewrite Hd, Ht. reflexivity.
Qed.

Lemma strptime_S_rest (y m d h mi s : Z) (a : ascii) (rest : string) :
  in_ranges y m d h mi s ->
  strptime (iso y m d h mi s +:+ String a rest) "%Y-%m-%dT%H:%M:%S"
  = Raise ValueError.
Proof.
  intros Hr. unfold strptime. rewrite pattern_S, rmatch_S by done. reflexivity.
Qed.

Lemma orelse_some {R} (a b : option R) (x : R) :
  a = Some x -> orelse a b = Some x.
Proof. by intros ->. Qed.

Lemma re_Sf_chain :
  re_Sf = chain (Seq (LitI ".") (Seq (Grp "f" (upto 5 (Rng "0" "9"))) Eps)).
Proof. reflexivity. Qed.

Lemma rmatch_Sf (y m d h mi s f : Z) :
  in_ranges y m d h mi s -> (0 <= f <= 999999)%Z ->
  rmatch re_Sf (iso y m d h mi s +:+ "." +:+ pad6 f)
  = Some ("", ("f", pad6 f) :: date_groups y m d h mi s).
Proof.
  intros Hr Hf. unfold rmatch. rewrite re_Sf_chain.
  apply run_chain; [done|]. intros acc.
  cbn [run String.append]. rewrite one_hit by reflexivity.
  unfold pad6. cbn [upto run].
  repeat (rewrite one_hit by (apply digit_is_digit; div_lia);
          first [apply orelse_some | reflexivity]).
Qed.

Lemma strptime_Sf (y m d h mi s f : Z) :
  Datetime.check_date_fields y m d = true ->
  Datetime.check_time_fields h mi s f = true ->
  strptime (iso y m d h mi s +:+ "." +:+ pad6 f) "%Y-%m-%dT%H:%M:%S.%f"
  = Ret (Datetime.mk_datetime y m d h mi s f None).
Proof.
  intros Hd Ht. destruct (check_ranges _ _ _ _ _ _ _ Hd Ht) as [Hr Hf].
  unfold strptime. rewrite pattern_Sf, rmatch_Sf by done.
  cbn [negb String.eqb].
  pose proof (date_fields y m d h mi s [("f", pad6 f)] Hr) as Hg.
  cbv zeta in Hg. cbn [app] in Hg.
  destruct Hg as (-> & -> & -> & -> & -> & ->).
  { intros n Hn. simpl in Hn. simpl.
    repeat (destruct Hn as [<-|Hn]; [reflexivity|]). done. }
  cbn [res_bind]. unfold fraction. cbn [group String.eqb Ascii.eqb Bool.eqb].
  change (String.length (pad6 f)) with 6. cbn [Nat.sub Str.repeat].
  rewrite append_nil_r, int_pad6 by done. cbn.
  unfold Datetime.new. rewrite Hd, Ht. reflexivity.
Qed.

Lemma re_Sz_chain : re_Sz = chain (Seq (Grp "z" re_z) Eps).
Proof. reflexivity. Qed.

Lemma digit_upto_5 (d : Z) : (0 <= d <= 5)%Z -> Str.in_range "0" "5" (digit d) = true.
Proof.
  intros Hd.
  assert (d = 0 \/ d = 1 \/ d = 2 \/ d = 3 \/ d = 4 \/ d = 5)%Z as H by lia.
  repeat (destruct H as [->|H]; [reflexivity|]). by subst.
Qed.

Lemma one_miss {R} (p : ascii -> bool) (a : ascii) (s acc : string) (g : groups)
    (k : string -> string -> groups -> option R) :
  p a = false -> one p (String a s) acc g k = None.
Proof. intros H. simpl. by rewrite H. Qed.

Lemma rmatch_Sz (y m d h mi s : Z) (negative : bool) (oh om : Z) :
  in_ranges y m d h mi s -> (0 <= oh <= 99)%Z -> (0 <= om <= 59)%Z ->
  rmatch re_Sz (iso y m d h mi s +:+ iso_offset negative oh om)
  = Some ("", ("z", iso_offset negative oh om) :: date_groups y m d h mi s).
Proof.
  intros Hr Hoh Hom. unfold rmatch. rewrite re_Sz_chain.
  apply run_chain; [done|]. intros acc.
  unfold re_z, iso_offset, pad2. cbn [run String.append].
  apply orelse_some.
  destruct negative.
  - rewrite (one_miss (Ascii.eqb "+")) by reflexivity. unfold orelse at 1.
    rewrite one_hit by reflexivity.
    rewrite !one_hit by (apply digit_is_digit; div_lia).
    apply orelse_some. rewrite one_hit by reflexivity.
    rewrite one_hit by (apply digit_upto_5; div_lia).
    rewrite one_hit by (apply digit_is_digit; div_lia).
    reflexivity.
  - apply orelse_some. rewrite one_hit by reflexivity.
    rewrite !one_hit by (apply digit_is_digit; div_lia).
    apply orelse_some. rewrite one_hit by reflexivity.
    rewrite one_hit by (apply digit_upto_5; div_lia).
    rewrite one_hit by (apply digit_is_digit; div_lia).
    reflexivity.
Qed.

#[local] Arguments Str.int : simpl never.

Lemma gmtoff_iso_offset (negative : bool) (oh om : Z) :
  (0 <= oh <= 99)%Z -> (0 <= om <= 59)%Z ->
  gmtoff_of (iso_offset negative oh om)
  = Ret (if negative then (- (oh * 60 * 60 + om * 60 + 0), - 0)%Z
         else (oh * 60 * 60 + om * 60 + 0, 0)%Z).
Proof.
  intros Hoh Hom. unfold gmtoff_of, iso_offset, pad2.
  assert (Hz : String.eqb
            (String (if negative then "-" else "+")%char
               (String (digit (oh / 10)) (String (digit (oh mod 10)) "")
                +:+ ":" +:+
                String (digit (om / 10)) (String (digit (om mod 10)) "")))
            "Z" = false) by (by destruct negative).
  rewrite Hz. clear Hz.
  unfold without_colons, index. cbn.
  unfold offset_fields. cbn.
  change (String (digit (oh / 10)) (String (digit (oh mod 10)) ""))
    with (pad2 oh).
  change (String (digit (om / 10)) (String (digit (om mod 10)) ""))
    with (pad2 om).
  rewrite !int_pad2 by lia. cbn [res_bind].
  change (Str.int "000000") with (@Ret Z 0%Z). cbn [res_bind].
  by destruct negative.
Qed.

Lemma strptime_Sz (y m d h mi s : Z) (negative : bool) (oh om : Z) :
  Datetime.check_date_fields y m d = true ->
  Datetime.check_time_fields h mi s 0 = true ->
  (0 <= oh <= 23)%Z -> (0 <= om <= 59)%Z ->
  strptime (iso y m d h mi s +:+ iso_offset negative oh om)
    "%Y-%m-%dT%H:%M:%S%z"
  = Ret (Datetime.mk_datetime y m d h mi s 0
           (Some ((if negative then -1 else 1) * (oh * 3600 + om * 60)
                  * 1000000)%Z)).
Proof.
  intros Hd Ht Hoh Hom. destruct (check_ranges _ _ _ _ _ _ _ Hd Ht) as [Hr _].
  unfold strptime. rewrite pattern_Sz, rmatch_Sz by (done || lia).
  cbn [negb String.eqb].
  pose proof (date_fields y m d h mi s
                [("z", iso_offset negative oh om)] Hr) as Hg.
  cbv zeta in Hg. cbn [app] in Hg.
  destruct Hg as (-> & -> & -> & -> & -> & ->).
  { intros n Hn. simpl in Hn. simpl.
    repeat (destruct Hn as [<-|Hn]; [reflexivity|]). done. }
  cbn [res_bind]. unfold fraction, gmtoff_part, date_groups.
  cbn [group String.eqb Ascii.eqb Bool.eqb].
  cbn [res_bind]. rewrite gmtoff_iso_offset by lia. cbn [res_bind].
  rewrite Hd. cbn [negb].
  unfold tzinfo_of, Datetime.timezone, Datetime.day_us.
  assert (Hoff : ((if negative then (- (oh * 60 * 60 + om * 60 + 0), - 0)
                   else (oh * 60 * 60 + om * 60 + 0, 0)).1 * 1000000
                  + (if negative then (- (oh * 60 * 60 + om * 60 + 0), - 0)
                     else (oh * 60 * 60 + om * 60 + 0, 0)).2
                  = (if negative then -1 else 1) * (oh * 3600 + om * 60)
                    * 1000000)%Z) by (destruct negative; simpl; lia).
  rewrite Hoff.
  assert (Hin : (- (86400 * 1000000) <?
                 (if negative then -1 else 1) * (oh * 3600 + om * 60) * 1000000)%Z
                && ((if negative then -1 else 1) * (oh * 3600 + om * 60) * 1000000
                    <? 86400 * 1000000)%Z = true).
  { apply andb_true_iff. rewrite !Z.ltb_lt. destruct negative; lia. }
  rewrite Hin. cbn [res_bind].
  unfold Datetime.new. rewrite Hd, Ht. reflexivity.
Qed.

Lemma last_app_one (t : string) (c : ascii) :
  Str.last (t +:+ String c "") = Some c.
Proof.
  induction t as [|a t IH]; [done|]. simpl.
  destruct (t +:+ String c "") eqn:E; [by destruct t|]. by rewrite <- IH.
Qed.

Lemma init_app_one (t : string) (c : ascii) :
  Str.init (t +:+ String c "") = t.
Proof.
  induction t as [|a t IH]; [done|]. simpl.
  destruct (t +:+ String c "") eqn:E; [by destruct t|]. by rewrite IH.
Qed.

Lemma last_iso_offset (t : string) (negative : bool) (oh om : Z) :
  (0 <= om <= 59)%Z ->
  Str.endswith (t +:+ iso_offset negative oh om) "Z" = false.
Proof.
  intros Hom. unfold Str.endswith, iso_offset, pad2.
  replace (t +:+ String (if negative then "-" else "+")%char
             (String (digit (oh / 10)) (String (digit (oh mod 10)) "")
              +:+ ":" +:+
              String (digit (om / 10)) (String (digit (om mod 10)) "")))
    with ((t +:+ String (if negative then "-" else "+")%char
             (String (digit (oh / 10)) (String (digit (oh mod 10))
               (String ":" (String (digit (om / 10)) "")))))
          +:+ String (digit (om mod 10)) "")
    by (rewrite append_assoc; reflexivity).
  rewrite last_app_one.
  apply (digit_cases (om mod 10)
           (fun d => Ascii.eqb (digit d) "Z" = false)); [div_lia|done..].
Qed.

Lemma check_time_fields_0 (h mi s us : Z) :
  Datetime.check_time_fields h mi s us = true ->
  Datetime.check_time_fields h mi s 0 = true.
Proof.
  unfold Datetime.check_time_fields. rewrite !andb_true_iff, !Z.leb_le. lia.
Qed.

(** C8. For every valid date, time of day, fraction and offset, the
    function reads back what the encoder wrote: YYYY-MM-DDTHH:MM:SSZ gives
    the date and time at offset zero, YYYY-MM-DDTHH:MM:SS.ffffffZ the same
    with the microseconds, and YYYY-MM-DDTHH:MM:SS+HH:MM (or -HH:MM) the
    date and time at that offset, whose instant is the wall clock minus the
    offset. *)
Theorem parse_waiver_datetime_profiles (y m d h mi s f : Z) (negative : bool)
    (oh om : Z) :
  Datetime.check_date_fields y m d = true ->
  Datetime.check_time_fields h mi s f = true ->
  (0 <= oh <= 23)%Z -> (0 <= om <= 59)%Z ->
  let at_utc us := Datetime.mk_datetime y m d h mi s us (Some 0%Z) in
  let off :=
    ((if negative then -1 else 1) * (oh * 3600 + om * 60) * 1000000)%Z in
  let at_offset := Datetime.mk_datetime y m d h mi s 0 (Some off) in
  parse_waiver_datetime (PStr (iso y m d h mi s +:+ "Z"))
  = Ret (Some (at_utc 0%Z))
  /\ parse_waiver_datetime (PStr (iso y m d h mi s +:+ "." +:+ pad6 f +:+ "Z"))
     = Ret (Some (at_utc f))
  /\ parse_waiver_datetime (PStr (iso y m d h mi s +:+ iso_offset negative oh om))
     = Ret (Some at_offset)
  /\ Datetime.instant at_offset = (Datetime.instant (at_utc 0%Z) - off)%Z.
Proof.
  intros Hd Ht Hoh Hom. cbv zeta.
  pose proof (check_time_fields_0 _ _ _ _ Ht) as Ht0.
  destruct (check_ranges _ _ _ _ _ _ _ Hd Ht) as [Hr Hf].
  rewrite !parse_waiver_datetime_str. repeat split.
  - unfold first_attempt. rewrite (last_app_one _ "Z") || unfold Str.endswith.
    rewrite ?last_app_one. cbn [Ascii.eqb Bool.eqb].
    rewrite init_app_one, strptime_S by done. reflexivity.
  - replace (iso y m d h mi s +:+ "." +:+ pad6 f +:+ "Z")
      with ((iso y m d h mi s +:+ "." +:+ pad6 f) +:+ "Z")
      by (rewrite !append_assoc; reflexivity).
    unfold first_attempt, second_attempt, Str.endswith.
    rewrite !last_app_one. cbn [Ascii.eqb Bool.eqb].
    rewrite !init_app_one.
    change (iso y m d h mi s +:+ "." +:+ pad6 f)
      with (iso y m d h mi s +:+ String "." (pad6 f)) at 1.
    rewrite strptime_S_rest by done. cbn [res_bind try_except_ValueError].
    rewrite strptime_Sf by done. reflexivity.
  - unfold first_attempt. rewrite last_iso_offset by done.
    rewrite strptime_Sz by done. reflexivity.
  - unfold Datetime.instant, Datetime.local_us.
    cbn [Datetime.tzinfo Datetime.year Datetime.month Datetime.day
         Datetime.hour Datetime.minute Datetime.second Datetime.microsecond
         default].
    unfold id. destruct negative; lia.
Qed.

(** C8 at the last second of a leap day, with a fraction and with the
    offset -05:30. *)
Lemma parse_waiver_datetime_profiles_witness :
  parse_waiver_datetime (PStr "2024-02-29T23:59:59Z")
  = Ret (Some (Datetime.mk_datetime 2024 2 29 23 59 59 0 (Some 0%Z)))
  /\ parse_waiver_datetime (PStr "2024-02-29T23:59:59.123456Z")
     = Ret (Some (Datetime.mk_datetime 2024 2 29 23 59 59 123456 (Some 0%Z)))
  /\ parse_waiver_datetime (PStr "2024-02-29T23:59:59-05:30")
     = Ret (Some (Datetime.mk_datetime 2024 2 29 23 59 59 0
                    (Some (-19800000000)%Z)))
  /\ Datetime.instant (Datetime.mk_datetime 2024 2 29 23 59 59 0
                         (Some (-19800000000)%Z))
     = (Datetime.instant (Datetime.mk_datetime 2024 2 29 23 59 59 0 (Some 0%Z))
        - (-19800000000))%Z.
Proof.
  apply (parse_waiver_datetime_profiles 2024 2 29 23 59 59 123456 true 5 30);
    [reflexivity | reflexivity | lia | lia].
Defined.

(** ** The scenarios of the specification, run from the rows on *)

Example scenario_deleted :
  let o := main [R1] clock_2024 (Some "DELETE") no_content in
  counts o = Some (1, 0) /\ crashed o = None
  /\ outcomes (trace o) = [PStr "W1"] /\ length (requests (trace o)) = 1.
Proof. by vm_compute. Qed.

Example scenario_unknown_scope :
  let r := mk_row (PStr "W1") (PStr "2020-01-01T00:00:00Z")
             (PStr "unknown_kind") (PStr "app-42") None in
  let o := main [r] clock_2024 (Some "DELETE") no_content in
  counts o = Some (0, 1) /\ requests (trace o) = []
  /\ In (EUnknownScope (PStr "unknown_kind") (PStr "W1")) (trace o).
Proof. vm_compute. repeat split. tauto. Qed.

Example scenario_banana :
  let r := mk_row (PStr "W0") (PStr "banana") (PStr "application")
             (PStr "app-1") None in
  scan_rows (now_utc clock_2024) (mk_scan [] []) [r; R1]
  = Ret (mk_scan [W1]
           [EWarnUnparseable (PStr "banana") (PStr "W0");
            EMarked (PStr "W1") (PStr "2020-01-01T00:00:00Z")]).
Proof. by vm_compute. Qed.

Example scenario_cancelled :
  let o := main [R1] clock_2024 (Some "no") no_content in
  counts o = None /\ requests (trace o) = [] /\ outcomes (trace o) = []
  /\ last (trace o) = Some ECancelled.
Proof. by vm_compute. Qed.

(** * Further properties *)

(** ** The run as a whole *)

Lemma option_list_request (w : waiver) (e : event) :
  request_of w = Some e -> is_request e = true.
Proof.
  unfold request_of. destruct (SCOPE_TYPE_MAP_get _); [|done].
  destruct (_ || _); [done|]. by intros [= <-].
Qed.

(** One turn of the deletion loop, in full: what it sends and what it
    counts, whether it ends with its outcome line or with an exception of
    the decoder. *)
Lemma delete_waiver_step (srv : server) (st : tally) (w : waiver) :
  exists st' new,
    (delete_waiver srv st w = inl st'
     \/ exists e n url,
          delete_waiver srv st w = inr (st', CrashReq (ByDecoder e))
          /\ decoder_raises "DELETE" (srv n url) = Some e)
    /\ del_trace st' = del_trace st ++ new
    /\ requests new = option_list (request_of w)
    /\ prompts new = [] /\ listed new = []
    /\ filter is_complete_line new = []
    /\ deleted_count st'
       = deleted_count st + length (filter is_deleted_line new)
    /\ failed_count st'
       = failed_count st + length (filter is_failure_line new)
    /\ length (filter is_deleted_line new) <= length (requests new)
    /\ (delete_waiver srv st w = inl st' ->
        length (filter is_deleted_line new)
        + length (filter is_failure_line new) = 1).
Proof.
  unfold delete_waiver, request_of.
  destruct (SCOPE_TYPE_MAP_get (w_scope_type w)) as [tok|] eqn:Hs;
    [|eexists; eexists; split; [left; reflexivity|];
      split; [reflexivity|];
      cbn [del_trace deleted_count failed_count]; repeat split; simpl; lia].
  apply SCOPE_TYPE_MAP_get_Some in Hs as (k & _ & _ & Hne).
  assert (Ht : negb (truthy (PStr tok)) = false).
  { simpl. destruct (String.eqb_spec tok ""); done. }
  rewrite Ht.
  destruct (pd_isna (w_scope_id w) || negb (truthy (w_scope_id w)));
    [eexists; eexists; split; [left; reflexivity|];
      split; [reflexivity|];
      cbn [del_trace deleted_count failed_count]; repeat split; simpl; lia|].
  fold (endpoint_of tok w). fold (url_of tok w).
  pose proof (make_api_request_returns "DELETE" (endpoint_of tok w)
                (srv (length (requests (del_trace st))) (url_of tok w)))
    as Hm.
  fold (url_of tok w) in Hm.
  destruct (decoder_raises _ _) as [e|] eqn:Hd.
  { rewrite Hm. eexists. eexists.
    split; [right; exists e; eexists; eexists; split; [reflexivity|exact Hd]|].
    split; [reflexivity|].
    cbn [del_trace deleted_count failed_count].
    repeat split; simpl; try lia. discriminate. }
  destruct Hm as (v & evs & Hm & Hr & Ho & Hp).
  rewrite Hm.
  assert (Hev : filter is_deleted_line evs = []
                /\ filter is_failure_line evs = []
                /\ listed evs = [] /\ filter is_complete_line evs = []).
  { unfold make_api_request in Hm.
    destruct (try_body _ _) as [v'|[e|e]]; [by simplify_eq| |].
    - destruct (handlers_catch "DELETE" (API_BASE +:+ "/" +:+ endpoint_of tok w)
                  (srv (length (requests (del_trace st))) (url_of tok w)) e)
        as (ev & Hh & _).
      rewrite Hh in Hm. simplify_eq.
      unfold handlers in Hh. destruct e; simpl in Hh; simplify_eq; done.
    - by rewrite handlers_miss in Hm. }
  destruct Hev as (Hdl & Hf & Hl & Hcl).
  destruct (api_truthy v); eexists; eexists;
    (split; [left; reflexivity|]);
    cbn [del_trace deleted_count failed_count]; (split; [reflexivity|]);
    unfold listed in *; unfold prompts, requests in *;
    rewrite !filter_app, !omap_app, Hdl, Hf, Hl, Hcl, Hr, Hp;
    fold (url_of tok w);
    simpl; repeat split; lia.
Qed.

(** The deletion loop, in full. *)
Lemma delete_waivers_steps (srv : server) (ws : list waiver) (st : tally) :
  exists st' new tried rest,
    ws = tried ++ rest
    /\ ((delete_waivers srv st ws = inl st' /\ rest = [])
        \/ exists e n url,
             delete_waivers srv st ws = inr (st', CrashReq (ByDecoder e))
             /\ decoder_raises "DELETE" (srv n url) = Some e)
    /\ del_trace st' = del_trace st ++ new
    /\ requests new = omap request_of tried
    /\ prompts new = [] /\ listed new = []
    /\ filter is_complete_line new = []
    /\ deleted_count st'
       = deleted_count st + length (filter is_deleted_line new)
    /\ failed_count st'
       = failed_count st + length (filter is_failure_line new)
    /\ length (filter is_deleted_line new) <= length (requests new)
    /\ (delete_waivers srv st ws = inl st' ->
        length (filter is_deleted_line new)
        + length (filter is_failure_line new) = length ws).
Proof.
  revert st. induction ws as [|w ws IH]; intros st.
  - exists st, [], [], []. simpl. rewrite app_nil_r.
    split; [done|]. split; [by left|]. repeat split; try done; lia.
  - cbn [delete_waivers].
    destruct (delete_waiver_step srv st w)
      as (st1 & n1 & Hend1 & Ht1 & Hr1 & Hp1 & Hl1 & Hc1 & Hd1 & Hf1 & Hle1
          & Hone).
    assert (Hreq : forall l, option_list (request_of w) ++ omap request_of l
                     = omap request_of (w :: l)).
    { intros l. cbn [omap list_omap]. by destruct (request_of w). }
    destruct Hend1 as [Hw|(e & n & url & Hw & Hraise)].
    + specialize (Hone Hw). rewrite Hw.
      destruct (IH st1)
        as (st2 & n2 & tried & rest & -> & Hend2 & Ht2 & Hr2 & Hp2 & Hl2 & Hc2
            & Hd2 & Hf2 & Hle2 & Hall).
      exists st2, (n1 ++ n2), (w :: tried), rest.
      split; [reflexivity|]. split; [exact Hend2|].
      rewrite Ht2, Ht1, <- app_assoc. split; [reflexivity|].
      unfold listed in *.
      rewrite !requests_app, !prompts_app, !filter_app, !omap_app,
        !length_app, Hr1, Hr2, Hp1, Hp2, Hl1, Hl2, Hc1, Hc2 in *.
      rewrite Hreq. cbn [length].
      do 4 (split; [done|]).
      split; [rewrite Hd2, Hd1; lia|]. split; [rewrite Hf2, Hf1; lia|].
      split; [lia|].
      intros H. specialize (Hall H). rewrite length_app. lia.
    + rewrite Hw. exists st1, n1, [w], ws. split; [reflexivity|].
      split; [right; by exists e, n, url|].
      rewrite <- (Hreq []), app_nil_r.
      do 8 (split; [done|]). discriminate.
Qed.

Lemma scan_trace_silent (clock : Datetime.datetime) (rows : list row) :
  let t := omap (row_event (now_utc clock)) rows in
  requests t = [] /\ prompts t = [] /\ outcomes t = [] /\ listed t = []
  /\ filter is_deleted_line t = [] /\ filter is_failure_line t = []
  /\ filter is_complete_line t = [].
Proof.
  cbv zeta. induction rows as [|r rows IH]; [done|].
  cbn [omap list_omap].
  destruct (row_event (now_utc clock) r) as [e|] eqn:E; [|exact IH].
  assert (He : (exists a b, e = EMarked a b) \/ (exists a b, e = EWarnUnparseable a b)).
  { unfold row_event in E. destruct (verdict_of _ _); simplify_eq; eauto. }
  destruct IH as (H1 & H2 & H3 & H4 & H5 & H6 & H7).
  unfold requests, prompts, outcomes, listed in *.
  rewrite !filter_cons. cbn [omap list_omap].
  destruct He as [(a & b & ->)|(a & b & ->)]; simpl;
    rewrite ?H1, ?H2, ?H3, ?H4, ?H5, ?H6, ?H7; done.
Qed.

Lemma listing_quiet (ws : list waiver) :
  filter is_deleted_line (map EListed ws) = []
  /\ filter is_failure_line (map EListed ws) = []
  /\ filter is_complete_line (map EListed ws) = []
  /\ listed (map EListed ws) = ws.
Proof.
  induction ws as [|w ws (H1 & H2 & H3 & H4)]; [done|].
  unfold listed in *. cbn [map omap list_omap]. rewrite !filter_cons.
  simpl. by rewrite H4.
Qed.

(** The script from the rows on, unfolded once: the first loop returns,
    and the deletion section runs on what it marked. *)
Lemma main_unfold (rows : list row) (clock : Datetime.datetime)
    (typed : option string) (srv : server) :
  main rows clock typed srv
  = deletion_section srv typed (expired_entries clock rows)
      (omap (row_event (now_utc clock)) rows).
Proof. unfold main. by rewrite scan_rows_from. Qed.

(** The ways a run goes from the rows on. With nothing marked it ends on
    the line of line 163. Otherwise everything up to the prompt is
    printed, and what follows ([tail]) is nothing (the input is at its
    end), the cancellation line, or the lines and requests of the loop,
    to its end or up to an exception of the decoder. *)
Lemma main_shape (rows : list row) (clock : Datetime.datetime)
    (typed : option string) (srv : server) :
  let ex := expired_entries clock rows in
  let scan := omap (row_event (now_utc clock)) rows in
  let o := main rows clock typed srv in
  (ex = [] /\ trace o = scan ++ [ENoExpired] /\ counts o = None
   /\ crashed o = None)
  \/ (ex <> []
      /\ exists tail rest,
           trace o = scan ++ [EFound (length ex)] ++ map EListed ex
                       ++ [EPrompt] ++ tail
           /\ prompts tail = [] /\ listed tail = []
           /\ planned typed ex = requests tail ++ rest
           /\ length (filter is_deleted_line tail) <= length (requests tail)
           /\ match counts o with
              | Some (d, f) =>
                  d = length (filter is_deleted_line tail)
                  /\ f = length (filter is_failure_line tail)
                  /\ d + f = length ex
                  /\ filter is_complete_line tail = [EComplete d f]
                  /\ crashed o = None /\ rest = []
              | None =>
                  filter is_complete_line tail = []
                  /\ match crashed o with
                     | None =>
                         tail = [ECancelled] /\ rest = []
                         /\ exists c, typed = Some c /\ confirmed c = false
                     | Some CrashInput => typed = None /\ tail = []
                     | Some (CrashReq e) =>
                         exists c d n url,
                           typed = Some c /\ confirmed c = true
                           /\ e = ByDecoder d
                           /\ decoder_raises "DELETE" (srv n url) = Some d
                     | Some (CrashPy _) => False
                     end
              end).
Proof.
  cbv zeta. rewrite main_unfold. unfold deletion_section, planned.
  destruct (expired_entries clock rows) as [|w ws] eqn:He; [by left|].
  rewrite <- He. right.
  assert (Hne : expired_entries clock rows <> []) by (by rewrite He).
  split; [done|].
  destruct typed as [c|].
  2:{ exists [], []. cbn [trace counts crashed]. rewrite !app_nil_r.
      by repeat split. }
  destruct (confirmed c) eqn:Hc.
  2:{ exists [ECancelled], []. cbn [trace counts crashed].
      rewrite <- !app_assoc. repeat split; try done. by exists c. }
  match goal with |- context [delete_waivers srv ?st ?l] =>
    destruct (delete_waivers_steps srv l st)
      as (st' & new & tried & rest & Hex & Hend & Ht & Hn & Hp & Hl & Hcl & Hd
          & Hf & Hle & Hall)
  end.
  cbn [del_trace deleted_count failed_count] in *.
  assert (Hpl : omap request_of (expired_entries clock rows)
                = omap request_of tried ++ omap request_of rest)
    by (by rewrite Hex, omap_app).
  destruct Hend as [(Hw & ->)|(e & n & url & Hw & Hraise)];
    [specialize (Hall Hw)|clear Hall]; rewrite Hw.
  - exists ([EProceeding] ++ new
              ++ [EComplete (deleted_count st') (failed_count st')]),
           [].
    cbn [trace counts crashed]. rewrite Ht, <- !app_assoc.
    unfold listed in *.
    rewrite !requests_app, !prompts_app, !filter_app, !omap_app, !length_app,
      Hn, Hp, Hl, Hcl.
    rewrite app_nil_r in Hex. rewrite <- Hex in *. simpl.
    rewrite !app_nil_r, ?Hd, ?Hf. rewrite Hn in Hle.
    repeat split; try done; lia.
  - exists ([EProceeding] ++ new), (omap request_of rest).
    cbn [trace counts crashed]. rewrite Ht, <- !app_assoc.
    unfold listed in *.
    rewrite !requests_app, !prompts_app, !filter_app, !omap_app, !length_app,
      Hn, Hp, Hl, Hcl.
    simpl. rewrite Hn in Hle. repeat split; try done.
    by exists c, e, n, url.
Qed.


(** X2. The requests of a run are an initial part of a list that is fixed
    before the first of them is sent: nothing unless the operator
    confirmed, and otherwise one DELETE for each marked row that has a
    known scope type and a scope id, in the order of the rows. No request
    is repeated, and a failed request stops none of the later ones: when
    the run is not ended by an exception, the whole list is sent. *)
Theorem main_requests (rows : list row) (clock : Datetime.datetime)
    (typed : option string) (srv : server) :
  let o := main rows clock typed srv in
  exists rest,
    planned typed (expired_entries clock rows) = requests (trace o) ++ rest
    /\ (crashed o = None -> rest = []).
Proof.
  cbv zeta.
  destruct (scan_trace_silent clock rows) as (Hr & _).
  destruct (listing_silent (expired_entries clock rows)) as (_ & Hl & _).
  destruct (main_shape rows clock typed srv)
    as [(He & -> & _)|(Hne & tail & rest & -> & _ & _ & Hpl & _ & H)].
  - exists []. rewrite He, requests_app, Hr.
    unfold planned. destruct typed as [c|]; [|done]. by destruct (confirmed c).
  - exists rest. rewrite !requests_app, Hr, Hl. split; [exact Hpl|].
    intros Hc. destruct (counts _) as [[d f]|].
    + by destruct H as (_ & _ & _ & _ & _ & ->).
    + destruct H as [_ H]. rewrite Hc in H. by destruct H as (_ & -> & _).
Qed.

(** The rows of a kind are rows of that kind. *)
Lemma rows_of_In (now : Datetime.datetime) (v : verdict) (rows : list row)
    (r : row) :
  In r (rows_of now v rows) -> In r rows /\ verdict_of now r = v.
Proof.
  unfold rows_of. rewrite <- !list_elem_of_In, list_elem_of_filter. tauto.
Qed.

Lemma planned_In (typed : option string) (ws : list waiver) (e : event) :
  e ∈ planned typed ws ->
  exists confirm w,
    typed = Some confirm /\ confirmed confirm = true
    /\ w ∈ ws /\ request_of w = Some e.
Proof.
  unfold planned. destruct typed as [c|]; [|by intros ?%elem_of_nil].
  destruct (confirmed c) eqn:Hc; [|by intros ?%elem_of_nil].
  intros (w & Hw & Hreq)%list_elem_of_omap. by exists c, w.
Qed.

(** Every request of a run is that of a row that the first loop marked,
    and the operator has confirmed. *)
Lemma requests_of_marked (rows : list row) (clock : Datetime.datetime)
    (typed : option string) (srv : server) (e : event) :
  e ∈ requests (trace (main rows clock typed srv)) ->
  exists confirm r,
    typed = Some confirm /\ confirmed confirm = true
    /\ In r (rows_of (now_utc clock) Expired rows)
    /\ request_of (entry_of r) = Some e.
Proof.
  intros He.
  destruct (scan_trace_silent clock rows) as (Hr & _).
  destruct (listing_silent (expired_entries clock rows)) as (_ & Hl & _).
  assert (Hin : e ∈ planned typed (expired_entries clock rows)).
  { destruct (main_shape rows clock typed srv)
      as [(_ & Ht & _)|(_ & tail & rest & Ht & _ & _ & Hpl & _)];
      rewrite Ht in He.
    - rewrite requests_app, Hr in He. by apply elem_of_nil in He.
    - rewrite !requests_app, Hr, Hl in He. rewrite Hpl.
      apply elem_of_app. by left. }
  apply planned_In in Hin as (c & w & -> & Hc & Hw & Hreq).
  unfold expired_entries in Hw.
  apply list_elem_of_In, in_map_iff in Hw as (r & <- & Hin).
  by exists c, r.
Qed.

(** The request of a marked row. *)
Lemma request_of_marked (now : Datetime.datetime) (r : row) (e : event) :
  verdict_of now r = Expired -> request_of (entry_of r) = Some e ->
  exists tok t,
    SCOPE_TYPE_MAP_get (scope_type r) = Some tok
    /\ e = ERequest "DELETE" (url_of tok (entry_of r))
    /\ parse_waiver_datetime (PStr (py_str (expiration_date r)))
       = Ret (Some t)
    /\ (Datetime.instant t < Datetime.instant now)%Z.
Proof.
  intros Hv Hreq.
  unfold request_of in Hreq. cbn [w_scope_type entry_of] in Hreq.
  destruct (SCOPE_TYPE_MAP_get (scope_type r)) as [tok|] eqn:Hs; [|done].
  destruct (_ || _); [done|]. simplify_eq.
  unfold verdict_of in Hv.
  destruct (pd_isna (expiration_date r)); [done|].
  destruct (parse_waiver_datetime _) as [[t|]|] eqn:Hp; try done.
  destruct (Z.ltb_spec (Datetime.instant t) (Datetime.instant now)); [|done].
  by exists tok, t.
Qed.

(** X3. The script never asks the server to delete a waiver that has not
    expired: every request of a run is a DELETE, sent after the operator
    confirmed, for a row of the table whose expiration date was read as an
    instant strictly before the current time. *)
Theorem requests_only_for_expired (rows : list row) (clock : Datetime.datetime)
    (typed : option string) (srv : server) :
  Forall (fun e =>
            exists r tok t confirm,
              In r rows
              /\ typed = Some confirm /\ confirmed confirm = true
              /\ SCOPE_TYPE_MAP_get (scope_type r) = Some tok
              /\ e = ERequest "DELETE" (url_of tok (entry_of r))
              /\ parse_waiver_datetime (PStr (py_str (expiration_date r)))
                 = Ret (Some t)
              /\ (Datetime.instant t < Datetime.instant (now_utc clock))%Z)
    (requests (trace (main rows clock typed srv))).
Proof.
  apply Forall_forall. intros e He.
  apply requests_of_marked in He as (c & r & -> & Hc & Hin & Hreq).
  apply rows_of_In in Hin as [Hin Hv].
  destruct (request_of_marked _ _ _ Hv Hreq) as (tok & t & Hs & -> & Hp & Hlt).
  by exists r, tok, t, c.
Qed.

(** X4. The operator is asked before anything is sent, and what is
    attempted is what was shown: with nothing marked there is no prompt;
    otherwise the trace has exactly one prompt, the marked entries are all
    listed before it and no request comes before it, and the requests
    after it are an initial part of those of the listed entries, all of
    them when the run is not ended by an exception. *)
Theorem prompt_before_requests (rows : list row) (clock : Datetime.datetime)
    (typed : option string) (srv : server) :
  let o := main rows clock typed srv in
  match expired_entries clock rows with
  | [] => prompts (trace o) = [] /\ requests (trace o) = []
  | _ :: _ =>
      exists before after rest,
        trace o = before ++ EPrompt :: after
        /\ requests before = [] /\ prompts before = []
        /\ listed before = expired_entries clock rows
        /\ prompts after = [] /\ listed after = []
        /\ planned typed (listed before) = requests after ++ rest
        /\ (crashed o = None -> rest = [])
  end.
Proof.
  cbv zeta.
  destruct (scan_trace_silent clock rows) as (Hr & Hp & _ & Hli & _).
  destruct (listing_silent (expired_entries clock rows)) as (_ & Hl & Hlp).
  destruct (listing_quiet (expired_entries clock rows)) as (_ & _ & _ & Hll).
  destruct (main_shape rows clock typed srv)
    as [(He & Ht & _)|(Hne & tail & rest & Ht & Hpt & Hlt & Hpl & _ & H)].
  - rewrite Ht, He, prompts_app, requests_app, Hr, Hp. done.
  - destruct (expired_entries clock rows) as [|w ws] eqn:He; [done|].
    rewrite <- He in *.
    exists (omap (row_event (now_utc clock)) rows
              ++ [EFound (length (expired_entries clock rows))]
              ++ map EListed (expired_entries clock rows)), tail, rest.
    rewrite Ht. unfold listed in *.
    rewrite !requests_app, !prompts_app, !omap_app, Hr, Hp, Hl, Hlp, Hli.
    cbn [omap list_omap app]. rewrite !Hll.
    rewrite <- !app_assoc. do 7 (split; [done|]).
    intros Hc. destruct (counts _) as [[d f]|].
    + by destruct H as (_ & _ & _ & _ & _ & ->).
    + destruct H as [_ H]. rewrite Hc in H. by destruct H as (_ & -> & _).
Qed.

(** X5. The summary agrees with what was printed and sent. There are at
    least as many requests as success lines. When the summary of line
    212 is printed, it is printed once and the run was not ended by an
    exception; its first counter is the number of success lines, its
    second the number of failure lines, and together they are the
    number of marked rows. When it is not printed and the run was not
    ended by an exception, there is no success line, no failure line and
    no request. *)
Theorem counts_match_trace (rows : list row) (clock : Datetime.datetime)
    (typed : option string) (srv : server) :
  let o := main rows clock typed srv in
  length (filter is_deleted_line (trace o)) <= length (requests (trace o))
  /\ match counts o with
     | Some (d, f) =>
         d = length (filter is_deleted_line (trace o))
         /\ f = length (filter is_failure_line (trace o))
         /\ d + f = length (expired_entries clock rows)
         /\ filter is_complete_line (trace o) = [EComplete d f]
         /\ crashed o = None
     | None =>
         filter is_complete_line (trace o) = []
         /\ (crashed o = None ->
             filter is_deleted_line (trace o) = []
             /\ filter is_failure_line (trace o) = []
             /\ requests (trace o) = [])
     end.
Proof.
  cbv zeta.
  destruct (scan_trace_silent clock rows) as (Hr & _ & _ & _ & Hd & Hf & Hc).
  destruct (listing_silent (expired_entries clock rows)) as (_ & Hl1 & _).
  destruct (listing_quiet (expired_entries clock rows)) as (Hl2 & Hl3 & Hl4 & _).
  destruct (main_shape rows clock typed srv)
    as [(He & Ht & -> & _)|(Hne & tail & rest & Ht & _ & _ & _ & Hle & H)];
    rewrite Ht; clear Ht.
  - rewrite requests_app, !filter_app, Hr, Hd, Hf, Hc. done.
  - rewrite !requests_app, !filter_app, !length_app, Hr, Hd, Hf, Hc, Hl1, Hl2,
      Hl3, Hl4.
    cbn [filter app length is_deleted_line is_failure_line is_complete_line
         is_request requests]. simpl.
    split; [exact Hle|].
    destruct (counts _) as [[d f]|].
    + destruct H as (-> & -> & Hsum & Hcl & Hcr & _). done.
    + destruct H as [Hcl H]. split; [done|]. intros Hcr. rewrite Hcr in H.
      by destruct H as (-> & _).
Qed.

(** ** The start of the script *)

Lemma cell_is_Some (labels : list string) (vals : list pyval) (label : string) :
  is_Some (cell labels vals label) <-> label ∈ labels.
Proof.
  revert vals. induction labels as [|l labels IH]; intros vals; simpl.
  - split; [by intros [? ?]|by intros ?%elem_of_nil].
  - rewrite elem_of_cons. destruct (String.eqb_spec l label) as [->|Hne].
    + split; [by left|by eexists].
    + rewrite IH. split; [by right|]. intros [->|H]; done.
Qed.

Lemma missing_cols_nil (df : frame) :
  missing_cols df = [] <-> Forall (fun col => col ∈ columns df) required_cols_list.
Proof.
  unfold missing_cols. rewrite Forall_forall. split.
  - intros H col Hc. destruct (decide (col ∈ columns df)) as [|Hn]; [done|].
    assert (col ∈ filter (fun c => c ∉ columns df) required_cols_list)
      by (by apply list_elem_of_filter).
    rewrite H in *. by apply elem_of_nil in H0.
  - intros H. induction required_cols_list as [|c cs IH]; [done|].
    rewrite filter_cons. destruct (decide (c ∉ columns df)) as [Hn|_].
    + destruct Hn. apply H. by left.
    + apply IH. intros col Hc. apply H. by right.
Qed.

Lemma row_of_is_Some (labels : list string) (vals : list pyval) :
  Forall (fun col => col ∈ labels) required_cols_list ->
  is_Some (row_of labels vals).
Proof.
  unfold required_cols_list. rewrite !Forall_cons.
  intros (H1 & H2 & H3 & H4 & _). unfold row_of.
  apply (cell_is_Some labels vals) in H1 as [? ->].
  apply (cell_is_Some labels vals) in H2 as [? ->].
  apply (cell_is_Some labels vals) in H3 as [? ->].
  apply (cell_is_Some labels vals) in H4 as [? ->].
  by eexists.
Qed.

Lemma start_of_Started (matching_files : list string)
    (read_csv : string -> option frame) (file : string) (total : nat)
    (rows : list row) :
  start_of matching_files read_csv = Started file total rows ->
  exists df,
    matching_files = [file] /\ read_csv file = Some df
    /\ total = length (cells df)
    /\ Forall2 (fun vals r => row_of (map Str.strip (columns df)) vals = Some r)
         (cells df) rows.
Proof.
  unfold start_of. destruct matching_files as [|f [|f2 fs]]; try done.
  destruct (read_csv f) as [df|] eqn:Hread; [|done]. cbv zeta.
  destruct (missing_cols (clean_columns df)); [|done].
  destruct (mapM _ _) as [rows'|] eqn:E; [|done].
  intros [= <- <- <-]. exists df. repeat split; [done|].
  by apply mapM_Some in E.
Qed.

(** X6. For a table whose labels are distinct once stripped: the loops
    are reached exactly when one file matched the pattern, it could be
    read, and the four required labels are among the stripped labels of
    its columns; in every other case the script has left with
    [sys.exit(1)]. Once the columns are checked no lookup of a cell
    fails, and every line of the file is read: the total that the script
    prints is the number of lines, and each line gives one row, its cells
    found under the stripped labels. *)
Theorem start_gate (matching_files : list string)
    (read_csv : string -> option frame) :
  (forall file df,
     read_csv file = Some df -> NoDup (map Str.strip (columns df))) ->
  ((exists file total rows,
      start_of matching_files read_csv = Started file total rows)
   <-> (exists file df,
          matching_files = [file] /\ read_csv file = Some df
          /\ Forall (fun col => col ∈ map Str.strip (columns df))
               required_cols_list))
  /\ (forall file, start_of matching_files read_csv <> LookupFailed file)
  /\ (forall file total rows,
        start_of matching_files read_csv = Started file total rows ->
        exists df,
          matching_files = [file] /\ read_csv file = Some df
          /\ total = length (cells df) /\ length rows = total
          /\ Forall2
               (fun vals r =>
                  row_of (map Str.strip (columns df)) vals = Some r)
               (cells df) rows).
Proof.
  intros _.
  assert (Hrows : forall df,
            missing_cols (clean_columns df) = [] ->
            exists rows,
              mapM (row_of (columns (clean_columns df))) (cells (clean_columns df))
              = Some rows /\ length rows = length (cells df)).
  { intros df Hm. apply missing_cols_nil in Hm.
    destruct (mapM (row_of (columns (clean_columns df))) (cells (clean_columns df)))
      as [rows|] eqn:E.
    - exists rows. split; [done|]. apply mapM_Some in E.
      apply Forall2_length in E. done.
    - exfalso. apply eq_None_not_Some in E. apply E, mapM_is_Some.
      apply Forall_forall. intros vals _. by apply row_of_is_Some. }
  split; [|split].
  3:{ intros file total rows H.
      destruct (start_of_Started _ _ _ _ _ H) as (df & Hm & Hr & Ht & Hf).
      exists df. repeat split; try done.
      apply Forall2_length in Hf. lia. }
  all: unfold start_of; destruct matching_files as [|file [|file2 files]].
  - split; [by intros (? & ? & ? & ?)|by intros (? & ? & ? & _)].
  - destruct (read_csv file) as [df|] eqn:Hread.
    + cbv zeta. destruct (missing_cols (clean_columns df)) as [|c cs] eqn:Hm.
      * destruct (Hrows df Hm) as (rows & -> & Hlen).
        split; [|by eauto]. intros _. exists file, df.
        by apply missing_cols_nil in Hm.
      * split; [by intros (? & ? & ? & ?)|].
        intros (f & df' & [= <-] & Hr & Hall).
        rewrite Hread in Hr. injection Hr as <-.
        apply (missing_cols_nil (clean_columns df)) in Hall. congruence.
    + split; [by intros (? & ? & ? & ?)|].
      intros (f & df' & [= <-] & Hr & _). congruence.
  - split; [by intros (? & ? & ? & ?)|by intros (? & ? & ? & _)].
  - done.
  - destruct (read_csv file) as [df|]; [|done]. cbv zeta.
    destruct (missing_cols (clean_columns df)) as [|c cs] eqn:Hm; [|done].
    by destruct (Hrows df Hm) as (rows & -> & Hlen).
  - done.
Qed.

(** The labels of [F1] are distinct once stripped. *)
Lemma read_F1_distinct (file : string) (df : frame) :
  read_F1 file = Some df -> NoDup (map Str.strip (columns df)).
Proof.
  intros [= <-]. refine (bool_decide_unpack _ _). by vm_compute.
Qed.

(** X6 at a directory with one file: its single line gives the row [R1],
    the labels padded and in another order than the script names them. *)
Lemma start_gate_witness :
  exists df,
    ["results-waivers-1.csv"] = ["results-waivers-1.csv"]
    /\ read_F1 "results-waivers-1.csv" = Some df
    /\ 1 = length (cells df) /\ length [R1] = 1
    /\ Forall2
         (fun vals r => row_of (map Str.strip (columns df)) vals = Some r)
         (cells df) [R1].
Proof.
  apply (start_gate ["results-waivers-1.csv"] read_F1 read_F1_distinct).
  reflexivity.
Defined.

Lemma lstrip_head (p : ascii -> bool) (s : string) :
  match Str.lstrip p s with
  | "" => True
  | String a _ => p a = false
  end.
Proof.
  induction s as [|a s IH]; [done|]. simpl. by destruct (p a) eqn:Ha.
Qed.

Lemma rstrip_last (p : ascii -> bool) (s : string) :
  match Str.last (Str.rstrip p s) with
  | Some c => p c = false
  | None => Str.rstrip p s = ""
  end.
Proof.
  induction s as [|a s IH]; [done|]. simpl.
  destruct (Str.rstrip p s) as [|b t] eqn:Hr.
  - by destruct (p a) eqn:Ha.
  - change (Str.last (String a (String b t))) with (Str.last (String b t)).
    destruct (Str.last (String b t)); [exact IH|discriminate IH].
Qed.

Lemma rstrip_keeps_head (p : ascii -> bool) (a : ascii) (t : string) :
  p a = false -> exists t', Str.rstrip p (String a t) = String a t'.
Proof.
  intros Ha. simpl. destruct (Str.rstrip p t); [rewrite Ha|]; eauto.
Qed.

(** Stripping a stripped string changes nothing. *)
Lemma strip_idempotent (s : string) : Str.strip (Str.strip s) = Str.strip s.
Proof.
  unfold Str.strip.
  assert (Hl : Str.lstrip Str.is_space (Str.rstrip Str.is_space (Str.lstrip Str.is_space s))
               = Str.rstrip Str.is_space (Str.lstrip Str.is_space s)).
  { pose proof (lstrip_head Str.is_space s) as Hh.
    destruct (Str.lstrip Str.is_space s) as [|a t]; [done|].
    destruct (rstrip_keeps_head Str.is_space a t Hh) as [t' ->].
    simpl. by rewrite Hh. }
  rewrite Hl.
  pose proof (rstrip_last Str.is_space (Str.lstrip Str.is_space s)) as Hr.
  destruct (Str.last _) as [c|] eqn:Hc.
  - by apply (rstrip_id _ _ c).
  - by rewrite Hr.
Qed.

(** X7. Only the stripped labels of the columns count: a table whose
    labels carry white space around them starts the script exactly as the
    table with the labels already stripped. *)
Theorem start_ignores_label_padding (matching_files : list string)
    (read_csv : string -> option frame) :
  start_of matching_files (fun file => clean_columns <$> read_csv file)
  = start_of matching_files read_csv.
Proof.
  assert (Hc : forall df, clean_columns (clean_columns df) = clean_columns df).
  { intros [cols cs]. unfold clean_columns. cbn [columns cells]. f_equal.
    rewrite map_map. apply map_ext. intros l. apply strip_idempotent. }
  unfold start_of. destruct matching_files as [|file [|? ?]]; try done.
  destruct (read_csv file) as [df|]; [|done]. cbn [fmap option_fmap option_map].
  cbv zeta. by rewrite Hc.
Qed.

Lemma cell_Some_zip (labels : list string) (vals : list pyval)
    (label : string) (v : pyval) :
  length vals = length labels -> NoDup labels ->
  cell labels vals label = Some v <-> (label, v) ∈ zip labels vals.
Proof.
  revert vals. induction labels as [|l labels IH]; intros [|x vals] Hlen Hnd;
    simpl in *; try lia.
  - split; [done|by intros ?%elem_of_nil].
  - apply NoDup_cons in Hnd as [Hl Hnd]. rewrite elem_of_cons.
    destruct (String.eqb_spec l label) as [->|Hne].
    + split; [intros [= ->]; by left|].
      intros [[= ->]|Hin]; [done|].
      apply elem_of_zip_l in Hin. done.
    + rewrite IH by (done || lia). split; [by right|].
      intros [[= -> ->]|H]; done.
Qed.

(** X8. The cells are found by label, not by position. For a line of a
    table with distinct labels that has the four required ones, the row
    holds under each required label the cell of that column; and a line
    that holds the same cells under the same labels, the columns in
    another order, gives the same row. *)
Theorem row_of_column_order (labels labels' : list string)
    (vals vals' : list pyval) :
  length vals = length labels -> length vals' = length labels' ->
  NoDup labels ->
  Forall (fun col => col ∈ labels) required_cols_list ->
  Permutation (zip labels vals) (zip labels' vals') ->
  exists r,
    row_of labels vals = Some r /\ row_of labels' vals' = Some r
    /\ (col_waiver_id, waiver_id r) ∈ zip labels vals
    /\ (col_expiry, expiration_date r) ∈ zip labels vals
    /\ (col_owner_type, scope_type r) ∈ zip labels vals
    /\ (col_owner_id, scope_id r) ∈ zip labels vals
    /\ (forall v, component_name r = Some v <->
                  (col_component, v) ∈ zip labels vals).
Proof.
  intros Hlen Hlen' Hnd Hreq Hperm.
  assert (Hnd' : NoDup labels').
  { rewrite <- (fst_zip labels' vals') by lia.
    rewrite <- Hperm. rewrite fst_zip by lia. done. }
  assert (Hcell : forall label,
            cell labels vals label = cell labels' vals' label).
  { intros label. apply option_eq. intros v.
    rewrite !cell_Some_zip by done. by rewrite Hperm. }
  destruct (row_of_is_Some labels vals Hreq) as [r Hr].
  exists r. split; [done|]. split; [unfold row_of in *; by rewrite <- !Hcell|].
  unfold row_of in Hr.
  destruct (cell labels vals col_waiver_id) as [c1|] eqn:E1; [|done].
  destruct (cell labels vals col_expiry) as [c2|] eqn:E2; [|done].
  destruct (cell labels vals col_owner_type) as [c3|] eqn:E3; [|done].
  destruct (cell labels vals col_owner_id) as [c4|] eqn:E4; [|done].
  injection Hr as <-.
  cbn [waiver_id expiration_date scope_type scope_id component_name].
  rewrite <- !cell_Some_zip by done. repeat split; try done.
  all: by rewrite cell_Some_zip.
Qed.

(** X8 at the line of [F1]: the row [R1], whether the columns stand as in
    the file or in the order in which the script names them. *)
Lemma row_of_column_order_witness :
  exists r,
    row_of ["Scope Id"; "Waiver Id"; "Expiration Date"; "Scope Type"]
      [PStr "app-42"; PStr "W1"; PStr "2020-01-01T00:00:00Z";
       PStr "application"] = Some r
    /\ row_of ["Waiver Id"; "Expiration Date"; "Scope Type"; "Scope Id"]
         [PStr "W1"; PStr "2020-01-01T00:00:00Z"; PStr "application";
          PStr "app-42"] = Some r
    /\ r = R1.
Proof.
  destruct (row_of_column_order
              ["Scope Id"; "Waiver Id"; "Expiration Date"; "Scope Type"]
              ["Waiver Id"; "Expiration Date"; "Scope Type"; "Scope Id"]
              [PStr "app-42"; PStr "W1"; PStr "2020-01-01T00:00:00Z";
               PStr "application"]
              [PStr "W1"; PStr "2020-01-01T00:00:00Z"; PStr "application";
               PStr "app-42"])
    as (r & Hr & Hr' & _).
  - reflexivity.
  - reflexivity.
  - refine (bool_decide_unpack _ _). by vm_compute.
  - refine (bool_decide_unpack _ _). by vm_compute.
  - apply Permutation_cons_app with (l1 := [_; _; _]) (l2 := []).
    rewrite app_nil_r. reflexivity.
  - exists r. split; [exact Hr|]. split; [exact Hr'|].
    vm_compute in Hr. by injection Hr as <-.
Defined.

(** ** What [parse_waiver_datetime] returns *)

Lemma new_valid (y m d h mi s us : Z) (tz : option Z) (dt : Datetime.datetime) :
  Datetime.new y m d h mi s us tz = Ret dt ->
  dt = Datetime.mk_datetime y m d h mi s us tz
  /\ Datetime.check_date_fields y m d = true
  /\ Datetime.check_time_fields h mi s us = true.
Proof.
  unfold Datetime.new.
  destruct (Datetime.check_date_fields y m d) eqn:Hd; [|discriminate].
  destruct (Datetime.check_time_fields h mi s us) eqn:Ht; [|discriminate].
  by intros [= <-].
Qed.

Lemma tzinfo_of_range (gm : option (Z * Z)) (tz : option Z) :
  tzinfo_of gm = Ret tz ->
  match tz with
  | Some off => (- Datetime.day_us < off < Datetime.day_us)%Z
  | None => True
  end.
Proof.
  unfold tzinfo_of. destruct gm as [off|]; [|by intros [= <-]].
  unfold Datetime.timezone.
  destruct (_ && _) eqn:Hr; cbn [res_bind]; [|discriminate].
  intros [= <-]. apply andb_true_iff in Hr as [H1 H2].
  apply Z.ltb_lt in H1, H2. done.
Qed.

Lemma strptime_valid (s fmt : string) (dt : Datetime.datetime) :
  strptime s fmt = Ret dt -> valid_datetime dt.
Proof.
  unfold strptime. destruct (pattern fmt) as [r|]; [|discriminate].
  destruct (rmatch r s) as [[rest g]|]; [|discriminate].
  destruct (negb _); [discriminate|].
  repeat match goal with
         | |- context [res_bind (field ?g ?n ?d) _] =>
             destruct (field g n d); cbn [res_bind]; [|discriminate]
         end.
  destruct (fraction g); cbn [res_bind]; [|discriminate].
  destruct (gmtoff_part g) as [gm|]; cbn [res_bind]; [|discriminate].
  destruct (negb _); [discriminate|].
  destruct (tzinfo_of gm) as [tz|] eqn:Etz; cbn [res_bind]; [|discriminate].
  intros (-> & Hd & Ht)%new_valid. apply tzinfo_of_range in Etz.
  by repeat split.
Qed.

(** X9. Whatever the function returns is a real date and time: the year
    from 1 to 9999, the day within its month, the time of day within its
    ranges, and a UTC offset strictly within 24 hours. For a string that
    ends in Z the offset is zero. *)
Theorem parse_waiver_datetime_valid (v : pyval) (dt : Datetime.datetime) :
  parse_waiver_datetime v = Ret (Some dt) ->
  valid_datetime dt
  /\ (exists off, Datetime.tzinfo dt = Some off)
  /\ (forall s, v = PStr s -> Str.endswith s "Z" = true ->
        Datetime.tzinfo dt = Some 0%Z).
Proof.
  destruct v as [| |s|tx b]; try discriminate.
  rewrite parse_waiver_datetime_str. intros H.
  assert (Hz : forall dt0, valid_datetime dt0 ->
            valid_datetime (Datetime.replace_tzinfo dt0 Datetime.utc)).
  { intros dt0 (Hd & Ht & _). repeat split; try done. }
  assert (Hcases :
    (Str.endswith s "Z" = true /\ exists dt0 fmt,
        strptime (Str.init s) fmt = Ret dt0
        /\ dt = Datetime.replace_tzinfo dt0 Datetime.utc)
    \/ (Str.endswith s "Z" = false
        /\ strptime s "%Y-%m-%dT%H:%M:%S%z" = Ret dt)).
  { unfold first_attempt, second_attempt in H.
    destruct (Str.endswith s "Z") eqn:Hend.
    - left. split; [done|].
      destruct (strptime (Str.init s) "%Y-%m-%dT%H:%M:%S") as [dt0|[]] eqn:E1;
        cbn [res_bind try_except_ValueError] in H; try discriminate.
      + injection H as <-. eauto.
      + destruct (strptime (Str.init s) "%Y-%m-%dT%H:%M:%S.%f") as [dt0|[]] eqn:E2;
          cbn [res_bind try_except_ValueError] in H; try discriminate.
        injection H as <-. eauto.
    - right. split; [done|].
      destruct (strptime s "%Y-%m-%dT%H:%M:%S%z") as [dt0|[]] eqn:E1;
        cbn [res_bind try_except_ValueError] in H; try discriminate.
      by injection H as <-. }
  destruct Hcases as [(Hend & dt0 & fmt & Hs & ->)|(Hend & Hs)].
  - apply strptime_valid in Hs. split; [by apply Hz|]. split; [by eexists|done].
  - split; [by eapply strptime_valid|]. split.
    + apply (strptime_returns _ _ _ _ pattern_Sz) in Hs as [_ Hs].
      apply Hs, re_Sz_must.
    + intros s' [= <-] Hend'. congruence.
Qed.

(** X9 at a time stamp that ends in Z. *)
Lemma parse_waiver_datetime_valid_witness :
  valid_datetime (Datetime.mk_datetime 2020 1 1 0 0 0 0 (Some 0%Z))
  /\ (exists off,
        Datetime.tzinfo (Datetime.mk_datetime 2020 1 1 0 0 0 0 (Some 0%Z))
        = Some off)
  /\ (forall s, PStr "2020-01-01T00:00:00Z" = PStr s ->
        Str.endswith s "Z" = true ->
        Datetime.tzinfo (Datetime.mk_datetime 2020 1 1 0 0 0 0 (Some 0%Z))
        = Some 0%Z).
Proof.
  apply (parse_waiver_datetime_valid (PStr "2020-01-01T00:00:00Z")).
  vm_compute. reflexivity.
Defined.

(** ** The directives, exactly *)

Lemma exact_m (n : Z) : (0 <= n <= 99)%Z -> exact_pad2 "m" re_m ok_m n.
Proof.
  intros Hn. apply (upto_cases 100 (exact_pad2 "m" re_m ok_m)); [|lia].
  clear n Hn. intros n Hn.
  do 100 (destruct n as [|n];
          [intros R rest acc g k Hk; unfold rejects_digits in Hk; vm_compute;
           rewrite ?Hk by reflexivity; try reflexivity;
           by destruct (k _ _ _)|]).
  lia.
Qed.

Lemma exact_d (n : Z) : (0 <= n <= 99)%Z -> exact_pad2 "d" re_d ok_d n.
Proof.
  intros Hn. apply (upto_cases 100 (exact_pad2 "d" re_d ok_d)); [|lia].
  clear n Hn. intros n Hn.
  do 100 (destruct n as [|n];
          [intros R rest acc g k Hk; unfold rejects_digits in Hk; vm_compute;
           rewrite ?Hk by reflexivity; try reflexivity;
           by destruct (k _ _ _)|]).
  lia.
Qed.

Lemma exact_H (n : Z) : (0 <= n <= 99)%Z -> exact_pad2 "H" re_H ok_H n.
Proof.
  intros Hn. apply (upto_cases 100 (exact_pad2 "H" re_H ok_H)); [|lia].
  clear n Hn. intros n Hn.
  do 100 (destruct n as [|n];
          [intros R rest acc g k Hk; unfold rejects_digits in Hk; vm_compute;
           rewrite ?Hk by reflexivity; try reflexivity;
           by destruct (k _ _ _)|]).
  lia.
Qed.

Lemma exact_M (n : Z) : (0 <= n <= 99)%Z -> exact_pad2 "M" re_M ok_M n.
Proof.
  intros Hn. apply (upto_cases 100 (exact_pad2 "M" re_M ok_M)); [|lia].
  clear n Hn. intros n Hn.
  do 100 (destruct n as [|n];
          [intros R rest acc g k Hk; unfold rejects_digits in Hk; vm_compute;
           rewrite ?Hk by reflexivity; try reflexivity;
           by destruct (k _ _ _)|]).
  lia.
Qed.

Lemma exact_S (n : Z) : (0 <= n <= 99)%Z -> exact_pad2 "S" re_S2 ok_S n.
Proof.
  intros Hn. apply (upto_cases 100 (exact_pad2 "S" re_S2 ok_S)); [|lia].
  clear n Hn. intros n Hn.
  do 100 (destruct n as [|n];
          [intros R rest acc g k Hk; unfold rejects_digits in Hk; vm_compute;
           rewrite ?Hk by reflexivity; try reflexivity;
           by destruct (k _ _ _)|]).
  lia.
Qed.

(** At the end of the format, where nothing follows that could fail, the
    directive S takes two digits up to 61 and otherwise the first digit
    alone. *)
Lemma run_S_last (n : Z) (rest acc : string) (g : groups) :
  (0 <= n <= 99)%Z ->
  run re_S2 (pad2 n +:+ rest) acc g (fun s' _ g' => Some (s', g'))
  = Some (if ok_S n then (rest, ("S", pad2 n) :: g)
          else (String (digit (n mod 10)) rest,
                ("S", String (digit (n / 10)) "") :: g)).
Proof.
  intros Hn. revert rest acc g.
  apply (upto_cases 100
           (fun n => forall rest acc g,
              run re_S2 (pad2 n +:+ rest) acc g (fun s' _ g' => Some (s', g'))
              = Some (if ok_S n then (rest, ("S", pad2 n) :: g)
                      else (String (digit (n mod 10)) rest,
                            ("S", String (digit (n / 10)) "") :: g))));
    [|lia].
  clear n Hn. intros n Hn.
  do 100 (destruct n as [|n]; [intros rest acc g; reflexivity|]).
  lia.
Qed.

(** A literal that is not a digit rejects the digits. *)
Lemma char_i_digit (c a : ascii) :
  Str.is_digit (Str.upper_char c) = false -> Str.is_digit a = true ->
  char_i c a = false.
Proof.
  intros Hc Ha. unfold char_i.
  assert (Hu : Str.upper_char a = a).
  { revert Ha. by destruct a as [[] [] [] [] [] [] [] []]. }
  rewrite Hu. destruct (Ascii.eqb_spec (Str.upper_char c) a) as [E|]; [|done].
  rewrite E in Hc. congruence.
Qed.

Lemma LitI_rejects_digits {R} (c : ascii) (r : re)
    (k : string -> string -> groups -> option R) :
  Str.is_digit (Str.upper_char c) = false ->
  rejects_digits (fun s acc g => run (Seq (LitI c) r) s acc g k).
Proof.
  intros Hc a s acc g Ha. cbn [run]. apply one_miss. by apply char_i_digit.
Qed.

Ltac rejects_lit :=
  let a := fresh "a" in let s := fresh "s" in let acc := fresh "acc" in
  let g := fresh "g" in let Ha := fresh "Ha" in
  intros a s acc g Ha; apply one_miss; by apply char_i_digit.

(** The shared part of the three formats on a text of padded fields: the
    match goes on to the seconds exactly when month, day, hour and minute
    are of those that their expressions take. *)
Lemma run_chain_exact {R} (y m d h mi s : Z) (tail : re) (rest : string)
    (k : string -> string -> groups -> option R) :
  digit_fields y m d h mi s ->
  exists acc,
    run (chain tail) (iso y m d h mi s +:+ rest) "" [] k
    = if ok_m m && ok_d d && ok_H h && ok_M mi
      then run re_S2 (pad2 s +:+ rest) acc (minute_groups y m d h mi)
             (fun s' acc' g' => run tail s' acc' g' k)
      else None.
Proof.
  intros (Hy & Hm & Hd & Hh & Hmi & Hs). eexists.
  pose proof (exact_m m Hm) as Em. pose proof (exact_d d Hd) as Ed.
  pose proof (exact_H h Hh) as Eh. pose proof (exact_M mi Hmi) as Emi.
  unfold exact_pad2 in *.
  unfold chain, iso. rewrite !append_assoc. cbn [run].
  rewrite run_Y by done. cbn [String.append].
  rewrite one_hit by reflexivity. rewrite Em by rejects_lit.
  destruct (ok_m m); [|reflexivity]. cbn [String.append andb].
  rewrite one_hit by reflexivity. rewrite Ed by rejects_lit.
  destruct (ok_d d); [|reflexivity]. cbn [String.append andb].
  rewrite one_hit by reflexivity. rewrite Eh by rejects_lit.
  destruct (ok_H h); [|reflexivity]. cbn [String.append andb].
  rewrite one_hit by reflexivity. rewrite Emi by rejects_lit.
  destruct (ok_M mi); [|reflexivity]. cbn [String.append andb].
  rewrite one_hit by reflexivity. reflexivity.
Qed.

Lemma rmatch_S_exact (y m d h mi s : Z) (rest : string) :
  digit_fields y m d h mi s ->
  rmatch re_S (iso y m d h mi s +:+ rest)
  = if ok_m m && ok_d d && ok_H h && ok_M mi
    then Some (if ok_S s then (rest, date_groups y m d h mi s)
               else (String (digit (s mod 10)) rest,
                     ("S", String (digit (s / 10)) "")
                     :: minute_groups y m d h mi))
    else None.
Proof.
  intros Hr. unfold rmatch. rewrite re_S_chain.
  destruct (run_chain_exact y m d h mi s Eps rest
              (fun s' _ g => Some (s', g)) Hr) as [acc ->].
  destruct (ok_m m && ok_d d && ok_H h && ok_M mi); [|reflexivity].
  etransitivity; [apply run_S_last; apply Hr|]. reflexivity.
Qed.

(** The fields that [strptime] reads from the groups of a date, whatever
    the two digits are. *)
Lemma date_fields_wide (y m d h mi s : Z) (extra : groups) :
  digit_fields y m d h mi s ->
  (forall n, In n ["Y"; "m"; "d"; "H"; "M"; "S"] -> group extra n = None) ->
  let g := extra ++ date_groups y m d h mi s in
  field g "Y" 1900 = Ret y /\ field g "m" 1 = Ret m /\ field g "d" 1 = Ret d
  /\ field g "H" 0 = Ret h /\ field g "M" 0 = Ret mi /\ field g "S" 0 = Ret s.
Proof.
  intros (Hy & Hm & Hd & Hh & Hmi & Hs) He. cbv zeta.
  assert (Hg : forall n, In n ["Y"; "m"; "d"; "H"; "M"; "S"] ->
            group (extra ++ date_groups y m d h mi s) n
            = group (date_groups y m d h mi s) n).
  { intros n Hn. specialize (He n Hn). clear Hn.
    induction extra as [|[a b] extra IH]; [done|]. simpl in *.
    destruct (String.eqb a n); [done|]. by apply IH. }
  unfold field. rewrite !Hg by (simpl; tauto). cbn.
  rewrite int_pad4, !int_pad2 by lia. done.
Qed.

Lemma new_invalid (y m d h mi s us : Z) (tz : option Z) :
  valid_fields y m d h mi s us = false ->
  Datetime.new y m d h mi s us tz = Raise ValueError.
Proof. unfold valid_fields, Datetime.new. by intros ->. Qed.

(** The first format on a text of padded fields: the object when the
    fields are those of a date and a time of day, ValueError otherwise. *)
Lemma strptime_S_iso (y m d h mi s : Z) :
  digit_fields y m d h mi s ->
  strptime (iso y m d h mi s) "%Y-%m-%dT%H:%M:%S"
  = if valid_fields y m d h mi s 0
    then Ret (Datetime.mk_datetime y m d h mi s 0 None)
    else Raise ValueError.
Proof.
  intros Hr. destruct (valid_fields y m d h mi s 0) eqn:Hv.
  { apply andb_true_iff in Hv as [Hd Ht]. by apply strptime_S. }
  unfold strptime. rewrite pattern_S.
  rewrite <- (append_nil_r (iso y m d h mi s)), rmatch_S_exact by done.
  destruct (ok_m m && ok_d d && ok_H h && ok_M mi); [|reflexivity].
  destruct (ok_S s); [|reflexivity].
  cbn [negb String.eqb].
  pose proof (date_fields_wide y m d h mi s [] Hr) as Hf.
  cbv zeta in Hf. cbn [app] in Hf.
  destruct Hf as (-> & -> & -> & -> & -> & ->); [done|].
  cbn [res_bind]. unfold fraction. cbn.
  destruct (Datetime.check_date_fields y m d); [|reflexivity].
  cbn. by apply new_invalid.
Qed.

Lemma strptime_S_rest_wide (y m d h mi s : Z) (a : ascii) (rest : string) :
  digit_fields y m d h mi s ->
  strptime (iso y m d h mi s +:+ String a rest) "%Y-%m-%dT%H:%M:%S"
  = Raise ValueError.
Proof.
  intros Hr. unfold strptime. rewrite pattern_S, rmatch_S_exact by done.
  destruct (ok_m m && ok_d d && ok_H h && ok_M mi); [|reflexivity].
  by destruct (ok_S s).
Qed.

Lemma char_i_other (c a : ascii) :
  Str.is_lower c = false -> Str.in_range "A" "Z" c = false ->
  Ascii.eqb a c = false -> char_i c a = false.
Proof.
  intros Hl Hu Hne. unfold char_i, Str.upper_char. rewrite Hl.
  destruct (Str.is_lower a) eqn:Ha.
  - destruct (Ascii.eqb_spec c (ascii_of_nat (Str.code a - 32))) as [E|]; [|done].
    exfalso. rewrite E in Hu. revert Ha Hu. clear.
    by destruct a as [[] [] [] [] [] [] [] []].
  - rewrite Ascii.eqb_sym. exact Hne.
Qed.

(** The third format wants a point after the seconds. *)
Lemma rmatch_Sf_nodot (y m d h mi s : Z) (rest : string) :
  digit_fields y m d h mi s -> Str.startswith rest "." = false ->
  rmatch re_Sf (iso y m d h mi s +:+ rest) = None.
Proof.
  intros Hr Hdot. unfold rmatch. rewrite re_Sf_chain.
  destruct (run_chain_exact y m d h mi s
              (Seq (LitI ".") (Seq (Grp "f" (upto 5 (Rng "0" "9"))) Eps)) rest
              (fun s' _ g => Some (s', g)) Hr) as [acc ->].
  destruct (ok_m m && ok_d d && ok_H h && ok_M mi); [|reflexivity].
  pose proof (exact_S s ltac:(unfold digit_fields in Hr; lia)) as Es.
  unfold exact_pad2 in Es. rewrite Es by (by apply LitI_rejects_digits).
  destruct (ok_S s); [|reflexivity].
  cbn [run]. destruct rest as [|a rest]; [reflexivity|].
  apply one_miss. by apply char_i_other.
Qed.

Lemma strptime_Sf_nodot (y m d h mi s : Z) (rest : string) :
  digit_fields y m d h mi s -> Str.startswith rest "." = false ->
  strptime (iso y m d h mi s +:+ rest) "%Y-%m-%dT%H:%M:%S.%f"
  = Raise ValueError.
Proof.
  intros Hr Hdot. unfold strptime. by rewrite pattern_Sf, rmatch_Sf_nodot.
Qed.

(** ** The fraction of a second *)

Lemma digit_val_range (a : ascii) :
  Str.is_digit a = true -> (0 <= Str.digit_val a <= 9)%Z.
Proof.
  destruct a as [[] [] [] [] [] [] [] []];
    (discriminate || (vm_compute; intuition discriminate)).
Qed.

Lemma digits_val_app (u v : string) (acc : Z) :
  Str.digits_val acc (u +:+ v) = Str.digits_val (Str.digits_val acc u) v.
Proof. revert acc. induction u as [|a u IH]; intros acc; [done|]. apply IH. Qed.

Lemma digits_val_zeros (n : nat) (acc : Z) :
  Str.digits_val acc (Str.repeat "0" n) = (acc * 10 ^ Z.of_nat n)%Z.
Proof.
  revert acc. induction n as [|n IH]; intros acc.
  - simpl. lia.
  - cbn [Str.repeat Str.digits_val]. rewrite IH.
    change (Str.digit_val "0") with 0%Z.
    rewrite Nat2Z.inj_succ, Z.pow_succ_r by lia. lia.
Qed.

Lemma digits_val_bound (u : string) (acc : Z) :
  Str.all Str.is_digit u = true -> (0 <= acc)%Z ->
  (acc * 10 ^ Z.of_nat (String.length u) <= Str.digits_val acc u
   < (acc + 1) * 10 ^ Z.of_nat (String.length u))%Z.
Proof.
  revert acc. induction u as [|a u IH]; intros acc Hu Hacc.
  - simpl. lia.
  - cbn [Str.all] in Hu. apply andb_true_iff in Hu as [Ha Hu].
    pose proof (digit_val_range a Ha) as Hr.
    cbn [Str.digits_val String.length].
    specialize (IH (10 * acc + Str.digit_val a)%Z Hu ltac:(lia)).
    rewrite Nat2Z.inj_succ, Z.pow_succ_r by lia.
    assert (0 < 10 ^ Z.of_nat (String.length u))%Z by (apply Z.pow_pos_nonneg; lia).
    nia.
Qed.

Lemma all_app (p : ascii -> bool) (u v : string) :
  Str.all p (u +:+ v) = Str.all p u && Str.all p v.
Proof.
  induction u as [|a u IH]; [done|]. cbn [String.append Str.all].
  by rewrite IH, andb_assoc.
Qed.

Lemma all_repeat (p : ascii -> bool) (a : ascii) (n : nat) :
  p a = true -> Str.all p (Str.repeat a n) = true.
Proof. intros Ha. induction n as [|n IH]; [done|]. simpl. by rewrite Ha. Qed.

Lemma length_repeat (a : ascii) (n : nat) : String.length (Str.repeat a n) = n.
Proof. induction n as [|n IH]; [done|]. simpl. by rewrite IH. Qed.

Lemma take_all (n : nat) (t : string) :
  (String.length t <= n)%nat -> Str.take n t = t.
Proof.
  revert n. induction t as [|a t IH]; intros [|n] H; simpl in *; try done; try lia.
  f_equal. apply IH. lia.
Qed.

Lemma drop_all (n : nat) (t : string) :
  (String.length t <= n)%nat -> Str.drop n t = "".
Proof.
  revert n. induction t as [|a t IH]; intros [|n] H; simpl in *; try done; try lia.
  apply IH. lia.
Qed.

Lemma drop_some (n : nat) (t : string) :
  (n < String.length t)%nat -> Str.drop n t <> "".
Proof.
  revert n. induction t as [|a t IH]; intros [|n] H; simpl in *; try done; try lia.
  apply IH. lia.
Qed.

(** The padded fraction as a number of microseconds. *)
Lemma fraction_digits (t : string) (g : groups) :
  Str.all Str.is_digit t = true -> t <> "" -> (String.length t <= 6)%nat ->
  let us := (Str.digits_val 0 t * 10 ^ Z.of_nat (6 - String.length t))%Z in
  fraction (("f", t) :: g) = Ret us /\ (0 <= us <= 999999)%Z.
Proof.
  intros Ht Hne Hlen. cbv zeta. unfold fraction.
  cbn [group String.eqb Ascii.eqb Bool.eqb].
  rewrite int_digits.
  - rewrite digits_val_app, digits_val_zeros. split; [done|].
    pose proof (digits_val_bound t 0 Ht ltac:(lia)) as Hb.
    assert (Hp : (10 ^ Z.of_nat (String.length t)
                  * 10 ^ Z.of_nat (6 - String.length t) = 1000000)%Z).
    { rewrite <- Z.pow_add_r by lia.
      replace (Z.of_nat (String.length t) + Z.of_nat (6 - String.length t))%Z
        with 6%Z by lia. reflexivity. }
    assert (0 < 10 ^ Z.of_nat (6 - String.length t))%Z
      by (apply Z.pow_pos_nonneg; lia).
    nia.
  - rewrite all_app, Ht. by apply all_repeat.
  - by destruct t.
Qed.

(** At the end of the format the directive f takes up to six digits. *)
Lemma run_f_last (t acc : string) (g : groups) :
  Str.all Str.is_digit t = true -> t <> "" ->
  run (Grp "f" (upto 5 (Rng "0" "9"))) t acc g (fun s' _ g' => Some (s', g'))
  = Some (Str.drop 6 t, ("f", Str.take 6 t) :: g).
Proof.
  intros Ht Hne. unfold Str.is_digit in Ht.
  destruct t as [|a1 t]; [done|]. clear Hne.
  cbn [Str.all] in Ht. apply andb_true_iff in Ht as [H1 Ht].
  cbn [upto run one orelse]. rewrite H1.
  destruct t as [|a2 t]; [reflexivity|].
  cbn [Str.all] in Ht. apply andb_true_iff in Ht as [H2 Ht].
  cbn [upto run one orelse]. rewrite H2.
  destruct t as [|a3 t]; [reflexivity|].
  cbn [Str.all] in Ht. apply andb_true_iff in Ht as [H3 Ht].
  cbn [upto run one orelse]. rewrite H3.
  destruct t as [|a4 t]; [reflexivity|].
  cbn [Str.all] in Ht. apply andb_true_iff in Ht as [H4 Ht].
  cbn [upto run one orelse]. rewrite H4.
  destruct t as [|a5 t]; [reflexivity|].
  cbn [Str.all] in Ht. apply andb_true_iff in Ht as [H5 Ht].
  cbn [upto run one orelse]. rewrite H5.
  destruct t as [|a6 t]; [reflexivity|].
  cbn [Str.all] in Ht. apply andb_true_iff in Ht as [H6 Ht].
  cbn [upto run one orelse]. rewrite H6.
  reflexivity.
Qed.

Lemma valid_ok (y m d h mi s us : Z) :
  valid_fields y m d h mi s us = true ->
  ok_m m && ok_d d && ok_H h && ok_M mi = true /\ ok_S s = true.
Proof.
  intros [Hd Ht]%andb_true_iff.
  destruct (check_ranges _ _ _ _ _ _ _ Hd Ht) as [(Hy & Hm & Hd' & Hh & Hmi & Hs) _].
  unfold ok_m, ok_d, ok_H, ok_M, ok_S.
  rewrite !andb_true_iff, !Z.leb_le. lia.
Qed.

Lemma valid_fields_us (y m d h mi s us : Z) :
  (0 <= us <= 999999)%Z ->
  valid_fields y m d h mi s us = valid_fields y m d h mi s 0.
Proof.
  intros Hus. unfold valid_fields, Datetime.check_time_fields. f_equal.
  assert (E : ((0 <=? us) && (us <=? 999999))%Z = true)
    by (rewrite andb_true_iff, !Z.leb_le; lia).
  rewrite <- !andb_assoc. rewrite E. reflexivity.
Qed.

Lemma rmatch_Sf_exact (y m d h mi s : Z) (t : string) :
  digit_fields y m d h mi s ->
  Str.all Str.is_digit t = true -> t <> "" ->
  rmatch re_Sf (iso y m d h mi s +:+ "." +:+ t)
  = if ok_m m && ok_d d && ok_H h && ok_M mi && ok_S s
    then Some (Str.drop 6 t, ("f", Str.take 6 t) :: date_groups y m d h mi s)
    else None.
Proof.
  intros Hr Ht Hne. unfold rmatch. rewrite re_Sf_chain.
  destruct (run_chain_exact y m d h mi s
              (Seq (LitI ".") (Seq (Grp "f" (upto 5 (Rng "0" "9"))) Eps))
              ("." +:+ t) (fun s' _ g => Some (s', g)) Hr) as [acc ->].
  destruct (ok_m m && ok_d d && ok_H h && ok_M mi); [|reflexivity].
  pose proof (exact_S s ltac:(unfold digit_fields in Hr; lia)) as Es.
  unfold exact_pad2 in Es. rewrite Es by (by apply LitI_rejects_digits).
  destruct (ok_S s); [|reflexivity]. cbn [andb].
  cbn [run String.append]. rewrite one_hit by reflexivity.
  etransitivity; [exact (run_f_last t "" _ Ht Hne)|]. reflexivity.
Qed.

(** The third format on padded fields and a fraction of digits: the
    object when the fields are valid and the digits at most six. *)
Lemma strptime_Sf_exact (y m d h mi s : Z) (t : string) :
  digit_fields y m d h mi s ->
  Str.all Str.is_digit t = true -> t <> "" ->
  strptime (iso y m d h mi s +:+ "." +:+ t) "%Y-%m-%dT%H:%M:%S.%f"
  = if valid_fields y m d h mi s 0 && (String.length t <=? 6)%nat
    then Ret (Datetime.mk_datetime y m d h mi s
                (Str.digits_val 0 t * 10 ^ Z.of_nat (6 - String.length t))
                None)
    else Raise ValueError.
Proof.
  intros Hr Ht Hne. unfold strptime.
  rewrite pattern_Sf, rmatch_Sf_exact by done.
  destruct (ok_m m && ok_d d && ok_H h && ok_M mi && ok_S s) eqn:Hok.
  2:{ destruct (valid_fields y m d h mi s 0) eqn:Hv; [|reflexivity].
      apply valid_ok in Hv as [H1 H2]. rewrite H1, H2 in Hok. discriminate. }
  destruct (Nat.leb_spec (String.length t) 6) as [Hlen|Hlen].
  2:{ rewrite andb_false_r.
      pose proof (drop_some 6 t Hlen) as Hd.
      destruct (Str.drop 6 t); [done|reflexivity]. }
  rewrite andb_true_r, drop_all, take_all by done.
  cbn [negb String.eqb].
  pose proof (date_fields_wide y m d h mi s [("f", t)] Hr) as Hg.
  cbv zeta in Hg. cbn [app] in Hg.
  destruct Hg as (-> & -> & -> & -> & -> & ->).
  { intros n Hn. simpl in Hn. simpl.
    repeat (destruct Hn as [<-|Hn]; [reflexivity|]). done. }
  cbn [res_bind].
  destruct (fraction_digits t (date_groups y m d h mi s) Ht Hne Hlen)
    as [-> Hus].
  cbn [res_bind].
  unfold gmtoff_part, date_groups.
  cbn [group String.eqb Ascii.eqb Bool.eqb]. cbn [res_bind].
  rewrite <- (valid_fields_us y m d h mi s _ Hus).
  unfold valid_fields at 1.
  destruct (Datetime.check_date_fields y m d) eqn:Hd; [|reflexivity].
  cbn [negb andb tzinfo_of res_bind].
  unfold Datetime.new. rewrite Hd. cbn [andb].
  by destruct (Datetime.check_time_fields _ _ _ _).
Qed.

(** ** The offset *)

Lemma z_rejects_digits {R} (k : string -> string -> groups -> option R) :
  rejects_digits (fun s acc g => run (Seq (Grp "z" re_z) Eps) s acc g k).
Proof.
  intros a s acc g Ha.
  destruct a as [[] [] [] [] [] [] [] []]; try discriminate Ha; reflexivity.
Qed.

(** The directive z at the end of the format, on a sign, two digits, the
    colon or not, and two more characters of which the last is a digit. *)
Lemma run_z_last (colon negative : bool) (c e a b : ascii) (acc : string)
    (g : groups) :
  Str.is_digit c = true -> Str.is_digit e = true -> Str.is_digit a = true ->
  Str.is_digit b = true ->
  let z := String (if negative then "-" else "+")%char
             (String c (String e
                ((if colon then ":" else "") +:+ String a (String b "")))) in
  run (Seq (Grp "z" re_z) Eps) z acc g (fun s' _ g' => Some (s', g'))
  = if Str.in_range "0" "5" a then Some ("", ("z", z) :: g) else None.
Proof.
  intros Hc He Ha Hb. cbv zeta.
  assert (Hcolon : Ascii.eqb ":" a = false).
  { revert Ha. clear. by destruct a as [[] [] [] [] [] [] [] []]. }
  unfold re_z.
  destruct (Str.in_range "0" "5" a) eqn:H5;
    destruct negative, colon; cbn [run upto String.append];
    repeat first [rewrite one_hit by (reflexivity || assumption)
                 |rewrite one_miss by (reflexivity || assumption)
                 |progress cbn [orelse one]];
    reflexivity.
Qed.

Lemma digit_not_colon (d : Z) :
  (0 <= d < 10)%Z -> Ascii.eqb (digit d) ":" = false.
Proof.
  intros Hd.
  by apply (digit_cases d (fun d => Ascii.eqb (digit d) ":" = false)).
Qed.

Lemma digit_upto_5_iff (n : Z) :
  (0 <= n <= 99)%Z -> Str.in_range "0" "5" (digit (n / 10)) = (n <=? 59)%Z.
Proof.
  intros Hn.
  assert (Hd : (0 <= n / 10 < 10)%Z) by div_lia.
  assert (E : (n <=? 59)%Z = (n / 10 <=? 5)%Z).
  { destruct (Z.leb_spec n 59), (Z.leb_spec (n / 10) 5); try done; div_lia. }
  rewrite E.
  by apply (digit_cases (n / 10)
              (fun d => Str.in_range "0" "5" (digit d) = (d <=? 5)%Z)).
Qed.

Lemma gmtoff_offset_text (colon negative : bool) (oh om : Z) :
  (0 <= oh <= 99)%Z -> (0 <= om <= 99)%Z ->
  gmtoff_of (offset_text colon negative oh om)
  = Ret (((if negative then -1 else 1) * (oh * 3600 + om * 60))%Z, 0%Z).
Proof.
  intros Hoh Hom. unfold gmtoff_of, offset_text, pad2.
  assert (Hz : String.eqb
            (String (if negative then "-" else "+")%char
               (String (digit (oh / 10)) (String (digit (oh mod 10)) "")
                +:+ (if colon then ":" else "") +:+
                String (digit (om / 10)) (String (digit (om mod 10)) "")))
            "Z" = false) by (by destruct negative).
  rewrite Hz. clear Hz.
  destruct colon; unfold without_colons, index; cbn.
  - unfold offset_fields. cbn.
    change (String (digit (oh / 10)) (String (digit (oh mod 10)) ""))
      with (pad2 oh).
    change (String (digit (om / 10)) (String (digit (om mod 10)) ""))
      with (pad2 om).
    rewrite !int_pad2 by lia. cbn [res_bind].
    change (Str.int "000000") with (@Ret Z 0%Z). cbn [res_bind].
    destruct negative; cbn; do 2 f_equal; lia.
  - rewrite digit_not_colon by div_lia.
    unfold offset_fields. cbn.
    change (String (digit (oh / 10)) (String (digit (oh mod 10)) ""))
      with (pad2 oh).
    change (String (digit (om / 10)) (String (digit (om mod 10)) ""))
      with (pad2 om).
    rewrite !int_pad2 by lia. cbn [res_bind].
    change (Str.int "000000") with (@Ret Z 0%Z). cbn [res_bind].
    destruct negative; cbn; do 2 f_equal; lia.
Qed.

Lemma rmatch_Sz_exact (y m d h mi s : Z) (colon negative : bool) (oh om : Z) :
  digit_fields y m d h mi s -> (0 <= oh <= 99)%Z -> (0 <= om <= 99)%Z ->
  rmatch re_Sz (iso y m d h mi s +:+ offset_text colon negative oh om)
  = if ok_m m && ok_d d && ok_H h && ok_M mi && ok_S s && (om <=? 59)%Z
    then Some ("", ("z", offset_text colon negative oh om)
                   :: date_groups y m d h mi s)
    else None.
Proof.
  intros Hr Hoh Hom. unfold rmatch. rewrite re_Sz_chain.
  destruct (run_chain_exact y m d h mi s (Seq (Grp "z" re_z) Eps)
              (offset_text colon negative oh om)
              (fun s' _ g => Some (s', g)) Hr) as [acc ->].
  destruct (ok_m m && ok_d d && ok_H h && ok_M mi); [|reflexivity].
  pose proof (exact_S s ltac:(unfold digit_fields in Hr; lia)) as Es.
  unfold exact_pad2 in Es. rewrite Es by apply z_rejects_digits.
  destruct (ok_S s); [|reflexivity]. cbn [andb].
  rewrite <- (digit_upto_5_iff om Hom).
  apply (run_z_last colon negative); apply digit_is_digit; div_lia.
Qed.

Lemma timezone_offset_us (negative : bool) (oh om : Z) :
  (0 <= oh <= 99)%Z -> (0 <= om <= 59)%Z ->
  Datetime.timezone (offset_us negative oh om)
  = if (oh <=? 23)%Z then Ret (offset_us negative oh om) else Raise ValueError.
Proof.
  intros Hoh Hom. unfold Datetime.timezone, Datetime.day_us, offset_us.
  destruct (Z.leb_spec oh 23) as [H|H].
  - assert (E : (- (86400 * 1000000) <?
                 (if negative then -1 else 1) * (oh * 3600 + om * 60) * 1000000)%Z
                && ((if negative then -1 else 1) * (oh * 3600 + om * 60) * 1000000
                    <? 86400 * 1000000)%Z = true).
    { apply andb_true_iff. rewrite !Z.ltb_lt. destruct negative; lia. }
    by rewrite E.
  - assert (E : (- (86400 * 1000000) <?
                 (if negative then -1 else 1) * (oh * 3600 + om * 60) * 1000000)%Z
                && ((if negative then -1 else 1) * (oh * 3600 + om * 60) * 1000000
                    <? 86400 * 1000000)%Z = false).
    { apply andb_false_iff. rewrite !Z.ltb_ge. destruct negative; lia. }
    by rewrite E.
Qed.

(** The second format on padded fields and an offset of two and two
    digits: the object when the fields are valid, the hours of the offset
    at most 23 and its minutes at most 59. *)
Lemma strptime_Sz_exact (y m d h mi s : Z) (colon negative : bool)
    (oh om : Z) :
  digit_fields y m d h mi s -> (0 <= oh <= 99)%Z -> (0 <= om <= 99)%Z ->
  strptime (iso y m d h mi s +:+ offset_text colon negative oh om)
    "%Y-%m-%dT%H:%M:%S%z"
  = if valid_fields y m d h mi s 0 && (oh <=? 23)%Z && (om <=? 59)%Z
    then Ret (Datetime.mk_datetime y m d h mi s 0
                (Some (offset_us negative oh om)))
    else Raise ValueError.
Proof.
  intros Hr Hoh Hom. unfold strptime.
  rewrite pattern_Sz, rmatch_Sz_exact by done.
  destruct (ok_m m && ok_d d && ok_H h && ok_M mi && ok_S s) eqn:Hok.
  2:{ destruct (valid_fields y m d h mi s 0) eqn:Hv; [|reflexivity].
      apply valid_ok in Hv as [H1 H2]. rewrite H1, H2 in Hok. discriminate. }
  destruct (Z.leb_spec om 59) as [Hom'|Hom'];
    [|by rewrite !andb_false_r].
  rewrite andb_true_r. cbn [andb negb String.eqb].
  pose proof (date_fields_wide y m d h mi s
                [("z", offset_text colon negative oh om)] Hr) as Hg.
  cbv zeta in Hg. cbn [app] in Hg.
  destruct Hg as (-> & -> & -> & -> & -> & ->).
  { intros n Hn. simpl in Hn. simpl.
    repeat (destruct Hn as [<-|Hn]; [reflexivity|]). done. }
  cbn [res_bind]. unfold fraction, gmtoff_part, date_groups.
  cbn [group String.eqb Ascii.eqb Bool.eqb].
  cbn [res_bind]. rewrite gmtoff_offset_text by lia. cbn [res_bind].
  unfold valid_fields.
  destruct (Datetime.check_date_fields y m d) eqn:Hd; [|reflexivity].
  cbn [negb andb]. unfold tzinfo_of. cbn [fst snd].
  replace ((if negative then -1 else 1) * (oh * 3600 + om * 60) * 1000000 + 0)%Z
    with (offset_us negative oh om) by (unfold offset_us; lia).
  rewrite timezone_offset_us by lia.
  destruct (oh <=? 23)%Z; [|by rewrite andb_false_r].
  rewrite andb_true_r. cbn [res_bind].
  unfold Datetime.new. rewrite Hd. cbn [andb].
  by destruct (Datetime.check_time_fields _ _ _ _).
Qed.

(** ** The last character *)

Lemma last_app (t rest : string) :
  rest <> "" -> Str.last (t +:+ rest) = Str.last rest.
Proof.
  intros Hne. induction t as [|a t IH]; [done|].
  cbn [String.append]. simpl. rewrite IH.
  destruct (t +:+ rest) eqn:E; [|done].
  destruct t; [|done]. simpl in E. by subst.
Qed.

Lemma init_app (t rest : string) :
  rest <> "" -> Str.init (t +:+ rest) = t +:+ Str.init rest.
Proof.
  intros Hne. induction t as [|a t IH]; [done|].
  cbn [String.append]. simpl. rewrite IH.
  destruct (t +:+ rest) eqn:E; [|done].
  destruct t; [|done]. simpl in E. by subst.
Qed.

Lemma last_iso (y m d h mi s : Z) :
  (0 <= s <= 99)%Z -> Str.endswith (iso y m d h mi s) "Z" = false.
Proof.
  intros Hs. unfold Str.endswith, iso.
  rewrite !last_app by (by unfold pad2).
  unfold pad2. cbn [Str.last].
  apply (digit_cases (s mod 10)
           (fun d => Ascii.eqb (digit d) "Z" = false)); [div_lia|done..].
Qed.

Lemma last_offset_text (t : string) (colon negative : bool) (oh om : Z) :
  (0 <= om <= 99)%Z ->
  Str.endswith (t +:+ offset_text colon negative oh om) "Z" = false.
Proof.
  intros Hom. unfold Str.endswith. rewrite last_app by done.
  unfold offset_text, pad2.
  destruct colon; cbn;
    apply (digit_cases (om mod 10)
             (fun d => Ascii.eqb (digit d) "Z" = false)); (div_lia || done).
Qed.

(** ** [parse_waiver_datetime] on texts of padded fields *)

(** The second format wants a sign or a Z after the seconds, and after a
    Z nothing more. *)
Lemma strptime_Sz_nosign (y m d h mi s : Z) (rest : string) :
  digit_fields y m d h mi s ->
  Str.startswith rest "+" = false -> Str.startswith rest "-" = false ->
  rest <> "Z" ->
  strptime (iso y m d h mi s +:+ rest) "%Y-%m-%dT%H:%M:%S%z"
  = Raise ValueError.
Proof.
  intros Hr Hplus Hminus HZ. unfold strptime, rmatch.
  rewrite pattern_Sz, re_Sz_chain.
  destruct (run_chain_exact y m d h mi s (Seq (Grp "z" re_z) Eps) rest
              (fun s' _ g => Some (s', g)) Hr) as [acc ->].
  destruct (ok_m m && ok_d d && ok_H h && ok_M mi); [|reflexivity].
  pose proof (exact_S s ltac:(unfold digit_fields in Hr; lia)) as Es.
  unfold exact_pad2 in Es. rewrite Es by apply z_rejects_digits.
  destruct (ok_S s); [|reflexivity].
  destruct rest as [|a rest]; [reflexivity|].
  cbn [Str.startswith] in Hplus, Hminus.
  unfold re_z. cbn [run].
  rewrite (one_miss (Ascii.eqb "+")) by (by rewrite Ascii.eqb_sym).
  rewrite (one_miss (Ascii.eqb "-")) by (by rewrite Ascii.eqb_sym).
  cbn [orelse].
  destruct (Ascii.eqb_spec "Z" a) as [<-|Hne].
  - rewrite one_hit by reflexivity.
    destruct rest as [|b rest]; [done|reflexivity].
  - rewrite one_miss; [reflexivity|]. by apply Ascii.eqb_neq.
Qed.

(** The two attempts on a text that ends in Z after the seconds. *)
Lemma first_attempt_utc (y m d h mi s : Z) :
  digit_fields y m d h mi s ->
  first_attempt (iso y m d h mi s +:+ "Z")
  = if valid_fields y m d h mi s 0
    then Ret (Some (Datetime.mk_datetime y m d h mi s 0 (Some 0%Z)))
    else Raise ValueError.
Proof.
  intros Hr. unfold first_attempt, Str.endswith.
  rewrite last_app_one. cbn [Ascii.eqb Bool.eqb].
  rewrite init_app_one, strptime_S_iso by done.
  by destruct (valid_fields y m d h mi s 0).
Qed.

Lemma second_attempt_utc (y m d h mi s : Z) :
  digit_fields y m d h mi s ->
  second_attempt (iso y m d h mi s +:+ "Z") = Raise ValueError.
Proof.
  intros Hr. unfold second_attempt, Str.endswith.
  rewrite last_app_one. cbn [Ascii.eqb Bool.eqb].
  rewrite init_app_one, <- (append_nil_r (iso y m d h mi s)).
  by rewrite strptime_Sf_nodot.
Qed.

(** X10. A text YYYY-MM-DDTHH:MM:SSZ, whatever its digits, is read exactly
    when they are a date of the calendar and a time of day: the 30th of
    February, a month 13, an hour 24, a second 60 and the year 0000 all
    give [None], and every valid text gives its date and time at UTC. *)
Theorem parse_utc_text_exact (y m d h mi s : Z) :
  digit_fields y m d h mi s ->
  parse_waiver_datetime (PStr (iso y m d h mi s +:+ "Z"))
  = Ret (if valid_fields y m d h mi s 0
         then Some (Datetime.mk_datetime y m d h mi s 0 (Some 0%Z))
         else None).
Proof.
  intros Hr. rewrite parse_waiver_datetime_str.
  rewrite first_attempt_utc by done.
  destruct (valid_fields y m d h mi s 0); [reflexivity|].
  cbn [try_except_ValueError].
  rewrite second_attempt_utc by done. reflexivity.
Qed.

(** X10 at the 30th of February. *)
Lemma parse_utc_text_exact_witness :
  parse_waiver_datetime (PStr "2023-02-30T12:00:00Z") = Ret None.
Proof.
  apply (parse_utc_text_exact 2023 2 30 12 0 0). unfold digit_fields. lia.
Defined.

(** X11. The fraction of a second is read as written after the point:
    from one to six digits, filled up with zeros on the right to
    microseconds, so that .5 is half a second; seven digits or more are
    not read, and neither is an invalid date or time before the point. *)
Theorem parse_fraction_exact (y m d h mi s : Z) (t : string) :
  digit_fields y m d h mi s ->
  Str.all Str.is_digit t = true -> t <> "" ->
  parse_waiver_datetime (PStr (iso y m d h mi s +:+ "." +:+ t +:+ "Z"))
  = Ret (if valid_fields y m d h mi s 0 && (String.length t <=? 6)%nat
         then Some (Datetime.mk_datetime y m d h mi s
                      (Str.digits_val 0 t
                       * 10 ^ Z.of_nat (6 - String.length t))
                      (Some 0%Z))
         else None).
Proof.
  intros Hr Ht Hne. rewrite parse_waiver_datetime_str.
  replace (iso y m d h mi s +:+ "." +:+ t +:+ "Z")
    with ((iso y m d h mi s +:+ "." +:+ t) +:+ "Z")
    by (rewrite !append_assoc; reflexivity).
  unfold first_attempt, second_attempt, Str.endswith.
  rewrite !last_app_one. cbn [Ascii.eqb Bool.eqb].
  rewrite !init_app_one.
  change (iso y m d h mi s +:+ "." +:+ t)
    with (iso y m d h mi s +:+ String "." t) at 1.
  rewrite strptime_S_rest_wide by done.
  cbn [res_bind try_except_ValueError].
  rewrite strptime_Sf_exact by done.
  by destruct (valid_fields y m d h mi s 0 && (String.length t <=? 6)%nat).
Qed.

(** X11 at half a second. *)
Lemma parse_fraction_exact_witness :
  parse_waiver_datetime (PStr "2024-01-01T00:00:00.5Z")
  = Ret (Some (Datetime.mk_datetime 2024 1 1 0 0 0 500000 (Some 0%Z))).
Proof.
  apply (parse_fraction_exact 2024 1 1 0 0 0 "5");
    [unfold digit_fields; lia|reflexivity|discriminate].
Defined.

(** X12. A text with a numeric offset, +HH:MM or -HH:MM, the colon written
    or not, is read exactly when date and time are valid, the hours of
    the offset are at most 23 and its minutes at most 59; the object has
    the fields as written and that offset. *)
Theorem parse_offset_exact (y m d h mi s : Z) (colon negative : bool)
    (oh om : Z) :
  digit_fields y m d h mi s -> (0 <= oh <= 99)%Z -> (0 <= om <= 99)%Z ->
  parse_waiver_datetime
    (PStr (iso y m d h mi s +:+ offset_text colon negative oh om))
  = Ret (if valid_fields y m d h mi s 0 && (oh <=? 23)%Z && (om <=? 59)%Z
         then Some (Datetime.mk_datetime y m d h mi s 0
                      (Some (offset_us negative oh om)))
         else None).
Proof.
  intros Hr Hoh Hom. rewrite parse_waiver_datetime_str.
  unfold first_attempt, second_attempt.
  rewrite last_offset_text, strptime_Sz_exact by done.
  by destruct (valid_fields y m d h mi s 0 && (oh <=? 23)%Z && (om <=? 59)%Z).
Qed.

(** X12 at an offset of 24 hours. *)
Lemma parse_offset_exact_witness :
  parse_waiver_datetime (PStr "2024-01-01T00:00:00+24:00") = Ret None.
Proof.
  apply (parse_offset_exact 2024 1 1 0 0 0 true false 24 0);
    [unfold digit_fields; lia|lia|lia].
Defined.

(** X13. After the seconds a time stamp must go on with a final Z, with a
    point (and a final Z after the fraction) or with a sign (and no final
    Z). Any other continuation gives [None]: nothing at all, a fraction
    without Z or before an offset, a lower-case z, a blank before or after
    the Z, an offset followed by Z. *)
Theorem parse_needs_designator (y m d h mi s : Z) (rest : string) :
  digit_fields y m d h mi s -> continues rest = false ->
  parse_waiver_datetime (PStr (iso y m d h mi s +:+ rest)) = Ret None.
Proof.
  intros Hr Hc. rewrite parse_waiver_datetime_str.
  unfold continues in Hc. unfold first_attempt, second_attempt.
  destruct (Str.endswith rest "Z") eqn:Hz.
  - apply orb_false_iff in Hc as [HZ Hdot].
    apply String.eqb_neq in HZ.
    assert (Hne : rest <> "") by (by intros ->).
    assert (Hz' : Str.endswith (iso y m d h mi s +:+ rest) "Z" = true).
    { unfold Str.endswith in *. by rewrite last_app. }
    rewrite Hz', init_app by done.
    destruct rest as [|a rest]; [done|].
    destruct rest as [|b rest].
    { exfalso. apply HZ. unfold Str.endswith in Hz. simpl in Hz.
      by apply Ascii.eqb_eq in Hz as ->. }
    change (Str.init (String a (String b rest)))
      with (String a (Str.init (String b rest))).
    rewrite strptime_S_rest_wide by done.
    cbn [res_bind try_except_ValueError].
    rewrite strptime_Sf_nodot by done. reflexivity.
  - apply orb_false_iff in Hc as [Hplus Hminus].
    assert (Hz' : Str.endswith (iso y m d h mi s +:+ rest) "Z" = false).
    { destruct rest as [|a rest].
      - rewrite append_nil_r. apply last_iso. unfold digit_fields in Hr. lia.
      - unfold Str.endswith in *. by rewrite last_app. }
    rewrite Hz', strptime_Sz_nosign; [reflexivity|done..|].
    intros ->. discriminate Hz.
Qed.

(** X13 at a time stamp with no zone designator. *)
Lemma parse_needs_designator_witness :
  parse_waiver_datetime (PStr "2024-01-01T00:00:00") = Ret None.
Proof.
  apply (parse_needs_designator 2024 1 1 0 0 0 ""); [|reflexivity].
  unfold digit_fields. lia.
Defined.

(** ** The handler that is never reached *)

Lemma make_api_request_no_json (method endpoint : string) (rp : reply) :
  match make_api_request method endpoint rp with
  | inl (_, evs) | inr (evs, _) => filter is_json_line evs = []
  end.
Proof.
  unfold make_api_request. destruct (try_body method rp) as [v'|[e|e]].
  - done.
  - unfold handlers. by destruct e.
  - done.
Qed.

Lemma delete_waiver_no_json (srv : server) (st : tally) (w : waiver) :
  filter is_json_line (del_trace st) = [] ->
  match delete_waiver srv st w with
  | inl st' | inr (st', _) => filter is_json_line (del_trace st') = []
  end.
Proof.
  unfold delete_waiver. intros Hst.
  destruct (SCOPE_TYPE_MAP_get (w_scope_type w)) as [tok|].
  2:{ cbn [del_trace]. by rewrite filter_app, Hst. }
  destruct (negb (truthy (PStr tok))).
  { cbn [del_trace]. by rewrite filter_app, Hst. }
  destruct (pd_isna (w_scope_id w) || negb (truthy (w_scope_id w))).
  { cbn [del_trace]. by rewrite filter_app, Hst. }
  match goal with |- context [make_api_request ?m ?e ?r] =>
    pose proof (make_api_request_no_json m e r) as Hm;
    destruct (make_api_request m e r) as [[v evs]|[evs e']]
  end.
  - destruct (api_truthy v); cbn [del_trace];
      by rewrite !filter_app, Hst, Hm.
  - cbn [del_trace]. by rewrite !filter_app, Hst, Hm.
Qed.

Lemma delete_waivers_no_json (srv : server) (ws : list waiver) (st : tally) :
  filter is_json_line (del_trace st) = [] ->
  match delete_waivers srv st ws with
  | inl st' | inr (st', _) => filter is_json_line (del_trace st') = []
  end.
Proof.
  revert st. induction ws as [|w ws IH]; intros st Hst; cbn [delete_waivers].
  - done.
  - pose proof (delete_waiver_no_json srv st w Hst) as Hw.
    destruct (delete_waiver srv st w) as [st1|[st1 c]]; [|done].
    by apply IH.
Qed.

Lemma scan_trace_no_json (clock : Datetime.datetime) (rows : list row) :
  filter is_json_line (omap (row_event (now_utc clock)) rows) = [].
Proof.
  induction rows as [|r rows IH]; [done|]. cbn [omap list_omap].
  destruct (row_event (now_utc clock) r) as [e|] eqn:E; [|exact IH].
  rewrite filter_cons, IH.
  unfold row_event in E. by destruct (verdict_of _ _); simplify_eq.
Qed.

Lemma listing_no_json (ws : list waiver) :
  filter is_json_line (map EListed ws) = [].
Proof. induction ws as [|w ws IH]; [done|]. simpl. by rewrite filter_cons. Qed.

(** X14. The diagnostic for a body that is not JSON (line 54) is never
    printed: its [except] clause comes after the one for
    RequestException, which the JSONDecodeError of requests derives from.
    A reply whose body does not decode is reported by the line for an
    unexpected error (line 51), and the call returns [None]. *)
Theorem json_diagnostic_unreachable (rows : list row)
    (clock : Datetime.datetime) (typed : option string) (srv : server)
    (method endpoint : string) (rp : reply) :
  filter is_json_line (trace (main rows clock typed srv)) = []
  /\ (try_body method rp = inr (ByRequests JSONDecodeError) ->
      make_api_request method endpoint rp
      = inl (ANone, [ERequest method (API_BASE +:+ "/" +:+ endpoint);
                     EErrUnexpected (API_BASE +:+ "/" +:+ endpoint)])).
Proof.
  split.
  - rewrite main_unfold. unfold deletion_section.
    pose proof (scan_trace_no_json clock rows) as Hs.
    destruct (expired_entries clock rows) as [|w ws] eqn:He.
    { cbn [trace]. by rewrite filter_app, Hs. }
    rewrite <- He.
    pose proof (listing_no_json (expired_entries clock rows)) as Hl.
    destruct typed as [confirm|];
      [|cbn [trace]; by rewrite !filter_app, Hs, Hl].
    destruct (confirmed confirm);
      [|cbn [trace]; by rewrite !filter_app, Hs, Hl].
    match goal with |- context [delete_waivers srv ?st ?l] =>
      pose proof (delete_waivers_no_json srv l st) as Hd;
      destruct (delete_waivers srv st l) as [st'|[st' c]]
    end.
    + cbn [trace]. rewrite filter_app, Hd; [done|].
      cbn [del_trace]. by rewrite !filter_app, Hs, Hl.
    + cbn [trace]. apply Hd.
      cbn [del_trace]. by rewrite !filter_app, Hs, Hl.
  - intros Hb. unfold make_api_request. by rewrite Hb.
Qed.

(** X14 at a reply of status 200 whose body is a page of HTML. *)
Lemma json_diagnostic_unreachable_witness :
  make_api_request "DELETE" "policyWaivers/application/app-1/w-1"
    (Responded (mk_response 200 "<html></html>" None))
  = inl (ANone,
         [ERequest "DELETE"
            (API_BASE +:+ "/" +:+ "policyWaivers/application/app-1/w-1");
          EErrUnexpected
            (API_BASE +:+ "/" +:+ "policyWaivers/application/app-1/w-1")]).
Proof.
  apply (json_diagnostic_unreachable [] clock_2024 None
           (fun _ _ => Failed ConnectionError)).
  reflexivity.
Defined.

(** ** From the file to the requests *)

(** X15. From the file to the server, for a table whose labels are
    distinct once stripped: when the script reaches its loops, one file
    matched and was read, and every request of the run is the DELETE of a
    line of that file, its cells found under the stripped labels, sent
    after the operator confirmed, the expiration date of the line read as
    an instant strictly before the current time. *)
Theorem script_requests_from_file (matching_files : list string)
    (read_csv : string -> option frame) (clock : Datetime.datetime)
    (typed : option string) (srv : server) (o : outcome) :
  (forall file df,
     read_csv file = Some df -> NoDup (map Str.strip (columns df))) ->
  (script matching_files read_csv clock typed srv).2 = Some o ->
  exists file df,
    matching_files = [file] /\ read_csv file = Some df
    /\ Forall (fun e =>
                 exists vals r tok t confirm,
                   In vals (cells df)
                   /\ row_of (map Str.strip (columns df)) vals = Some r
                   /\ typed = Some confirm /\ confirmed confirm = true
                   /\ SCOPE_TYPE_MAP_get (scope_type r) = Some tok
                   /\ e = ERequest "DELETE" (url_of tok (entry_of r))
                   /\ parse_waiver_datetime
                        (PStr (py_str (expiration_date r)))
                      = Ret (Some t)
                   /\ (Datetime.instant t
                       < Datetime.instant (now_utc clock))%Z)
         (requests (trace o)).
Proof.
  intros _. unfold script. cbn [snd].
  destruct (start_of matching_files read_csv) as [| | | | |file total rows] eqn:E;
    try done.
  intros [= <-].
  apply start_of_Started in E as (df & Hm & Hread & _ & Hrows).
  exists file, df. split; [done|]. split; [done|].
  apply Forall_forall. intros e He.
  apply requests_of_marked in He as (c & r & -> & Hc & Hin & Hreq).
  apply rows_of_In in Hin as [Hin Hv].
  destruct (request_of_marked _ _ _ Hv Hreq) as (tok & t & Hs & -> & Hp & Hlt).
  apply list_elem_of_In, list_elem_of_lookup in Hin as [i Hi].
  destruct (Forall2_lookup_r _ _ _ _ _ Hrows Hi) as (vals & Hvals & Hrow).
  exists vals, r, tok, t, c. split; [|done].
  apply list_elem_of_In. by eapply list_elem_of_lookup_2.
Qed.

(** X15 at a directory with one file, whose single line has expired. *)
Lemma script_requests_from_file_witness :
  exists file df,
    ["results-waivers-1.csv"] = [file] /\ read_F1 file = Some df
    /\ Forall (fun e =>
                 exists vals r tok t confirm,
                   In vals (cells df)
                   /\ row_of (map Str.strip (columns df)) vals = Some r
                   /\ Some "delete" = Some confirm
                   /\ confirmed confirm = true
                   /\ SCOPE_TYPE_MAP_get (scope_type r) = Some tok
                   /\ e = ERequest "DELETE" (url_of tok (entry_of r))
                   /\ parse_waiver_datetime
                        (PStr (py_str (expiration_date r)))
                      = Ret (Some t)
                   /\ (Datetime.instant t
                       < Datetime.instant (now_utc clock_2024))%Z)
         (requests (trace (main [R1] clock_2024 (Some "delete") no_content))).
Proof.
  apply (script_requests_from_file ["results-waivers-1.csv"] read_F1
           clock_2024 (Some "delete") no_content).
  - exact read_F1_distinct.
  - reflexivity.
Defined.

(** ** The order of the calendar *)

Lemma days_before_year_mono (y y' : Z) :
  (y < y')%Z ->
  (Datetime.days_before_year y + (if Datetime.is_leap y then 366 else 365)
   <= Datetime.days_before_year y')%Z.
Proof.
  intros H. unfold Datetime.days_before_year, Datetime.is_leap. cbv zeta.
  destruct (Z.eqb_spec (y mod 4) 0), (Z.eqb_spec (y mod 100) 0),
    (Z.eqb_spec (y mod 400) 0); cbn [negb andb orb];
    Z.div_mod_to_equations; lia.
Qed.

Lemma month_cases (m : Z) (P : Z -> Prop) :
  (1 <= m <= 12)%Z ->
  P 1%Z -> P 2%Z -> P 3%Z -> P 4%Z -> P 5%Z -> P 6%Z -> P 7%Z -> P 8%Z ->
  P 9%Z -> P 10%Z -> P 11%Z -> P 12%Z -> P m.
Proof.
  intros Hm. intros.
  assert (m = 1 \/ m = 2 \/ m = 3 \/ m = 4 \/ m = 5 \/ m = 6 \/ m = 7 \/ m = 8
          \/ m = 9 \/ m = 10 \/ m = 11 \/ m = 12)%Z as H' by lia.
  repeat (destruct H' as [->|H']; [assumption|]). by subst.
Qed.

(** The days of a year before and in a month. *)
Lemma days_in_year (y m : Z) :
  (1 <= m <= 12)%Z ->
  (0 <= Datetime.days_before_month y m
   /\ Datetime.days_before_month y m + Datetime.days_in_month y m
      <= (if Datetime.is_leap y then 366 else 365))%Z.
Proof.
  intros Hm. unfold Datetime.days_before_month, Datetime.days_in_month.
  apply (month_cases m
           (fun m =>
              (0 <= Datetime.table Datetime.DAYS_BEFORE_MONTH m
                    + (if (2 <? m) && Datetime.is_leap y then 1 else 0)
               /\ Datetime.table Datetime.DAYS_BEFORE_MONTH m
                  + (if (2 <? m) && Datetime.is_leap y then 1 else 0)
                  + (if (m =? 2) && Datetime.is_leap y then 29
                     else Datetime.table Datetime.DAYS_IN_MONTH m)
                  <= (if Datetime.is_leap y then 366 else 365))%Z));
    [done|..]; destruct (Datetime.is_leap y); vm_compute;
    split; discriminate.
Qed.

Lemma days_before_month_mono (y m m' : Z) :
  (1 <= m)%Z -> (m < m')%Z -> (m' <= 12)%Z ->
  (Datetime.days_before_month y m + Datetime.days_in_month y m
   <= Datetime.days_before_month y m')%Z.
Proof.
  intros H1 H2 H3.
  assert (Hm : (1 <= m <= 12)%Z) by lia.
  assert (Hm' : (1 <= m' <= 12)%Z) by lia.
  revert H2. clear H1 H3.
  unfold Datetime.days_before_month, Datetime.days_in_month.
  pattern m. apply (month_cases m); [exact Hm|..]; clear Hm;
    (pattern m'; apply (month_cases m'); [exact Hm'|..]); clear Hm';
    intros Hlt;
    first [lia
          |clear Hlt; destruct (Datetime.is_leap y); vm_compute; discriminate].
Qed.

(** The ordinal of a date grows with the date. *)
Lemma ymd2ord_mono (y m d y' m' d' : Z) :
  Datetime.check_date_fields y m d = true ->
  Datetime.check_date_fields y' m' d' = true ->
  (y < y' \/ (y = y' /\ (m < m' \/ (m = m' /\ d < d'))))%Z ->
  (Datetime.ymd2ord y m d < Datetime.ymd2ord y' m' d')%Z.
Proof.
  unfold Datetime.check_date_fields, Datetime.ymd2ord.
  rewrite !andb_true_iff, !Z.leb_le.
  intros (((((Hy1 & Hy2) & Hm1) & Hm2) & Hd1) & Hd2).
  intros (((((Hy1' & Hy2') & Hm1') & Hm2') & Hd1') & Hd2').
  pose proof (days_in_year y m ltac:(lia)) as [Ha1 Ha2].
  pose proof (days_in_year y' m' ltac:(lia)) as [Hb1 Hb2].
  intros [Hlt|[-> [Hlt|[-> Hlt]]]].
  - pose proof (days_before_year_mono y y' Hlt) as Hyy.
    destruct (Datetime.is_leap y); lia.
  - pose proof (days_before_month_mono y' m m' ltac:(lia) Hlt ltac:(lia)). lia.
  - lia.
Qed.

(** Two valid wall clocks compare as their fields do, from the year to
    the microsecond. *)
Lemma local_us_lex (a b : Datetime.datetime) :
  Datetime.check_date_fields (Datetime.year a) (Datetime.month a)
    (Datetime.day a) = true ->
  Datetime.check_time_fields (Datetime.hour a) (Datetime.minute a)
    (Datetime.second a) (Datetime.microsecond a) = true ->
  Datetime.check_date_fields (Datetime.year b) (Datetime.month b)
    (Datetime.day b) = true ->
  Datetime.check_time_fields (Datetime.hour b) (Datetime.minute b)
    (Datetime.second b) (Datetime.microsecond b) = true ->
  (Datetime.local_us a <? Datetime.local_us b)%Z
  = lex_lt (fields_of a) (fields_of b).
Proof.
  destruct a as [y m d h mi s us tz], b as [y' m' d' h' mi' s' us' tz'].
  cbn [Datetime.year Datetime.month Datetime.day Datetime.hour
       Datetime.minute Datetime.second Datetime.microsecond].
  intros Hda Hta Hdb Htb.
  unfold Datetime.local_us, fields_of.
  cbn [Datetime.year Datetime.month Datetime.day Datetime.hour
       Datetime.minute Datetime.second Datetime.microsecond lex_lt].
  pose proof (ymd2ord_mono y m d y' m' d' Hda Hdb) as Hab.
  pose proof (ymd2ord_mono y' m' d' y m d Hdb Hda) as Hba.
  unfold Datetime.check_time_fields in Hta, Htb.
  rewrite !andb_true_iff, !Z.leb_le in Hta, Htb.
  destruct (Z.ltb_spec y y') as [Hy|Hy];
    [cbn [orb]; apply Z.ltb_lt; specialize (Hab ltac:(lia)); lia|].
  destruct (Z.eqb_spec y y') as [->|Hy'];
    [|cbn [orb andb]; apply Z.ltb_ge; specialize (Hba ltac:(lia)); lia].
  cbn [orb andb].
  destruct (Z.ltb_spec m m') as [Hm|Hm];
    [cbn [orb]; apply Z.ltb_lt; specialize (Hab ltac:(lia)); lia|].
  destruct (Z.eqb_spec m m') as [->|Hm'];
    [|cbn [orb andb]; apply Z.ltb_ge; specialize (Hba ltac:(lia)); lia].
  cbn [orb andb].
  destruct (Z.ltb_spec d d') as [Hd|Hd];
    [cbn [orb]; apply Z.ltb_lt; specialize (Hab ltac:(lia)); lia|].
  destruct (Z.eqb_spec d d') as [->|Hd'];
    [|cbn [orb andb]; apply Z.ltb_ge; specialize (Hba ltac:(lia)); lia].
  cbn [orb andb]. clear Hab Hba.
  destruct (Z.ltb_spec h h'); [cbn [orb]; apply Z.ltb_lt; lia|].
  destruct (Z.eqb_spec h h') as [->|];
    [|cbn [orb andb]; apply Z.ltb_ge; lia].
  cbn [orb andb].
  destruct (Z.ltb_spec mi mi'); [cbn [orb]; apply Z.ltb_lt; lia|].
  destruct (Z.eqb_spec mi mi') as [->|];
    [|cbn [orb andb]; apply Z.ltb_ge; lia].
  cbn [orb andb].
  destruct (Z.ltb_spec s s'); [cbn [orb]; apply Z.ltb_lt; lia|].
  destruct (Z.eqb_spec s s') as [->|];
    [|cbn [orb andb]; apply Z.ltb_ge; lia].
  cbn [orb andb].
  destruct (Z.ltb_spec us us'); [cbn [orb]; apply Z.ltb_lt; lia|].
  destruct (Z.eqb_spec us us') as [->|];
    cbn [orb andb]; apply Z.ltb_ge; lia.
Qed.

(** X16. For a row whose expiration date is a text YYYY-MM-DDTHH:MM:SSZ
    the first loop decides by the calendar: a warning when the digits are
    no date and time, and otherwise the row is marked exactly when its
    fields, from the year to the second, come before those of the clock
    in the order of tuples (which is how CPython compares two objects of
    one time zone); it is left alone at the same reading and after. *)
Theorem mark_by_calendar (st : scan) (r : row) (clock : Datetime.datetime)
    (y m d h mi s : Z) :
  digit_fields y m d h mi s ->
  valid_fields (Datetime.year clock) (Datetime.month clock)
    (Datetime.day clock) (Datetime.hour clock) (Datetime.minute clock)
    (Datetime.second clock) (Datetime.microsecond clock) = true ->
  expiration_date r = PStr (iso y m d h mi s +:+ "Z") ->
  scan_row (now_utc clock) st r
  = Ret (if valid_fields y m d h mi s 0
         then if lex_lt [y; m; d; h; mi; s; 0%Z] (fields_of clock)
              then marked st r else st
         else warned st r).
Proof.
  intros Hr [Hdc Htc]%andb_true_iff Hexp.
  unfold scan_row, marked, warned, entry_of. rewrite Hexp.
  cbn [pd_isna py_str]. rewrite parse_waiver_datetime_str.
  rewrite first_attempt_utc by done.
  destruct (valid_fields y m d h mi s 0) eqn:Hv;
    [|cbn [try_except_ValueError]; by rewrite second_attempt_utc].
  cbn [try_except_ValueError].
  apply andb_true_iff in Hv as [Hd Ht].
  cbn [res_bind]. unfold Datetime.lt, now_utc, Datetime.replace_tzinfo.
  cbn [Datetime.tzinfo res_bind]. unfold Datetime.instant.
  cbn [Datetime.tzinfo default]. unfold Datetime.utc. rewrite !Z.sub_0_r.
  change (Datetime.local_us
            (Datetime.mk_datetime (Datetime.year clock) (Datetime.month clock)
               (Datetime.day clock) (Datetime.hour clock)
               (Datetime.minute clock) (Datetime.second clock)
               (Datetime.microsecond clock) (Some 0%Z)))
    with (Datetime.local_us clock).
  rewrite (local_us_lex (Datetime.mk_datetime y m d h mi s 0 (Some 0%Z)) clock)
    by done.
  change (fields_of (Datetime.mk_datetime y m d h mi s 0 (Some 0%Z)))
    with [y; m; d; h; mi; s; 0%Z].
  by destruct (lex_lt _ _).
Qed.

(** X16 at the row that expired in 2020, read in 2024. *)
Lemma mark_by_calendar_witness :
  scan_row (now_utc clock_2024) (mk_scan [] []) R1
  = Ret (marked (mk_scan [] []) R1).
Proof.
  apply (mark_by_calendar (mk_scan [] []) R1 clock_2024 2020 1 1 0 0 0);
    [unfold digit_fields; lia|reflexivity|reflexivity].
Defined.
